(** * diffdev: the command loop, the .gitignore parser and the project tree

  A shallow embedding of [src/diffdev/cli.py], [src/diffdev/gitignore.py],
  [src/diffdev/tree_utils.py] and [src/diffdev/clipboard.py].

  Conventions of the embedding.
  - A Python [str] is the list of its code points ([Py.str]).
  - A call into a collaborator (the console, the context manager, the
    model client, the patch manager, the file system) either returns a
    value or raises; what it does is read from a [world], one per
    iteration of the command loop.  Exceptions, [KeyboardInterrupt]
    included, surface at these calls.
  - [print] and the [logging] calls never raise; printed text is kept in
    the event log, log records are dropped.
  - The collaborators of [cli.py] that are not among the sources
    (ConfigManager, ContextManager, LLMClient, PatchManager,
    FileSelector) and the library function [fnmatch.fnmatch] are
    parameters: the statements hold for whatever they do.
  - The tree under the root of ProjectTreeGenerator is a finite value;
    Python's own recursion limit is not modelled. *)

From Stdlib Require Import String Ascii.
From Stdlib Require Import NArith List Bool Arith Lia.
From Stdlib Require Import DecimalString Sorted.
Import ListNotations.

Set Implicit Arguments.
Set Warnings "-register-all".

(* ================================================================== *)
(** * Python values *)
(* ================================================================== *)

Module Py.

(** [str]: a sequence of Unicode code points. *)
Definition str := list N.

(** An ASCII literal of the source. *)
Definition lit (s : String.string) : str :=
  map Ascii.N_of_ascii (String.list_ascii_of_string s).

Definition eqb (a b : str) : bool :=
  if list_eq_dec N.eq_dec a b then true else false.

(** Truth value of a [str] and of an [Optional[str]]. *)
Definition truthy (s : str) : bool :=
  match s with [] => false | _ :: _ => true end.

Definition truthy_opt (o : option str) : bool :=
  match o with None => false | Some s => truthy s end.

(** [str.isspace] on one code point: the characters [str.strip()]
    removes. *)
Definition isspace (c : N) : bool :=
  ((9 <=? c) && (c <=? 13) || (28 <=? c) && (c <=? 32)
   || (c =? 133) || (c =? 160) || (c =? 5760)
   || (8192 <=? c) && (c <=? 8202)
   || (c =? 8232) || (c =? 8233) || (c =? 8239) || (c =? 8287)
   || (c =? 12288))%N.

Fixpoint lstrip (s : str) : str :=
  match s with
  | c :: s' => if isspace c then lstrip s' else s
  | [] => []
  end.

Definition rstrip (s : str) : str := rev (lstrip (rev s)).

(** [s.strip()] *)
Definition strip (s : str) : str := rstrip (lstrip s).

(** [s.startswith(p)] *)
Fixpoint startswith (s p : str) {struct p} : bool :=
  match p, s with
  | [], _ => true
  | a :: p', b :: s' => (a =? b)%N && startswith s' p'
  | _ :: _, [] => false
  end.

(** [s.endswith(p)] *)
Definition endswith (s p : str) : bool := startswith (rev s) (rev p).

(** [sep.join(xs)] *)
Fixpoint join (sep : str) (xs : list str) : str :=
  match xs with
  | [] => []
  | [x] => x
  | x :: rest => x ++ sep ++ join sep rest
  end.

(** [str(n)] for a non-negative [int]. *)
Definition str_of_nat (n : nat) : str :=
  lit (NilZero.string_of_uint (Nat.to_uint n)).

(** [s.rjust(width)] *)
Definition rjust (s : str) (width : nat) : str :=
  repeat 32%N (width - length s) ++ s.

(** [s.lower()] restricted to what a comparison with an ASCII word can
    see: A-Z go to a-z.  No other code point lowercases to a letter of
    [exit], [select], [undo] or [redo], so [lower s = lit w] decides
    [s.lower() == w] for these words. *)
Definition lower_char (c : N) : N :=
  if ((65 <=? c) && (c <=? 90))%N then (c + 32)%N else c.

Definition lower (s : str) : str := map lower_char s.

(** Text-mode reading: [\r\n] and a lone [\r] become [\n] ... *)
Fixpoint universal_newlines (s : str) : str :=
  match s with
  | 13%N :: ((10%N :: _) as rest) => universal_newlines rest
  | 13%N :: rest => 10%N :: universal_newlines rest
  | c :: rest => c :: universal_newlines rest
  | [] => []
  end.

(** ... and iterating the file (or [readlines()]) yields the lines, each
    with its terminating [\n], the last one possibly without. *)
Fixpoint split_lines (cur : str) (s : str) : list str :=
  match s with
  | [] => match cur with [] => [] | _ => [rev cur] end
  | c :: rest =>
      if (c =? 10)%N then rev (c :: cur) :: split_lines [] rest
      else split_lines (c :: cur) rest
  end.

Definition readlines (text : str) : list str :=
  split_lines [] (universal_newlines text).

(** Modelled from the spec: the error classes of the patch engine, whose
    module (patch.py) is not among the sources.  Section 7 of the spec
    names [MalformedPatch], [HunkConflict], [BackupMissing] and
    [RestoreWriteError]; they are ordinary errors, subclasses of
    [Exception].  [OtherError] is any other [Exception] subclass. *)
Inductive error_kind : Type :=
| MalformedPatch
| HunkConflict
| BackupMissing
| RestoreWriteError
| OtherError (class_name : str).

(** Exceptions.  [except Exception] catches the [Exception] subclasses
    only; [KeyboardInterrupt] and [SystemExit] derive from
    [BaseException] directly. *)
Inductive exn : Type :=
| KeyboardInterrupt
| SystemExit
| Exception (kind : error_kind) (message : str).

Definition is_Exception (e : exn) : bool :=
  match e with Exception _ _ => true | _ => false end.

(** [str(e)] *)
Definition exn_str (e : exn) : str :=
  match e with Exception _ m => m | _ => [] end.

(** The outcome of a call. *)
Inductive outcome (A : Type) : Type :=
| Returns (a : A)
| Raises (e : exn).
Arguments Raises {A} e.

End Py.

Notation "'u' s" := (Py.lit s%string) (at level 1, s at level 0, only parsing).

(* ================================================================== *)
(** * gitignore.py: GitignoreParser *)
(* ================================================================== *)

Module Gitignore.
Section WithFnmatch.

(** [fnmatch.fnmatch(name, pattern)] of the Python library. *)
Variable fnmatch : Py.str -> Py.str -> bool.

(** The file at [gitignore_path]: [None] when [exists()] is false,
    otherwise its decoded text. *)
Definition gitignore_file := option Py.str.

(** The loop of [load_patterns] over the lines of the open file,
    appending to [self.patterns]. *)
Fixpoint load_lines (lines : list Py.str) (patterns : list Py.str)
  : list Py.str :=
  match lines with
  | [] => patterns
  | line :: rest =>
      let line := Py.strip line in
      if Py.truthy line && negb (Py.startswith line (u"#"))
      then load_lines rest (patterns ++ [line])
      else load_lines rest patterns
  end.

Definition load_patterns (f : gitignore_file) (patterns : list Py.str)
  : list Py.str :=
  match f with
  | None => patterns
  | Some text => load_lines (Py.readlines text) patterns
  end.

(** [GitignoreParser(gitignore_path)]: the object is its [patterns]. *)
Record GitignoreParser : Type := { patterns : list Py.str }.

Definition init (f : gitignore_file) : GitignoreParser :=
  {| patterns := load_patterns f [] |}.

(** [os.path.basename(path)]: what follows the last [/]. *)
Fixpoint basename_from (cur : Py.str) (path : Py.str) : Py.str :=
  match path with
  | [] => rev cur
  | c :: rest =>
      if (c =? 47)%N then basename_from [] rest
      else basename_from (c :: cur) rest
  end.

Definition basename (path : Py.str) : Py.str := basename_from [] path.

Fixpoint should_ignore_loop (ps : list Py.str) (path : Py.str) : bool :=
  match ps with
  | [] => false
  | pattern :: rest =>
      let pattern :=
        if Py.endswith pattern (u"/") then removelast pattern
        else pattern in
      if fnmatch path pattern || fnmatch (basename path) pattern
      then true
      else should_ignore_loop rest path
  end.

Definition should_ignore (self : GitignoreParser) (path : Py.str) : bool :=
  should_ignore_loop (patterns self) path.

End WithFnmatch.
End Gitignore.

(* ================================================================== *)
(** * tree_utils.py: FileContentFormatter and ProjectTreeGenerator *)
(* ================================================================== *)

Module TreeUtils.

Import Py.

Definition nl : str := [10%N].

(** ** The file system under the root *)

(** What [open(file_path, "r", encoding="utf-8")] and [readlines()] give
    for a file. *)
Inductive file_read : Type :=
| Text (text : str)
| NotUtf8
| ReadFails (e : str).

(** An entry of a directory.  [is_file()] holds of [RegularFile] only;
    [Unlistable] is a directory whose [iterdir()] raises; [Special] is
    neither [is_file()] nor [is_dir()] (a socket, a dangling link). *)
Inductive fsnode : Type :=
| RegularFile (name : str) (data : file_read)
| Dir (name : str) (kids : list fsnode)
| Unlistable (name : str)
| Special (name : str).

Definition node_name (n : fsnode) : str :=
  match n with
  | RegularFile name _ | Dir name _ | Unlistable name | Special name => name
  end.

Definition is_dir (n : fsnode) : bool :=
  match n with Dir _ _ | Unlistable _ => true | _ => false end.

(** [directory.iterdir()], in the order the system lists the entries;
    [None] when it raises. *)
Definition iterdir (n : fsnode) : option (list fsnode) :=
  match n with Dir _ kids => Some kids | _ => None end.

Fixpoint height (n : fsnode) : nat :=
  match n with
  | Dir _ kids => S (fold_right (fun k h => Nat.max (height k) h) 0 kids)
  | _ => 0
  end.

(** ** pathlib.Path, as its [parts] *)

Definition Path := list str.

Definition path_name (p : Path) : str := last p [].

(** [str(path)] *)
Definition path_str (p : Path) : str :=
  match p with
  | [] => u"."
  | a :: rest =>
      if startswith a (u"/") then a ++ join (u"/") rest
      else join (u"/") p
  end.

(** [path.relative_to(other)]; [None] is its [ValueError]. *)
Fixpoint relative_to (p other : Path) {struct other} : option Path :=
  match other, p with
  | [], _ => Some p
  | b :: other', a :: p' => if eqb a b then relative_to p' other' else None
  | _ :: _, [] => None
  end.

Definition ValueError : exn :=
  Exception (OtherError (u"ValueError")) (u"path is not in the subpath").

Definition RecursionError : exn :=
  Exception (OtherError (u"RecursionError"))
            (u"maximum recursion depth exceeded").

Definition bind {A B} (m : outcome A) (k : A -> outcome B) : outcome B :=
  match m with
  | Returns a => k a
  | Raises e => Raises e
  end.

Local Notation "x <- m ;; k" := (bind m (fun x => k))
  (at level 61, m at next level, right associativity).

(** ** FileContentFormatter *)

Fixpoint number_lines (padding : nat) (i : nat) (lines : list str)
  : list str :=
  match lines with
  | [] => []
  | line :: rest =>
      (rjust (str_of_nat (i + 1)) padding ++ u" | " ++ line)
        :: number_lines padding (S i) rest
  end.

Definition format_file_content (file_path : Path) (data : file_read)
  : str :=
  match data with
  | Text text =>
      let lines := readlines text in
      let padding := length (str_of_nat (length lines)) in
      let formatted_lines := number_lines padding 0 lines in
      let separator := repeat 45%N 80 in
      nl ++ path_str file_path ++ u":" ++ nl
         ++ separator ++ nl
         ++ join [] formatted_lines ++ nl
         ++ separator ++ nl
  | NotUtf8 => nl ++ path_str file_path ++ u": [Binary file]" ++ nl
  | ReadFails e =>
      nl ++ path_str file_path ++ u": [Error reading file: " ++ e
         ++ u"]" ++ nl
  end.

(** ** ProjectTreeGenerator *)

Section Generator.

Variable fnmatch : str -> str -> bool.

(** [str.lower], as used in the sort key of [generate_tree]. *)
Variable str_lower : str -> str.

Record ProjectTreeGenerator : Type := {
  root_path : Path;
  gitignore_parser : option Gitignore.GitignoreParser;
  output : list str;
  file_contents : list str;
  indent : str;
  branch : str;
  last_branch : str;
  pipe : str
}.

Definition init (root_path : Path)
           (gitignore_parser : option Gitignore.GitignoreParser)
  : ProjectTreeGenerator :=
  {| root_path := root_path;
     gitignore_parser := gitignore_parser;
     output := [];
     file_contents := [];
     indent := u"    ";
     branch := [9500; 9472; 9472; 32]%N;
     last_branch := [9492; 9472; 9472; 32]%N;
     pipe := [9474; 32; 32; 32]%N |}.

Definition set_output (self : ProjectTreeGenerator) (o : list str) :=
  {| root_path := root_path self;
     gitignore_parser := gitignore_parser self;
     output := o;
     file_contents := file_contents self;
     indent := indent self; branch := branch self;
     last_branch := last_branch self; pipe := pipe self |}.

Definition set_file_contents (self : ProjectTreeGenerator)
           (c : list str) :=
  {| root_path := root_path self;
     gitignore_parser := gitignore_parser self;
     output := output self;
     file_contents := c;
     indent := indent self; branch := branch self;
     last_branch := last_branch self; pipe := pipe self |}.

Definition should_skip (self : ProjectTreeGenerator) (path : Path)
  : outcome bool :=
  if eqb (path_name path) (u".git") then Returns true
  else
    match gitignore_parser self with
    | Some parser =>
        match relative_to path (root_path self) with
        | Some rel =>
            if Gitignore.should_ignore fnmatch parser (path_str rel)
            then Returns true
            else Returns false
        | None => Raises ValueError
        end
    | None => Returns false
    end.

(** The key [(not x.is_dir(), x.name.lower())] and its order. *)
Definition sort_key (x : fsnode) : bool * str :=
  (negb (is_dir x), str_lower (node_name x)).

Fixpoint str_leb (a b : str) : bool :=
  match a, b with
  | [], _ => true
  | _ :: _, [] => false
  | x :: a', y :: b' =>
      if (x <? y)%N then true
      else if (x =? y)%N then str_leb a' b' else false
  end.

Definition key_leb (k1 k2 : bool * str) : bool :=
  match fst k1, fst k2 with
  | false, true => true
  | true, false => false
  | _, _ => str_leb (snd k1) (snd k2)
  end.

(** [sorted(..., key=...)]: the stable sort. *)
Fixpoint insert_by_key (x : fsnode) (l : list fsnode) : list fsnode :=
  match l with
  | [] => [x]
  | y :: l' =>
      if key_leb (sort_key x) (sort_key y) then x :: l
      else y :: insert_by_key x l'
  end.

Definition sorted (l : list fsnode) : list fsnode :=
  fold_right insert_by_key [] l.

(** [[e for e in entries if not self.should_skip(e)]], the entries
    being [directory / name]. *)
Fixpoint not_skipped (self : ProjectTreeGenerator) (directory : Path)
         (entries : list fsnode) : outcome (list fsnode) :=
  match entries with
  | [] => Returns []
  | e :: rest =>
      skip <- should_skip self (directory ++ [node_name e]) ;;
      rest' <- not_skipped self directory rest ;;
      Returns (if skip then rest' else e :: rest')
  end.

(** The [for] loop of [generate_tree] over the entries that are left;
    [recur] is [self.generate_tree]. *)
Fixpoint for_entries
         (recur : ProjectTreeGenerator -> Path -> fsnode -> str ->
                  outcome ProjectTreeGenerator)
         (directory : Path) (prefix : str) (entries : list fsnode)
         (self : ProjectTreeGenerator) : outcome ProjectTreeGenerator :=
  match entries with
  | [] => Returns self
  | entry :: rest =>
      let is_last_entry := match rest with [] => true | _ => false end in
      let current_prefix :=
        prefix ++ (if is_last_entry then last_branch self
                   else branch self) in
      let self :=
        set_output self
                   (output self ++ [current_prefix ++ node_name entry]) in
      let self :=
        match entry with
        | RegularFile name data =>
            set_file_contents self
              (file_contents self
                 ++ [format_file_content (directory ++ [name]) data])
        | _ => self
        end in
      self <-
        (if is_dir entry then
           let next_prefix :=
             prefix ++ (if is_last_entry then indent self
                        else pipe self) in
           recur self (directory ++ [node_name entry]) entry next_prefix
         else Returns self) ;;
      for_entries recur directory prefix rest self
  end.

(** [generate_tree(directory, prefix)]; [node] is what the file system
    holds at [directory].  [depth] bounds the nesting of the calls;
    [get_tree] starts above the height of the tree, so that the bound is
    never met. *)
Fixpoint generate_tree (depth : nat) (self : ProjectTreeGenerator)
         (directory : Path) (node : fsnode) (prefix : str)
  : outcome ProjectTreeGenerator :=
  match depth with
  | 0 => Raises RecursionError
  | S depth' =>
      match iterdir node with
      | None => Returns self
      | Some listed =>
          let entries := sorted listed in
          entries <- not_skipped self directory entries ;;
          for_entries (generate_tree depth') directory prefix entries self
      end
  end.

(** [get_tree()] on the tree [fs] found at [root_path]. *)
Definition get_tree (self : ProjectTreeGenerator) (fs : fsnode)
  : outcome (ProjectTreeGenerator * str) :=
  let self := set_output self [] in
  let self := set_file_contents self [] in
  self <- generate_tree (S (height fs)) self (root_path self) fs [] ;;
  let full_output :=
    [ nl ++ u"File Tree:";
      join nl (output self);
      nl ++ u"File Contents:";
      join [] (file_contents self) ] in
  Returns (self, join nl full_output).

End Generator.

(** The tree without its [.git] entries, at every depth. *)
Fixpoint prune_git (n : fsnode) : fsnode :=
  match n with
  | Dir name kids =>
      Dir name
          (filter (fun k => negb (eqb (node_name k) (u".git")))
                  (map prune_git kids))
  | _ => n
  end.

End TreeUtils.

(* ================================================================== *)
(** * cli.py: the command loop of CLI.run *)
(* ================================================================== *)

Module Cli.

Import Py.

(** The two slots of the session: [self.last_patch] and
    [self.last_rolled_back_patch], both [Optional[str]].  The loop tests
    them by truth value: a slot tracks a patch when it holds a non-empty
    handle. *)
Record CLI : Type := {
  last_patch : option str;
  last_rolled_back_patch : option str
}.

(** [CLI.__init__] *)
Definition init : CLI :=
  {| last_patch := None; last_rolled_back_patch := None |}.

Definition messages := list (str * str).

(** The calls the loop makes into its collaborators. *)
Inductive call : Type :=
| Input (prompt : str)
| NewFileSelector
| PickFiles
| SelectFiles
| SetContextFromSelector (files : list str)
| GetMessages (command : str)
| GetSystemPrompt
| SendPrompt (msgs : messages) (command : str) (system_prompt : str)
| GeneratePatch (response : str)
| ApplyPatch (patch_path : str)
| Rollback (patch_path : str).

Inductive event : Type :=
| Called (c : call)
| Printed (text : str).

(** What the collaborators answer during one iteration of the loop.
    Every one of them is called at most once per iteration. *)
Record world : Type := {
  input : outcome str;
  select_files : outcome (option (list str));
  set_context_from_selector : list str -> outcome unit;
  get_messages : str -> outcome messages;
  get_system_prompt : outcome str;
  send_prompt : messages -> str -> str -> outcome str;
  generate_patch : str -> outcome str;
  apply_patch : str -> outcome unit;
  rollback : str -> outcome unit
}.

(** ** State, exceptions and the event log *)

Definition M (A : Type) : Type := CLI -> outcome A * CLI * list event.

Definition ret {A} (a : A) : M A := fun self => (Returns a, self, []).

Definition bind {A B} (m : M A) (k : A -> M B) : M B :=
  fun self =>
    match m self with
    | (Returns a, self1, log1) =>
        match k a self1 with
        | (r, self2, log2) => (r, self2, log1 ++ log2)
        end
    | (Raises e, self1, log1) => (Raises e, self1, log1)
    end.

Local Notation "x <- m ;; k" := (bind m (fun x => k))
  (at level 61, m at next level, right associativity).
Local Notation "m ;; k" := (bind m (fun _ => k))
  (at level 61, right associativity).

Definition get : M CLI := fun self => (Returns self, self, []).

Definition set_last_patch (v : option str) : M unit :=
  fun self =>
    (Returns tt,
     {| last_patch := v;
        last_rolled_back_patch := last_rolled_back_patch self |}, []).

Definition set_last_rolled_back_patch (v : option str) : M unit :=
  fun self =>
    (Returns tt,
     {| last_patch := last_patch self; last_rolled_back_patch := v |}, []).

Definition print (text : str) : M unit :=
  fun self => (Returns tt, self, [Printed text]).

(** A call: it is logged, then returns or raises as the world says. *)
Definition do_call {A} (c : call) (answer : outcome A) : M A :=
  fun self => (answer, self, [Called c]).

(** [try: m  except Exception as e: h e] *)
Definition try_except_Exception {A} (m : M A) (h : exn -> M A) : M A :=
  fun self =>
    match m self with
    | (Raises e, self1, log1) =>
        if is_Exception e then
          match h e self1 with
          | (r, self2, log2) => (r, self2, log1 ++ log2)
          end
        else (Raises e, self1, log1)
    | done => done
    end.

Definition truthy_files (o : option (list str)) : bool :=
  match o with Some (_ :: _) => true | _ => false end.

Definition files_of (o : option (list str)) : list str :=
  match o with Some l => l | None => [] end.

(** ** One iteration *)

Inductive command_kind : Type := Exit | Select | Undo | Redo | Prompt.

(** The [if]/[elif] chain on [command.lower()]. *)
Definition classify (command : str) : command_kind :=
  if eqb (lower command) (u"exit") then Exit
  else if eqb (lower command) (u"select") then Select
  else if eqb (lower command) (u"undo") then Undo
  else if eqb (lower command) (u"redo") then Redo
  else Prompt.

(** How an iteration leaves the body of [while True]. *)
Inductive signal : Type := Break | Next.

Definition nl : str := [10%N].

(** The body of the outer [try]. *)
Definition body (w : world) : M signal :=
  raw <- do_call (Input (nl ++ u"Enter command or prompt: ")) (input w) ;;
  let command := strip raw in
  match classify command with
  | Exit => ret Break
  | Select =>
      selected_files <- do_call SelectFiles (select_files w) ;;
      (if truthy_files selected_files then
         let files := files_of selected_files in
         do_call (SetContextFromSelector files)
                 (set_context_from_selector w files) ;;
         print (u"Updated context with " ++ str_of_nat (length files)
                 ++ u" files.")
       else print (u"File selection cancelled or no files selected.")) ;;
      ret Next
  | Undo =>
      self <- get ;;
      (match last_patch self with
       | Some patch_path =>
           if truthy patch_path then
             try_except_Exception
               (do_call (Rollback patch_path) (rollback w patch_path) ;;
                print (u"Changes rolled back successfully.") ;;
                set_last_rolled_back_patch (Some patch_path) ;;
                set_last_patch None)
               (fun e =>
                  print (u"Error rolling back changes: " ++ exn_str e))
           else print (u"No changes to undo.")
       | None => print (u"No changes to undo.")
       end) ;;
      ret Next
  | Redo =>
      self <- get ;;
      (match last_rolled_back_patch self with
       | Some patch_path =>
           if truthy patch_path then
             try_except_Exception
               (do_call (ApplyPatch patch_path) (apply_patch w patch_path) ;;
                print (u"Changes reapplied successfully.") ;;
                set_last_patch (Some patch_path) ;;
                set_last_rolled_back_patch None)
               (fun e =>
                  print (u"Error reapplying changes: " ++ exn_str e))
           else print (u"No changes to redo.")
       | None => print (u"No changes to redo.")
       end) ;;
      ret Next
  | Prompt =>
      set_last_rolled_back_patch None ;;
      try_except_Exception
        (msgs <- do_call (GetMessages command) (get_messages w command) ;;
         system_prompt <- do_call GetSystemPrompt (get_system_prompt w) ;;
         response <-
           do_call (SendPrompt msgs command system_prompt)
                   (send_prompt w msgs command system_prompt) ;;
         patch_path <-
           do_call (GeneratePatch response) (generate_patch w response) ;;
         do_call (ApplyPatch patch_path) (apply_patch w patch_path) ;;
         set_last_patch (Some patch_path) ;;
         print (nl ++ u"Changes applied successfully."))
        (fun e => print (nl ++ u"Error: " ++ exn_str e)) ;;
      ret Next
  end.

(** The outer [try] with its two handlers, both ending in [continue]. *)
Definition iteration (w : world) : M signal :=
  fun self =>
    match body w self with
    | (Raises KeyboardInterrupt, self1, log1) =>
        (Returns Next, self1, log1 ++ [Printed (nl ++ u"Operation cancelled.")])
    | (Raises (Exception kind message), self1, log1) =>
        (Returns Next, self1, log1 ++ [Printed (u"Error: " ++ message)])
    | other => other
    end.

(** ** The session *)

(** How far [run] has got once the scripted worlds are used up. *)
Inductive status : Type :=
| Returned
| AwaitingInput.

(** [while True] over the iterations the worlds describe. *)
Fixpoint loop (ws : list world) : M status :=
  match ws with
  | [] => ret AwaitingInput
  | w :: rest =>
      s <- iteration w ;;
      match s with
      | Break => ret Returned
      | Next => loop rest
      end
  end.

(** The part of [run] before the loop: [FileSelector()], then, inside
    the [try], the selector's calls up to [curses.wrapper(selector.run)]
    and [set_context_from_selector]. *)
Record startup : Type := {
  new_selector : outcome unit;
  pick_files : outcome (option (list str));
  set_initial_context : list str -> outcome unit
}.

Definition run (sw : startup) (ws : list world) : M status :=
  print (nl ++ u"Starting diffdev...") ;;
  print (u"Select files to include in the context:") ;;
  do_call NewFileSelector (new_selector sw) ;;
  go <- try_except_Exception
          (selected_files <- do_call PickFiles (pick_files sw) ;;
           if negb (truthy_files selected_files) then
             print (u"No files selected. Exiting.") ;;
             ret false
           else
             let files := files_of selected_files in
             do_call (SetContextFromSelector files)
                     (set_initial_context sw files) ;;
             print (nl ++ u"Initialized context with "
                       ++ str_of_nat (length files) ++ u" files.") ;;
             print (u"Commands: 'exit' to quit, 'select' to choose files, 'undo' to rollback, 'redo' to reapply last undone patch") ;;
             ret true)
          (fun e =>
             print (u"Error in file selection: " ++ exn_str e) ;;
             ret false) ;;
  if go then loop ws else ret Returned.

(** The final slots, the log and the result of a computation. *)
Definition state_of {A} (r : outcome A * CLI * list event) : CLI :=
  snd (fst r).

Definition log_of {A} (r : outcome A * CLI * list event) : list event :=
  snd r.

Definition result_of {A} (r : outcome A * CLI * list event) : outcome A :=
  fst (fst r).

(** The patch-manager calls among the events. *)
Definition patch_calls (log : list event) : list call :=
  flat_map (fun ev =>
              match ev with
              | Called (Rollback p) => [Rollback p]
              | Called (ApplyPatch p) => [ApplyPatch p]
              | Called (GeneratePatch r) => [GeneratePatch r]
              | _ => []
              end) log.

End Cli.


(* ================================================================== *)
(** * clipboard.py and cli.py: copy_directory_contents *)
(* ================================================================== *)

Module Clipboard.

Import Py.
Import TreeUtils.

(** What the function asks of the file system: whether a path exists,
    what reading the file at a path gives, and what lies at a directory. *)
Record files : Type := {
  exists_ : Path -> bool;
  read_text : Path -> outcome str;
  tree_at : Path -> fsnode
}.

(** [path.parent]: the root of the file system and [.] are their own
    parents. *)
Definition parent (p : Path) : Path :=
  match p with
  | [] => []
  | [a] => if startswith a (u"/") then [a] else []
  | _ => removelast p
  end.

Definition path_eqb (p q : Path) : bool :=
  if list_eq_dec (list_eq_dec N.eq_dec) p q then true else false.

(** [(current / ".git").exists() or (current / ".gitignore").exists()] *)
Definition marked (fs : files) (current : Path) : bool :=
  exists_ fs (current ++ [u".git"]) || exists_ fs (current ++ [u".gitignore"]).

(** The [while current != current.parent] loop; [steps] bounds its
    iterations, and the length of the path is enough of them. *)
Fixpoint climb (fs : files) (steps : nat) (current : Path) : Path :=
  match steps with
  | 0 => current
  | S steps' =>
      if path_eqb current (parent current) then current
      else if marked fs current then current
      else climb fs steps' (parent current)
  end.

Definition find_root (fs : files) (target_path : Path) : Path :=
  climb fs (S (length target_path)) target_path.

(** What the function does to the outside. *)
Inductive event : Type :=
| Copied (text : str)
| Printed (text : str).

Definition Directory_not_found (target_path : Path) : exn :=
  Exception (OtherError (u"ValueError"))
            (u"Directory not found: " ++ path_str target_path).

Section WithLibrary.

Variable fnmatch : str -> str -> bool.
Variable str_lower : str -> str.

(** [pyperclip.copy] *)
Variable copy : str -> outcome unit.

(** [GitignoreParser(gitignore_path)] on the file system. *)
Definition new_parser (fs : files) (gitignore_path : Path)
  : outcome Gitignore.GitignoreParser :=
  if exists_ fs gitignore_path then
    match read_text fs gitignore_path with
    | Returns text => Returns (Gitignore.init (Some text))
    | Raises e => Raises e
    end
  else Returns (Gitignore.init None).

(** The body of the outer [try], from the resolved [target_path] on;
    [not_found] is what the function does when the target is missing. *)
Definition copy_body (not_found : exn) (fs : files) (target_path : Path)
  : outcome unit * list event :=
  if negb (exists_ fs target_path) then (Raises not_found, [])
  else
    let root_dir := find_root fs target_path in
    let gitignore_path := root_dir ++ [u".gitignore"] in
    match new_parser fs gitignore_path with
    | Raises e => (Raises e, [])
    | Returns gitignore_parser =>
        let generator := TreeUtils.init target_path (Some gitignore_parser) in
        match get_tree fnmatch str_lower generator (tree_at fs target_path)
        with
        | Raises e => (Raises e, [])
        | Returns (_, tree) =>
            match copy tree with
            | Returns _ => (Returns tt, [Copied tree])
            | Raises e =>
                if is_Exception e then (Returns tt, [Printed tree])
                else (Raises e, [])
            end
        end
    end.

(** clipboard.py: the missing target is a [ValueError], and the outer
    handler logs and raises again. *)
Definition copy_directory_contents (fs : files) (target_path : Path)
  : outcome unit * list event :=
  match copy_body (Directory_not_found target_path) fs target_path with
  | (Raises e, events) => (Raises e, events)
  | done => done
  end.

(** cli.py: the missing target is [sys.exit(1)], and so is the outer
    handler. *)
Definition copy_directory_contents_cli (fs : files) (target_path : Path)
  : outcome unit * list event :=
  match copy_body SystemExit fs target_path with
  | (Raises e, events) =>
      if is_Exception e then (Raises SystemExit, events)
      else (Raises e, events)
  | done => done
  end.

End WithLibrary.

End Clipboard.

(* ================================================================== *)
(** * Vocabulary of the statements *)
(* ================================================================== *)

Unset Implicit Arguments.

Section Vocabulary.

Import Py.

(** ** .gitignore *)

(** A line is blank when it holds nothing but white space. *)
Definition blank (line : str) : Prop :=
  Forall (fun c => isspace c = true) line.

(** What [load_patterns] keeps of a stripped line. *)
Definition kept (line : str) : bool :=
  truthy line && negb (startswith line (u"#")).

(** A file with a comment, a blank line and two patterns. *)
Definition sample_gitignore : str :=
  u"# build output" ++ [10%N] ++ u"   " ++ [10%N]
    ++ u"build/" ++ [10%N] ++ u"*.pyc" ++ [10%N].

(** ** The command loop *)

Import Cli.

(** The iteration reads a line whose stripped text is [command], which
    [classify] takes for [kind]. *)
Definition reads (w : world) (kind : command_kind) (command : str)
  : Prop :=
  exists raw, input w = Returns raw /\ command = strip raw
              /\ classify command = kind.

(** A free-text instruction succeeds end to end: the five calls of its
    [try] block all return, [generate_patch] giving [patch_path] for the
    model's [response]. *)
Definition instruction_succeeds (w : world) (command : str)
           (response patch_path : str) : Prop :=
  exists msgs system_prompt,
    get_messages w command = Returns msgs
    /\ get_system_prompt w = Returns system_prompt
    /\ send_prompt w msgs command system_prompt = Returns response
    /\ generate_patch w response = Returns patch_path
    /\ apply_patch w patch_path = Returns tt.

(** It fails when one of them raises. *)
Definition instruction_fails (w : world) (command : str) : Prop :=
  forall response patch_path,
    ~ instruction_succeeds w command response patch_path.

(** At most one of the two slots is filled. *)
Definition one_slot (self : CLI) : Prop :=
  last_patch self = None \/ last_rolled_back_patch self = None.

(** Both slots hold a patch, and it is the same one. *)
Definition same_patch (self : CLI) : bool :=
  match last_patch self, last_rolled_back_patch self with
  | Some p, Some q => eqb p q
  | _, _ => false
  end.

(** The first event of every iteration. *)
Definition ask : event :=
  Called (Input (Cli.nl ++ u"Enter command or prompt: ")).

Definition cancelled : event :=
  Printed (Cli.nl ++ u"Operation cancelled.").

(** [loop] goes on with the worlds [rest] after a first iteration that
    ended in [self'] with the events [log]. *)
Definition goes_on (w : world) (self self' : CLI) (log : list event)
  : Prop :=
  forall rest : list world,
    loop (w :: rest) self
    = (result_of (loop rest self'), state_of (loop rest self'),
       log ++ log_of (loop rest self')).

(** ** Sample worlds *)

(** The user types [line]; the patch manager answers [undone] to
    [rollback] and [applied] to [apply_patch]; the model call answers
    [model]; everything else returns. *)
Definition sample_world (line : str) (undone applied : outcome unit)
           (model : outcome str) : world :=
  {| input := Returns line;
     select_files := Returns None;
     set_context_from_selector := fun _ => Returns tt;
     get_messages := fun c => Returns [(u"user", c)];
     get_system_prompt := Returns (u"You write patches.");
     send_prompt := fun _ _ _ => model;
     generate_patch := fun _ => Returns (u"patch_2.diff");
     apply_patch := fun _ => applied;
     rollback := fun _ => undone |}.

Definition sample_startup : startup :=
  {| new_selector := Returns tt;
     pick_files := Returns (Some [u"a.py"]);
     set_initial_context := fun _ => Returns tt |}.

Definition applied_1 : CLI :=
  {| last_patch := Some (u"patch_1.diff");
     last_rolled_back_patch := None |}.

Definition rolled_back_1 : CLI :=
  {| last_patch := None;
     last_rolled_back_patch := Some (u"patch_1.diff") |}.

Definition network_down : exn :=
  Exception (OtherError (u"ConnectionError")) (u"network down").

Definition backup_missing : exn :=
  Exception BackupMissing (u"no backup for a.py").

(** ** Sample tree *)

Import TreeUtils.

(** A checkout with a [.git] directory, a [.git] file inside a
    submodule, an ignored [build] directory and two sources. *)
Definition sample_tree : fsnode :=
  Dir (u"repo")
      [ RegularFile (u"README") (Text (u"diffdev" ++ [10%N]));
        Dir (u".git")
            [ RegularFile (u"HEAD") (Text (u"ref: refs/heads/main"));
              Dir (u"objects") [RegularFile (u"pack") NotUtf8] ];
        Dir (u"build") [RegularFile (u"out.bin") NotUtf8];
        Dir (u"src")
            [ RegularFile (u"a.py") (Text (u"x = 1" ++ [10%N]));
              Dir (u"vendor") [RegularFile (u".git") (Text (u"gitdir"))] ]
      ].

Definition sample_generator : ProjectTreeGenerator :=
  TreeUtils.init [u"/"; u"repo"]
                 (Some (Gitignore.init (Some sample_gitignore))).

(** The [.git] directory of that checkout, taken as the root itself. *)
Definition git_directory : fsnode :=
  Dir (u".git")
      [ RegularFile (u"HEAD") (Text (u"ref: refs/heads/main" ++ [10%N]));
        Dir (u"hooks")
            [RegularFile (u"pre-commit") (Text (u"#!/bin/sh" ++ [10%N]))] ].

Definition git_directory_generator : ProjectTreeGenerator :=
  TreeUtils.init [u"/"; u"repo"; u".git"] None.

End Vocabulary.

(* ================================================================== *)
(** * Vocabulary of the further properties *)
(* ================================================================== *)

From Stdlib Require Import Permutation.
From Stdlib Require DecimalNat DecimalFacts.

Section MoreVocabulary.

Import Py.
Import Cli.

(** An iteration whose [input()] raises [e]: the terminal is closed
    ([EOFError]) or the user hits Ctrl-C at the prompt. *)
Definition failing_input (e : exn) : world :=
  {| input := Raises e;
     select_files := Returns None;
     set_context_from_selector := fun _ => Returns tt;
     get_messages := fun c => Returns [(u"user", c)];
     get_system_prompt := Returns (u"You write patches.");
     send_prompt := fun _ _ _ => Returns (u"diff");
     generate_patch := fun _ => Returns (u"patch_2.diff");
     apply_patch := fun _ => Returns tt;
     rollback := fun _ => Returns tt |}.

Definition EOFError : exn :=
  Exception (OtherError (u"EOFError")) (u"EOF when reading a line").

(** The file picker is left without a selection. *)
Definition cancelled_startup : startup :=
  {| new_selector := Returns tt;
     pick_files := Returns (Some []);
     set_initial_context := fun _ => Returns tt |}.

(** A slot of [self] holds the handle [p]. *)
Definition tracks (self : CLI) (p : str) : Prop :=
  last_patch self = Some p \/ last_rolled_back_patch self = Some p.

(** ** .gitignore *)

(** The pattern as [should_ignore] matches it: one trailing [/] is cut
    off. *)
Definition effective (pattern : str) : str :=
  if endswith pattern (u"/") then removelast pattern else pattern.

(** A file name holds no [/]. *)
Definition slash_free (name : str) : Prop := ~ In 47%N name.

(** ** The project tree *)

Import TreeUtils.

(** The settings of a generator, as opposed to what it has collected. *)
Definition same_settings (a b : ProjectTreeGenerator) : Prop :=
  root_path a = root_path b
  /\ gitignore_parser a = gitignore_parser b
  /\ indent a = indent b /\ branch a = branch b
  /\ last_branch a = last_branch b /\ pipe a = pipe b.

(** [should_skip] says of [path] that it is to be skipped. *)
Definition skipped (fnmatch : str -> str -> bool)
           (self : ProjectTreeGenerator) (path : Path) : bool :=
  match should_skip fnmatch self path with
  | Returns true => true
  | _ => false
  end.

(** The tree at [directory] without the entries [skip] marks, at every
    depth. *)
Fixpoint visible (skip : Path -> bool) (directory : Path) (n : fsnode)
  : fsnode :=
  match n with
  | Dir name kids =>
      Dir name
          (filter (fun k => negb (skip (directory ++ [node_name k])))
                  (map (fun k => visible skip (directory ++ [node_name k]) k)
                       kids))
  | _ => n
  end.

(** What a generator ignores: the verdict of its parser, and nothing
    without a parser. *)
Definition ignores (fnmatch : str -> str -> bool)
           (self : ProjectTreeGenerator) (path : str) : bool :=
  match gitignore_parser self with
  | Some parser => Gitignore.should_ignore fnmatch parser path
  | None => false
  end.

(** Two generators alike in all but their parsers, which ignore the
    same paths. *)
Definition alike (fnmatch : str -> str -> bool)
           (a b : ProjectTreeGenerator) : Prop :=
  root_path a = root_path b
  /\ output a = output b /\ file_contents a = file_contents b
  /\ indent a = indent b /\ branch a = branch b
  /\ last_branch a = last_branch b /\ pipe a = pipe b
  /\ forall path, ignores fnmatch a path = ignores fnmatch b path.

(** A checkout at [/repo] with a [.gitignore], asked about from
    [/repo/src/lib]; [/] has a [.gitignore] of its own. *)
Definition sample_files : Clipboard.files :=
  {| Clipboard.exists_ :=
       fun p =>
         existsb (Clipboard.path_eqb p)
                 [ [u"/"; u"repo"; u"src"; u"lib"];
                   [u"/"; u"repo"; u".git"];
                   [u"/"; u"repo"; u".gitignore"];
                   [u"/"; u".gitignore"] ];
     Clipboard.read_text := fun _ => Returns sample_gitignore;
     Clipboard.tree_at := fun _ => sample_tree |}.

(** What the tree [t] holds at the relative path [rel]. *)
Fixpoint found (t : fsnode) (rel : Path) {struct rel} : option fsnode :=
  match rel with
  | [] => Some t
  | name :: rest =>
      match iterdir t with
      | Some kids =>
          match find (fun k => eqb (node_name k) name) kids with
          | Some k => found k rest
          | None => None
          end
      | None => None
      end
  end.

(** The file system that holds the tree [t] at [place] and nothing else:
    a path exists when the tree has an entry there, a regular file reads
    as its text, and what lies at a directory is its subtree. *)
Definition on_disk (place : Path) (t : fsnode) : Clipboard.files :=
  let entry_at (p : Path) : option fsnode :=
    match relative_to p place with
    | Some rel => found t rel
    | None => None
    end in
  {| Clipboard.exists_ :=
       fun p => match entry_at p with Some _ => true | None => false end;
     Clipboard.read_text :=
       fun p =>
         match entry_at p with
         | Some (RegularFile _ (Text text)) => Returns text
         | _ => Raises (Exception (OtherError (u"OSError"))
                                  (u"cannot read " ++ path_str p))
         end;
     Clipboard.tree_at :=
       fun p =>
         match entry_at p with
         | Some n => n
         | None => Special (path_name p)
         end |}.

(** A checkout with its [.git], its [.gitignore] and a [build]
    directory holding [built]. *)
Definition checkout (built : list fsnode) : fsnode :=
  Dir (u"repo")
      [ Dir (u".git")
            [RegularFile (u"HEAD") (Text (u"ref: refs/heads/main"))];
        RegularFile (u".gitignore") (Text sample_gitignore);
        Dir (u"build") built;
        RegularFile (u"a.py") (Text (u"x = 1" ++ [10%N])) ].

(** A clipboard that is not there. *)
Definition no_clipboard (text : str) : outcome unit :=
  Raises (Exception (OtherError (u"PyperclipException"))
                    (u"no copy/paste mechanism")).

(** The entries under [n], found at [directory], that [skip] lets
    through: those marked are left out with all that lies under them. *)
Fixpoint listed_entries (skip : Path -> bool) (directory : Path)
         (n : fsnode) : nat :=
  match n with
  | Dir _ kids =>
      fold_right
        (fun k acc =>
           (if skip (directory ++ [node_name k]) then 0
            else S (listed_entries skip (directory ++ [node_name k]) k))
           + acc)
        0 kids
  | _ => 0
  end.

(** The regular files among them. *)
Fixpoint listed_files (skip : Path -> bool) (directory : Path)
         (n : fsnode) : nat :=
  match n with
  | Dir _ kids =>
      fold_right
        (fun k acc =>
           (if skip (directory ++ [node_name k]) then 0
            else (match k with RegularFile _ _ => 1 | _ => 0 end)
                 + listed_files skip (directory ++ [node_name k]) k)
           + acc)
        0 kids
  | _ => 0
  end.

(** ** The shape of the listing *)

(** The tree with the entries of every directory in the order of the
    key. *)
Fixpoint in_order (str_lower : str -> str) (n : fsnode) : fsnode :=
  match n with
  | Dir name kids =>
      Dir name (sorted str_lower (map (in_order str_lower) kids))
  | _ => n
  end.

(** The tree as the listing shows it: without the entries [skip] marks,
    the others in the order of the key. *)
Definition arranged (str_lower : str -> str) (skip : Path -> bool)
           (directory : Path) (n : fsnode) : fsnode :=
  in_order str_lower (visible skip directory n).

(** The lines for the entries [ks] of one directory, in the order given:
    for each entry its own line, then the lines [draw] gives for what
    lies under it. *)
Definition draw_entries (self : ProjectTreeGenerator)
           (draw : fsnode -> str -> list str) (prefix : str)
  : list fsnode -> list str :=
  fix go (ks : list fsnode) : list str :=
    match ks with
    | [] => []
    | k :: rest =>
        let is_last := match rest with [] => true | _ => false end in
        ((prefix ++ (if is_last then last_branch self else branch self))
           ++ node_name k)
          :: draw k (prefix ++ (if is_last then indent self else pipe self))
          ++ go rest
    end.

(** The lines for all that lies under [n], every entry in its place. *)
Fixpoint drawing (self : ProjectTreeGenerator) (n : fsnode) (prefix : str)
  : list str :=
  match n with
  | Dir _ kids => draw_entries self (drawing self) prefix kids
  | _ => []
  end.

(** The blocks of the regular files under [n], found at [directory],
    every entry in its place. *)
Fixpoint blocks (directory : Path) (n : fsnode) : list str :=
  match n with
  | Dir _ kids =>
      flat_map
        (fun k =>
           (match k with
            | RegularFile name data =>
                [format_file_content (directory ++ [name]) data]
            | _ => []
            end)
             ++ blocks (directory ++ [node_name k]) k)
        kids
  | _ => []
  end.

(** Every directory of the tree has its entries in the order of the key
    [(not is_dir, name.lower())], the sub-directories before the
    others. *)
Inductive ordered (str_lower : str -> str) : fsnode -> Prop :=
| ordered_leaf : forall n, iterdir n = None -> ordered str_lower n
| ordered_dir : forall name kids,
    StronglySorted
      (fun x y =>
         key_leb (sort_key str_lower x) (sort_key str_lower y) = true)
      kids ->
    (exists ds fs,
        kids = ds ++ fs
        /\ Forall (fun k => is_dir k = true) ds
        /\ Forall (fun k => is_dir k = false) fs) ->
    Forall (ordered str_lower) kids ->
    ordered str_lower (Dir name kids).

(** The entry [e] is found at [path] under [n], itself at [directory],
    and [skip] marks neither it nor a directory on the way to it. *)
Inductive reaches (skip : Path -> bool)
  : Path -> fsnode -> Path -> fsnode -> Prop :=
| reaches_entry : forall directory name kids k,
    In k kids ->
    skip (directory ++ [node_name k]) = false ->
    reaches skip directory (Dir name kids) (directory ++ [node_name k]) k
| reaches_below : forall directory name kids k path e,
    In k kids ->
    skip (directory ++ [node_name k]) = false ->
    reaches skip (directory ++ [node_name k]) k path e ->
    reaches skip directory (Dir name kids) path e.

(** The strings a line of the listing starts with, one for each
    level. *)
Definition drawn (self : ProjectTreeGenerator) (parts : list str) : Prop :=
  Forall (fun part =>
            In part [indent self; pipe self; branch self; last_branch self])
         parts.

(** The report on a root with nothing to show. *)
Definition empty_report : str :=
  TreeUtils.nl ++ u"File Tree:" ++ TreeUtils.nl ++ TreeUtils.nl
    ++ TreeUtils.nl ++ u"File Contents:" ++ TreeUtils.nl.

End MoreVocabulary.
(* ================================================================== *)
(** * Properties of GitignoreParser *)
(* ================================================================== *)

Section GitignoreFacts.

Import Py.

Lemma lstrip_blank (s : str) : blank s -> lstrip s = [].
Proof.
  induction 1 as [|c s Hc _ IH]; simpl; [reflexivity|].
  now rewrite Hc.
Qed.

Lemma strip_blank (s : str) : blank s -> strip s = [].
Proof.
  intros H. unfold strip, rstrip.
  rewrite (lstrip_blank _ H). reflexivity.
Qed.

Lemma lstrip_snoc (s : str) (c : N) :
  isspace c = false -> lstrip (s ++ [c]) = lstrip s ++ [c].
Proof.
  intros Hc. induction s as [|a s IH]; simpl.
  - now rewrite Hc.
  - destruct (isspace a); [exact IH | reflexivity].
Qed.

Lemma startswith_hash (s : str) :
  startswith s (u"#") = true <-> exists s', s = 35%N :: s'.
Proof.
  change (u"#") with [35%N]. destruct s as [|b s']; cbn [startswith].
  - split; [discriminate | intros [? ?]; discriminate].
  - rewrite andb_true_r. split.
    + intros H. apply N.eqb_eq in H. subst b. now exists s'.
    + intros [? E]. inversion E. reflexivity.
Qed.

Lemma strip_comment (line : str) :
  startswith line (u"#") = true ->
  startswith (strip line) (u"#") = true.
Proof.
  rewrite !startswith_hash. intros [s' ->].
  unfold strip, rstrip. simpl.
  rewrite lstrip_snoc by reflexivity.
  rewrite rev_app_distr. simpl. eauto.
Qed.

Lemma load_lines_filter (lines acc : list str) :
  Gitignore.load_lines lines acc = acc ++ filter kept (map strip lines).
Proof.
  revert acc.
  induction lines as [|l lines IH]; intros acc;
    cbn [Gitignore.load_lines map filter].
  - now rewrite app_nil_r.
  - fold (kept (strip l)). destruct (kept (strip l)).
    + rewrite IH, <- app_assoc. reflexivity.
    + apply IH.
Qed.

Lemma not_kept (line : str) :
  blank line \/ startswith line (u"#") = true -> kept (strip line) = false.
Proof.
  unfold kept. intros [H|H].
  - now rewrite (strip_blank _ H).
  - rewrite (strip_comment _ H). apply andb_false_r.
Qed.

(** C9.  Blank lines and lines starting with [#] are never patterns:
    every loaded pattern is a non-empty stripped line of the file that
    does not start with [#], and a blank or [#] line anywhere in the
    file leaves the loaded patterns as they are without it.  When the
    file does not exist no pattern is loaded, and with no pattern
    [should_ignore] is false for every path. *)
Theorem gitignore_skips_blank_and_comment_lines :
  (forall (f : Gitignore.gitignore_file) (p : str),
      In p (Gitignore.patterns (Gitignore.init f)) ->
      p <> [] /\ startswith p (u"#") = false /\
      exists text line,
        f = Some text /\ In line (readlines text) /\ p = strip line)
  /\ (forall (before after acc : list str) (line : str),
         blank line \/ startswith line (u"#") = true ->
         Gitignore.load_lines (before ++ line :: after) acc
         = Gitignore.load_lines (before ++ after) acc)
  /\ Gitignore.patterns (Gitignore.init None) = []
  /\ (forall (fnmatch : str -> str -> bool)
             (self : Gitignore.GitignoreParser) (path : str),
         Gitignore.patterns self = [] ->
         Gitignore.should_ignore fnmatch self path = false).
Proof.
  repeat split.
  - destruct f as [text|]; simpl in H; [|contradiction].
    rewrite load_lines_filter in H. simpl in H.
    apply filter_In in H. destruct H as [_ H]. unfold kept in H.
    apply andb_true_iff in H. destruct H as [H _].
    intros ->. discriminate.
  - destruct f as [text|]; simpl in H; [|contradiction].
    rewrite load_lines_filter in H. simpl in H.
    apply filter_In in H. destruct H as [_ H]. unfold kept in H.
    apply andb_true_iff in H. destruct H as [_ H].
    now apply negb_true_iff in H.
  - destruct f as [text|]; simpl in H; [|contradiction].
    rewrite load_lines_filter in H. simpl in H.
    apply filter_In in H. destruct H as [H _].
    apply in_map_iff in H. destruct H as [line [E Hin]].
    exists text, line. auto.
  - intros before after acc line H.
    rewrite !load_lines_filter, !map_app, !filter_app. simpl.
    now rewrite (not_kept _ H).
  - intros fnmatch self path E. unfold Gitignore.should_ignore.
    now rewrite E.
Qed.

Lemma gitignore_skips_blank_and_comment_lines_witness :
  Gitignore.patterns (Gitignore.init (Some sample_gitignore))
  = [u"build/"; u"*.pyc"]
  /\ (u"build/" <> [] /\ startswith (u"build/") (u"#") = false)
  /\ Gitignore.load_lines ([u"a"] ++ u"# c" :: [u"b"]) []
     = Gitignore.load_lines ([u"a"] ++ [u"b"]) []
  /\ Gitignore.should_ignore eqb (Gitignore.init None) (u"src/a.py")
     = false.
Proof.
  destruct gitignore_skips_blank_and_comment_lines
    as [Hin [Hline [Hnone Hempty]]].
  split; [reflexivity|]. split.
  - destruct (Hin (Some sample_gitignore) (u"build/")) as [A [B _]].
    + vm_compute. auto.
    + split; assumption.
  - split.
    + apply Hline. right. reflexivity.
    + apply Hempty. exact Hnone.
Defined.

End GitignoreFacts.

(* ================================================================== *)
(** * Properties of the command loop *)
(* ================================================================== *)

Section CommandLoop.

Import Py.
Import Cli.

Ltac cli_unfold :=
  unfold iteration, body, Cli.bind, do_call, get, ret, print,
    try_except_Exception, set_last_patch, set_last_rolled_back_patch,
    state_of, log_of, result_of in *.

Ltac cli_step :=
  cbn -[lit str_of_nat app strip classify] in *.

(** Case analysis on the answers of the world, in the order the source
    asks for them. *)
Ltac cli_world :=
  repeat (cli_step;
          match goal with
          | |- context [match input ?w with _ => _ end] =>
              destruct (input w) as [?|[| |? ?]] eqn:?
          | |- context [match classify ?c with _ => _ end] =>
              destruct (classify c) eqn:?
          | |- context [match select_files ?w with _ => _ end] =>
              destruct (select_files w) as [?|[| |? ?]] eqn:?
          | |- context [if truthy_files ?f then _ else _] =>
              destruct (truthy_files f) eqn:?
          | |- context [match set_context_from_selector ?w ?f with
                        | _ => _ end] =>
              destruct (set_context_from_selector w f)
                as [[]|[| |? ?]] eqn:?
          | |- context [match last_patch ?s with _ => _ end] =>
              destruct (last_patch s) eqn:?
          | |- context [match last_rolled_back_patch ?s with _ => _ end] =>
              destruct (last_rolled_back_patch s) eqn:?
          | |- context [if truthy ?p then _ else _] =>
              destruct (truthy p) eqn:?
          | |- context [match rollback ?w ?p with _ => _ end] =>
              destruct (rollback w p) as [[]|[| |? ?]] eqn:?
          | |- context [match get_messages ?w ?c with _ => _ end] =>
              destruct (get_messages w c) as [?|[| |? ?]] eqn:?
          | |- context [match get_system_prompt ?w with _ => _ end] =>
              destruct (get_system_prompt w) as [?|[| |? ?]] eqn:?
          | |- context [match send_prompt ?w ?m ?c ?y with _ => _ end] =>
              destruct (send_prompt w m c y) as [?|[| |? ?]] eqn:?
          | |- context [match generate_patch ?w ?r with _ => _ end] =>
              destruct (generate_patch w r) as [?|[| |? ?]] eqn:?
          | |- context [match apply_patch ?w ?p with _ => _ end] =>
              destruct (apply_patch w p) as [[]|[| |? ?]] eqn:?
          end);
  cli_step.

(** ** The iteration, command by command *)

Lemma iteration_undo_tracked (w : world) (self : CLI) (command p : str) :
  reads w Undo command ->
  last_patch self = Some p -> truthy p = true ->
  iteration w self =
    match rollback w p with
    | Returns _ =>
        (Returns Next,
         {| last_patch := None; last_rolled_back_patch := Some p |},
         [ask; Called (Rollback p);
          Printed (u"Changes rolled back successfully.")])
    | Raises (Exception kind message) =>
        (Returns Next, self,
         [ask; Called (Rollback p);
          Printed (u"Error rolling back changes: " ++ message)])
    | Raises KeyboardInterrupt =>
        (Returns Next, self,
         [ask; Called (Rollback p);
          Printed (Cli.nl ++ u"Operation cancelled.")])
    | Raises SystemExit =>
        (Raises SystemExit, self, [ask; Called (Rollback p)])
    end.
Proof.
  intros [raw [Hin [-> Hk]]] Hp Ht. cli_unfold.
  rewrite Hin. cli_step. rewrite Hk. cli_step. rewrite Hp, Ht.
  destruct (rollback w p) as [[]|[| |kind message]]; reflexivity.
Qed.

Lemma iteration_undo_untracked (w : world) (self : CLI) (command : str) :
  reads w Undo command ->
  truthy_opt (last_patch self) = false ->
  iteration w self =
    (Returns Next, self, [ask; Printed (u"No changes to undo.")]).
Proof.
  intros [raw [Hin [-> Hk]]] Ht. cli_unfold.
  rewrite Hin. cli_step. rewrite Hk. cli_step.
  destruct (last_patch self) as [p|]; [|reflexivity].
  simpl in Ht. rewrite Ht. reflexivity.
Qed.

Lemma iteration_redo_tracked (w : world) (self : CLI) (command p : str) :
  reads w Redo command ->
  last_rolled_back_patch self = Some p -> truthy p = true ->
  iteration w self =
    match apply_patch w p with
    | Returns _ =>
        (Returns Next,
         {| last_patch := Some p; last_rolled_back_patch := None |},
         [ask; Called (ApplyPatch p);
          Printed (u"Changes reapplied successfully.")])
    | Raises (Exception kind message) =>
        (Returns Next, self,
         [ask; Called (ApplyPatch p);
          Printed (u"Error reapplying changes: " ++ message)])
    | Raises KeyboardInterrupt =>
        (Returns Next, self,
         [ask; Called (ApplyPatch p);
          Printed (Cli.nl ++ u"Operation cancelled.")])
    | Raises SystemExit =>
        (Raises SystemExit, self, [ask; Called (ApplyPatch p)])
    end.
Proof.
  intros [raw [Hin [-> Hk]]] Hp Ht. cli_unfold.
  rewrite Hin. cli_step. rewrite Hk. cli_step. rewrite Hp, Ht.
  destruct (apply_patch w p) as [[]|[| |kind message]]; reflexivity.
Qed.

Lemma iteration_redo_untracked (w : world) (self : CLI) (command : str) :
  reads w Redo command ->
  truthy_opt (last_rolled_back_patch self) = false ->
  iteration w self =
    (Returns Next, self, [ask; Printed (u"No changes to redo.")]).
Proof.
  intros [raw [Hin [-> Hk]]] Ht. cli_unfold.
  rewrite Hin. cli_step. rewrite Hk. cli_step.
  destruct (last_rolled_back_patch self) as [p|]; [|reflexivity].
  simpl in Ht. rewrite Ht. reflexivity.
Qed.

(** The slots after a free-text instruction, whatever the calls do. *)
Lemma iteration_prompt_slots (w : world) (self : CLI) (command : str) :
  reads w Prompt command ->
  last_rolled_back_patch (state_of (iteration w self)) = None
  /\ (last_patch (state_of (iteration w self)) = last_patch self
      \/ exists response p,
           instruction_succeeds w command response p
           /\ last_patch (state_of (iteration w self)) = Some p).
Proof.
  intros [raw [Hin [-> Hk]]]. cli_unfold.
  rewrite Hin. cli_step. rewrite Hk. cli_step.
  destruct (get_messages w (strip raw)) as [msgs|e1] eqn:E1; cli_step.
  2:{ destruct e1; cli_step; auto. }
  destruct (get_system_prompt w) as [sp|e2] eqn:E2; cli_step.
  2:{ destruct e2; cli_step; auto. }
  destruct (send_prompt w msgs (strip raw) sp) as [resp|e3] eqn:E3;
    cli_step.
  2:{ destruct e3; cli_step; auto. }
  destruct (generate_patch w resp) as [p|e4] eqn:E4; cli_step.
  2:{ destruct e4; cli_step; auto. }
  destruct (apply_patch w p) as [[]|e5] eqn:E5; cli_step.
  2:{ destruct e5; cli_step; auto. }
  split; [reflexivity|]. right. exists resp, p. split; [|reflexivity].
  exists msgs, sp. auto.
Qed.


Lemma iteration_prompt_success (w : world) (self : CLI)
      (command response p : str) :
  reads w Prompt command ->
  instruction_succeeds w command response p ->
  state_of (iteration w self)
  = {| last_patch := Some p; last_rolled_back_patch := None |}
  /\ patch_calls (log_of (iteration w self))
     = [GeneratePatch response; ApplyPatch p]
  /\ result_of (iteration w self) = Returns Next.
Proof.
  intros [raw [Hin [-> Hk]]] [msgs [sp [H1 [H2 [H3 [H4 H5]]]]]].
  cli_unfold. rewrite Hin. cli_step. rewrite Hk. cli_step.
  rewrite H1. cli_step. rewrite H2. cli_step. rewrite H3. cli_step.
  rewrite H4. cli_step. rewrite H5. cli_step. auto.
Qed.

Lemma iteration_prompt_failure (w : world) (self : CLI) (command : str) :
  reads w Prompt command ->
  instruction_fails w command ->
  last_patch (state_of (iteration w self)) = last_patch self.
Proof.
  intros Hr Hf.
  destruct (iteration_prompt_slots w self _ Hr) as [_ [H|[r [p [Hs _]]]]].
  - exact H.
  - destruct (Hf r p Hs).
Qed.

Lemma iteration_exit (w : world) (self : CLI) (command : str) :
  reads w Exit command ->
  iteration w self = (Returns Break, self, [ask]).
Proof.
  intros [raw [Hin [-> Hk]]]. cli_unfold.
  rewrite Hin. cli_step. rewrite Hk. reflexivity.
Qed.

Lemma iteration_select_slots (w : world) (self : CLI) (command : str) :
  reads w Select command ->
  state_of (iteration w self) = self
  /\ patch_calls (log_of (iteration w self)) = [].
Proof.
  intros [raw [Hin [-> Hk]]]. cli_unfold.
  rewrite Hin. cli_step. rewrite Hk. cli_step.
  destruct (select_files w) as [files|e1]; cli_step.
  2:{ destruct e1; cli_step; auto. }
  destruct (truthy_files files); cli_step; auto.
  destruct (set_context_from_selector w (files_of files)) as [[]|e2];
    cli_step; auto.
  destruct e2; cli_step; auto.
Qed.

Lemma iteration_input_raises (w : world) (self : CLI) (e : exn) :
  input w = Raises e ->
  state_of (iteration w self) = self
  /\ patch_calls (log_of (iteration w self)) = [].
Proof.
  intros Hin. cli_unfold. rewrite Hin. destruct e; cli_step; auto.
Qed.

(** ** The loop *)

Lemma loop_next (w : world) (self self' : CLI) (log : list event) :
  iteration w self = (Returns Next, self', log) ->
  goes_on w self self' log.
Proof.
  intros H rest. cbn [loop]. unfold Cli.bind at 1. rewrite H.
  destruct (loop rest self') as [[r s] l]. reflexivity.
Qed.

Lemma iteration_one_slot (w : world) (self : CLI) :
  one_slot self -> one_slot (state_of (iteration w self)).
Proof.
  unfold one_slot. intros H.
  destruct (input w) as [raw|e] eqn:Hin.
  2:{ now rewrite (proj1 (iteration_input_raises w self e Hin)). }
  destruct (classify (strip raw)) eqn:Hk.
  - assert (Hr : reads w Exit (strip raw)) by (exists raw; auto).
    now rewrite (iteration_exit w self _ Hr).
  - assert (Hr : reads w Select (strip raw)) by (exists raw; auto).
    now rewrite (proj1 (iteration_select_slots w self _ Hr)).
  - assert (Hr : reads w Undo (strip raw)) by (exists raw; auto).
    destruct (truthy_opt (last_patch self)) eqn:Ht.
    + destruct (last_patch self) as [p|] eqn:Hp; [|discriminate].
      rewrite (iteration_undo_tracked w self _ p Hr Hp Ht).
      destruct (rollback w p) as [[]|[| |k m]]; cbn; auto;
        rewrite Hp; exact H.
    + rewrite (iteration_undo_untracked w self _ Hr Ht). exact H.
  - assert (Hr : reads w Redo (strip raw)) by (exists raw; auto).
    destruct (truthy_opt (last_rolled_back_patch self)) eqn:Ht.
    + destruct (last_rolled_back_patch self) as [p|] eqn:Hp;
        [|discriminate].
      rewrite (iteration_redo_tracked w self _ p Hr Hp Ht).
      destruct (apply_patch w p) as [[]|[| |k m]]; cbn; auto;
        rewrite Hp; exact H.
    + rewrite (iteration_redo_untracked w self _ Hr Ht). exact H.
  - assert (Hr : reads w Prompt (strip raw)) by (exists raw; auto).
    right. apply (iteration_prompt_slots w self _ Hr).
Qed.

Lemma loop_preserves (P : CLI -> Prop) :
  (forall w self, P self -> P (state_of (iteration w self))) ->
  forall ws self, P self -> P (state_of (loop ws self)).
Proof.
  intros Hstep. induction ws as [|w ws IH]; intros self HP.
  - exact HP.
  - cbn [loop]. unfold Cli.bind at 1.
    specialize (Hstep w self HP).
    destruct (iteration w self) as [[[s|e] self1] log1];
      unfold state_of in *; cbn in *.
    + destruct s.
      * exact Hstep.
      * specialize (IH self1 Hstep).
        destruct (loop ws self1) as [[r self2] log2]. exact IH.
    + exact Hstep.
Qed.

Lemma run_preserves (P : CLI -> Prop) :
  (forall w self, P self -> P (state_of (iteration w self))) ->
  forall sw ws self, P self -> P (state_of (run sw ws self)).
Proof.
  intros Hstep sw ws self HP.
  pose proof (loop_preserves P Hstep ws self HP) as HL.
  unfold run, Cli.bind, do_call, ret, print, try_except_Exception,
    state_of in *.
  cli_step.
  destruct (new_selector sw) as [[]|e0]; cli_step; [|exact HP].
  destruct (pick_files sw) as [files|e1]; cli_step.
  2:{ destruct e1; cli_step; exact HP. }
  destruct (truthy_files files); cli_step; [|exact HP].
  destruct (set_initial_context sw (files_of files)) as [[]|e2]; cli_step.
  2:{ destruct e2; cli_step; exact HP. }
  destruct (loop ws self) as [[r self2] log2]. exact HL.
Qed.


(** What an iteration can log about rollbacks, and what a body that
    raises has done to the slots. *)
Lemma rollback_only_on_last_patch (w : world) (self : CLI) (p : str) :
  In (Called (Rollback p)) (log_of (iteration w self)) ->
  last_patch self = Some p /\ truthy p = true.
Proof.
  cli_unfold. cli_world; intros H; cbn in H;
    repeat (destruct H as [H|H]; try discriminate H; try contradiction);
    inversion H; subst; auto.
Qed.

Lemma body_raises_slots (w : world) (self self' : CLI) (e : exn)
      (log : list event) :
  body w self = (Raises e, self', log) ->
  last_patch self' = last_patch self
  /\ (last_rolled_back_patch self' = last_rolled_back_patch self
      \/ last_rolled_back_patch self' = None).
Proof.
  cli_unfold. cli_world; intros H; inversion H; subst; cbn; auto.
Qed.


Lemma one_slot_not_same (self : CLI) : one_slot self -> same_patch self = false.
Proof.
  unfold one_slot, same_patch. intros [H|H]; rewrite H; [reflexivity|].
  destruct (last_patch self); reflexivity.
Qed.

Lemma reads_sample (line : str) (kind : command_kind)
      (undone applied : outcome unit) (model : outcome str) :
  classify (strip line) = kind ->
  reads (sample_world line undone applied model) kind (strip line).
Proof. intros H. exists line. auto. Qed.

(** ** The claims on the history slots *)

(** C1.  After every sequence of commands, whatever the collaborators
    answer, [last_patch] and [last_rolled_back_patch] never both hold a
    patch with the same identity. *)
Theorem slots_never_hold_the_same_patch :
  forall (sw : startup) (ws : list world),
    same_patch (state_of (run sw ws init)) = false.
Proof.
  intros sw ws. apply one_slot_not_same.
  apply (run_preserves one_slot iteration_one_slot).
  left. reflexivity.
Qed.

(** C2, as amended.  A free-text instruction clears
    [last_rolled_back_patch] before anything can fail: after the
    iteration the slot is empty whether the instruction succeeded or
    not, and when the instruction fails [last_patch] is what it was. *)
Theorem instruction_clears_rolled_back_first :
  forall (w : world) (self : CLI) (command : str),
    reads w Prompt command ->
    last_rolled_back_patch (state_of (iteration w self)) = None
    /\ (instruction_fails w command ->
        last_patch (state_of (iteration w self)) = last_patch self).
Proof.
  intros w self command Hr. split.
  - apply (iteration_prompt_slots w self command Hr).
  - apply iteration_prompt_failure. exact Hr.
Qed.

Lemma sample_instruction_fails :
  instruction_fails
    (sample_world (u"add a test") (Returns tt) (Returns tt)
                  (Raises network_down))
    (u"add a test").
Proof.
  intros response p [msgs [sp [_ [_ [H _]]]]]. discriminate H.
Qed.

Lemma instruction_clears_rolled_back_first_witness :
  last_rolled_back_patch
    (state_of (iteration (sample_world (u"add a test") (Returns tt)
                                       (Returns tt) (Raises network_down))
                         rolled_back_1)) = None
  /\ last_patch
       (state_of (iteration (sample_world (u"add a test") (Returns tt)
                                          (Returns tt) (Raises network_down))
                            applied_1)) = Some (u"patch_1.diff").
Proof.
  split.
  - apply (instruction_clears_rolled_back_first _ rolled_back_1
             (u"add a test")).
    apply (reads_sample (u"add a test")). reflexivity.
  - apply (instruction_clears_rolled_back_first _ applied_1
             (u"add a test")).
    + apply (reads_sample (u"add a test")). reflexivity.
    + exact sample_instruction_fails.
Defined.

(** C2, as stated, fails: the model call raises, the instruction has
    applied nothing, and the patch rolled back before it is gone from
    [last_rolled_back_patch]; a [redo] then finds nothing to redo. *)
Lemma failed_instruction_forgets_rolled_back_patch :
  reads (sample_world (u"add a test") (Returns tt) (Returns tt)
                      (Raises network_down)) Prompt (u"add a test")
  /\ instruction_fails
       (sample_world (u"add a test") (Returns tt) (Returns tt)
                     (Raises network_down)) (u"add a test")
  /\ state_of (iteration (sample_world (u"add a test") (Returns tt)
                                       (Returns tt) (Raises network_down))
                         rolled_back_1)
     = init
  /\ init <> rolled_back_1
  /\ log_of (loop [sample_world (u"add a test") (Returns tt) (Returns tt)
                                (Raises network_down);
                   sample_world (u"redo") (Returns tt) (Returns tt)
                                (Returns (u"diff"))]
                  rolled_back_1)
     = [ask; Called (GetMessages (u"add a test")); Called GetSystemPrompt;
        Called (SendPrompt [(u"user", u"add a test")] (u"add a test")
                           (u"You write patches."));
        Printed (Cli.nl ++ u"Error: network down");
        ask; Printed (u"No changes to redo.")].
Proof.
  split; [apply (reads_sample (u"add a test")); reflexivity|].
  split; [exact sample_instruction_fails|].
  split; [reflexivity|].
  split; [discriminate|reflexivity].
Qed.


(** C3, as amended.  An [Exception] of any kind raised by [rollback]
    during [undo], or by [apply_patch] during [redo], is printed, leaves
    both slots as they were, and the loop goes on with the next
    command: the loop tells no error kind from another, so
    [BackupMissing] and restore errors are recovered like parse and
    conflict errors. *)
Theorem undo_redo_errors_are_printed_and_recovered :
  forall (w : world) (self : CLI) (command p : str)
         (kind : error_kind) (message : str),
    (reads w Undo command ->
     last_patch self = Some p -> truthy p = true ->
     rollback w p = Raises (Exception kind message) ->
     iteration w self
     = (Returns Next, self,
        [ask; Called (Rollback p);
         Printed (u"Error rolling back changes: " ++ message)])
     /\ goes_on w self self
          [ask; Called (Rollback p);
           Printed (u"Error rolling back changes: " ++ message)])
    /\ (reads w Redo command ->
        last_rolled_back_patch self = Some p -> truthy p = true ->
        apply_patch w p = Raises (Exception kind message) ->
        iteration w self
        = (Returns Next, self,
           [ask; Called (ApplyPatch p);
            Printed (u"Error reapplying changes: " ++ message)])
        /\ goes_on w self self
             [ask; Called (ApplyPatch p);
              Printed (u"Error reapplying changes: " ++ message)]).
Proof.
  intros w self command p kind message. split; intros Hr Hp Ht He.
  - assert (E := iteration_undo_tracked w self command p Hr Hp Ht).
    rewrite He in E. split; [exact E | exact (loop_next _ _ _ _ E)].
  - assert (E := iteration_redo_tracked w self command p Hr Hp Ht).
    rewrite He in E. split; [exact E | exact (loop_next _ _ _ _ E)].
Qed.

Lemma undo_redo_errors_are_printed_and_recovered_witness :
  result_of (iteration (sample_world (u"undo") (Raises backup_missing)
                                     (Returns tt) (Returns (u"diff")))
                       applied_1) = Returns Next
  /\ state_of (iteration (sample_world (u"redo") (Returns tt)
                             (Raises (Exception RestoreWriteError
                                                (u"a.py: read-only")))
                             (Returns (u"diff")))
                         rolled_back_1) = rolled_back_1.
Proof.
  split.
  - rewrite (proj1 (proj1 (undo_redo_errors_are_printed_and_recovered
               (sample_world (u"undo") (Raises backup_missing)
                             (Returns tt) (Returns (u"diff")))
               applied_1 (u"undo") (u"patch_1.diff")
               BackupMissing (u"no backup for a.py"))
             (reads_sample (u"undo") Undo _ _ _ eq_refl)
             eq_refl eq_refl eq_refl)).
    reflexivity.
  - rewrite (proj1 (proj2 (undo_redo_errors_are_printed_and_recovered
               (sample_world (u"redo") (Returns tt)
                  (Raises (Exception RestoreWriteError
                                     (u"a.py: read-only")))
                  (Returns (u"diff")))
               rolled_back_1 (u"redo") (u"patch_1.diff")
               RestoreWriteError (u"a.py: read-only"))
             (reads_sample (u"redo") Redo _ _ _ eq_refl)
             eq_refl eq_refl eq_refl)).
    reflexivity.
Defined.

(** C3, as stated, fails: [rollback] raises [BackupMissing] during
    [undo]; the error is printed and the session goes on to read and
    carry out the next command. *)
Lemma backup_missing_does_not_end_the_session :
  reads (sample_world (u"undo") (Raises backup_missing) (Returns tt)
                      (Returns (u"diff"))) Undo (u"undo")
  /\ rollback (sample_world (u"undo") (Raises backup_missing) (Returns tt)
                            (Returns (u"diff"))) (u"patch_1.diff")
     = Raises (Exception BackupMissing (u"no backup for a.py"))
  /\ loop [sample_world (u"undo") (Raises backup_missing) (Returns tt)
                        (Returns (u"diff"));
           sample_world (u"undo") (Returns tt) (Returns tt)
                        (Returns (u"diff"))]
          applied_1
     = (Returns AwaitingInput, rolled_back_1,
        [ask; Called (Rollback (u"patch_1.diff"));
         Printed (u"Error rolling back changes: no backup for a.py");
         ask; Called (Rollback (u"patch_1.diff"));
         Printed (u"Changes rolled back successfully.")]).
Proof.
  split; [apply (reads_sample (u"undo")); reflexivity|].
  split; reflexivity.
Qed.

(** C4.  [rollback] is only ever called on the patch in [last_patch];
    an [undo] read while [last_patch] is empty prints that there is
    nothing to undo, calls no collaborator (so no file changes) and
    leaves both slots as they are. *)
Theorem undo_without_applied_patch_does_nothing :
  (forall (w : world) (self : CLI) (p : str),
      In (Called (Rollback p)) (log_of (iteration w self)) ->
      last_patch self = Some p /\ truthy p = true)
  /\ (forall (w : world) (self : CLI) (command : str),
         reads w Undo command ->
         truthy_opt (last_patch self) = false ->
         iteration w self
         = (Returns Next, self, [ask; Printed (u"No changes to undo.")])).
Proof.
  split.
  - exact rollback_only_on_last_patch.
  - exact iteration_undo_untracked.
Qed.

Lemma undo_without_applied_patch_does_nothing_witness :
  (last_patch applied_1 = Some (u"patch_1.diff")
   /\ truthy (u"patch_1.diff") = true)
  /\ iteration (sample_world (u"Undo ") (Returns tt) (Returns tt)
                             (Returns (u"diff"))) rolled_back_1
     = (Returns Next, rolled_back_1,
        [ask; Printed (u"No changes to undo.")]).
Proof.
  split.
  - apply (proj1 undo_without_applied_patch_does_nothing
             (sample_world (u"undo") (Returns tt) (Returns tt)
                           (Returns (u"diff")))).
    right. left. reflexivity.
  - apply (proj2 undo_without_applied_patch_does_nothing _ _ (u"Undo")).
    + apply (reads_sample (u"Undo ")). reflexivity.
    + reflexivity.
Defined.

(** C5.  An [undo] of the tracked patch whose [rollback] returns leaves
    [last_rolled_back_patch] holding exactly that patch and [last_patch]
    empty; when [rollback] raises, neither slot changes. *)
Theorem undo_moves_patch_to_rolled_back :
  forall (w : world) (self : CLI) (command p : str),
    reads w Undo command ->
    last_patch self = Some p -> truthy p = true ->
    (rollback w p = Returns tt ->
     state_of (iteration w self)
     = {| last_patch := None; last_rolled_back_patch := Some p |})
    /\ (forall e : exn,
           rollback w p = Raises e -> state_of (iteration w self) = self).
Proof.
  intros w self command p Hr Hp Ht.
  rewrite (iteration_undo_tracked w self command p Hr Hp Ht).
  split.
  - intros ->. reflexivity.
  - intros e ->. destruct e; reflexivity.
Qed.

Lemma undo_moves_patch_to_rolled_back_witness :
  state_of (iteration (sample_world (u"undo") (Returns tt) (Returns tt)
                                    (Returns (u"diff"))) applied_1)
  = rolled_back_1
  /\ state_of (iteration (sample_world (u"undo") (Raises KeyboardInterrupt)
                                       (Returns tt) (Returns (u"diff")))
                         applied_1)
     = applied_1.
Proof.
  split.
  - apply (proj1 (undo_moves_patch_to_rolled_back _ applied_1 (u"undo")
                    (u"patch_1.diff")
                    (reads_sample (u"undo") Undo _ _ _ eq_refl)
                    eq_refl eq_refl)).
    reflexivity.
  - apply (proj2 (undo_moves_patch_to_rolled_back _ applied_1 (u"undo")
                    (u"patch_1.diff")
                    (reads_sample (u"undo") Undo _ _ _ eq_refl)
                    eq_refl eq_refl) KeyboardInterrupt).
    reflexivity.
Defined.

(** C6.  An [undo] with a tracked applied patch makes exactly one call
    to the patch manager, [rollback] on that patch; a [redo] with a
    tracked rolled-back patch makes exactly one, [apply_patch] on that
    patch, and when it returns [last_patch] is that patch and
    [last_rolled_back_patch] is empty. *)
Theorem undo_redo_call_the_patch_manager_once :
  forall (w : world) (self : CLI) (command p : str),
    (reads w Undo command ->
     last_patch self = Some p -> truthy p = true ->
     patch_calls (log_of (iteration w self)) = [Rollback p])
    /\ (reads w Redo command ->
        last_rolled_back_patch self = Some p -> truthy p = true ->
        patch_calls (log_of (iteration w self)) = [ApplyPatch p]
        /\ (apply_patch w p = Returns tt ->
            state_of (iteration w self)
            = {| last_patch := Some p;
                 last_rolled_back_patch := None |})).
Proof.
  intros w self command p. split; intros Hr Hp Ht.
  - rewrite (iteration_undo_tracked w self command p Hr Hp Ht).
    destruct (rollback w p) as [[]|[| |k m]]; reflexivity.
  - rewrite (iteration_redo_tracked w self command p Hr Hp Ht).
    split.
    + destruct (apply_patch w p) as [[]|[| |k m]]; reflexivity.
    + intros ->. reflexivity.
Qed.

Lemma undo_redo_call_the_patch_manager_once_witness :
  patch_calls
    (log_of (iteration (sample_world (u"undo") (Returns tt) (Returns tt)
                                     (Returns (u"diff"))) applied_1))
  = [Rollback (u"patch_1.diff")]
  /\ patch_calls
       (log_of (iteration (sample_world (u"REDO") (Returns tt) (Returns tt)
                                        (Returns (u"diff"))) rolled_back_1))
     = [ApplyPatch (u"patch_1.diff")]
  /\ state_of (iteration (sample_world (u"REDO") (Returns tt) (Returns tt)
                                       (Returns (u"diff"))) rolled_back_1)
     = applied_1.
Proof.
  split; [|split].
  - apply (proj1 (undo_redo_call_the_patch_manager_once
                    _ applied_1 (u"undo") (u"patch_1.diff"))
                 (reads_sample (u"undo") Undo _ _ _ eq_refl)
                 eq_refl eq_refl).
  - apply (proj2 (undo_redo_call_the_patch_manager_once
                    _ rolled_back_1 (u"REDO") (u"patch_1.diff"))
                 (reads_sample (u"REDO") Redo _ _ _ eq_refl)
                 eq_refl eq_refl).
  - apply (proj2 (undo_redo_call_the_patch_manager_once
                    _ rolled_back_1 (u"REDO") (u"patch_1.diff"))
                 (reads_sample (u"REDO") Redo _ _ _ eq_refl)
                 eq_refl eq_refl).
    reflexivity.
Defined.


(** C7.  When a free-text instruction succeeds end to end, the handle
    [generate_patch] returned is the one passed to [apply_patch], these
    are the only two calls to the patch manager, and the handle is the
    new [last_patch]; when the instruction fails, [last_patch] is what
    it was. *)
Theorem instruction_handle_becomes_last_patch :
  forall (w : world) (self : CLI) (command : str),
    reads w Prompt command ->
    (forall response p : str,
        instruction_succeeds w command response p ->
        generate_patch w response = Returns p
        /\ patch_calls (log_of (iteration w self))
           = [GeneratePatch response; ApplyPatch p]
        /\ last_patch (state_of (iteration w self)) = Some p)
    /\ (instruction_fails w command ->
        last_patch (state_of (iteration w self)) = last_patch self).
Proof.
  intros w self command Hr. split.
  - intros response p Hs.
    destruct (iteration_prompt_success w self command response p Hr Hs)
      as [Hst [Hcalls _]].
    destruct Hs as [msgs [sp [_ [_ [_ [Hg _]]]]]].
    rewrite Hst. auto.
  - apply iteration_prompt_failure. exact Hr.
Qed.

Lemma sample_instruction_succeeds :
  instruction_succeeds
    (sample_world (u"add a test") (Returns tt) (Returns tt)
                  (Returns (u"diff")))
    (u"add a test") (u"diff") (u"patch_2.diff").
Proof.
  exists [(u"user", u"add a test")], (u"You write patches.").
  repeat split.
Qed.

Lemma instruction_handle_becomes_last_patch_witness :
  last_patch
    (state_of (iteration (sample_world (u"add a test") (Returns tt)
                                       (Returns tt) (Returns (u"diff")))
                         applied_1)) = Some (u"patch_2.diff")
  /\ last_patch
       (state_of (iteration (sample_world (u"add a test") (Returns tt)
                                          (Returns tt)
                                          (Raises network_down))
                            applied_1)) = Some (u"patch_1.diff").
Proof.
  split.
  - apply (proj1 (instruction_handle_becomes_last_patch
                    _ applied_1 (u"add a test")
                    (reads_sample (u"add a test") Prompt _ _ _ eq_refl))
                 (u"diff") (u"patch_2.diff")
                 sample_instruction_succeeds).
  - apply (proj2 (instruction_handle_becomes_last_patch
                    _ applied_1 (u"add a test")
                    (reads_sample (u"add a test") Prompt _ _ _ eq_refl))
                 sample_instruction_fails).
Defined.

(** C8.  A [KeyboardInterrupt] raised while a command is processed is
    caught by the loop's handler: the iteration ends with the slots as
    they were when the interrupt was raised, prints that the operation
    was cancelled, and the loop goes on with the next command.  The
    aborted iteration has not touched [last_patch]; what it may have
    done to [last_rolled_back_patch] before the interrupt is the
    clearing at the start of a free-text instruction. *)
Theorem keyboard_interrupt_aborts_one_iteration :
  forall (w : world) (self self' : CLI) (log : list event),
    body w self = (Raises KeyboardInterrupt, self', log) ->
    iteration w self = (Returns Next, self', log ++ [cancelled])
    /\ goes_on w self self' (log ++ [cancelled])
    /\ last_patch self' = last_patch self
    /\ (last_rolled_back_patch self' = last_rolled_back_patch self
        \/ last_rolled_back_patch self' = None).
Proof.
  intros w self self' log H.
  assert (E : iteration w self = (Returns Next, self', log ++ [cancelled]))
    by (unfold iteration; rewrite H; reflexivity).
  split; [exact E|]. split; [exact (loop_next _ _ _ _ E)|].
  exact (body_raises_slots w self self' _ log H).
Qed.

Lemma keyboard_interrupt_aborts_one_iteration_witness :
  iteration (sample_world (u"undo") (Raises KeyboardInterrupt)
                          (Returns tt) (Returns (u"diff"))) applied_1
  = (Returns Next, applied_1,
     [ask; Called (Rollback (u"patch_1.diff"))] ++ [cancelled]).
Proof.
  apply (keyboard_interrupt_aborts_one_iteration
           (sample_world (u"undo") (Raises KeyboardInterrupt)
                         (Returns tt) (Returns (u"diff")))
           applied_1 applied_1
           [ask; Called (Rollback (u"patch_1.diff"))]).
  reflexivity.
Defined.

(** A session: an instruction, its undo, its redo, then [exit]. *)
Example sample_session :
  run sample_startup
      [ sample_world (u"add a test") (Returns tt) (Returns tt)
                     (Returns (u"diff"));
        sample_world (u"undo") (Returns tt) (Returns tt) (Returns (u"diff"));
        sample_world (u"redo") (Returns tt) (Returns tt) (Returns (u"diff"));
        sample_world (u"exit") (Returns tt) (Returns tt) (Returns (u"diff")) ]
      init
  = (Returns Returned,
     {| last_patch := Some (u"patch_2.diff");
        last_rolled_back_patch := None |},
     log_of (run sample_startup [] init)
       ++ [ask; Called (GetMessages (u"add a test")); Called GetSystemPrompt;
           Called (SendPrompt [(u"user", u"add a test")] (u"add a test")
                              (u"You write patches."));
           Called (GeneratePatch (u"diff"));
           Called (ApplyPatch (u"patch_2.diff"));
           Printed (Cli.nl ++ u"Changes applied successfully.");
           ask; Called (Rollback (u"patch_2.diff"));
           Printed (u"Changes rolled back successfully.");
           ask; Called (ApplyPatch (u"patch_2.diff"));
           Printed (u"Changes reapplied successfully.");
           ask]).
Proof. reflexivity. Qed.

End CommandLoop.

(* ================================================================== *)
(** * Properties of ProjectTreeGenerator *)
(* ================================================================== *)

Section TreeFacts.

Import Py.
Import TreeUtils.

Variable fnmatch : str -> str -> bool.
Variable str_lower : str -> str.

Local Abbreviation key := (sort_key str_lower).
Local Abbreviation le :=
  (fun x y : fsnode => key_leb (key x) (key y) = true).
Local Abbreviation insert := (insert_by_key str_lower).
Local Abbreviation sort := (sorted str_lower).
Local Abbreviation not_git :=
  (fun k : fsnode => negb (eqb (node_name k) (u".git"))).

(** ** The order of the sort keys *)

Lemma str_leb_total (a b : str) :
  str_leb a b = true \/ str_leb b a = true.
Proof.
  revert b. induction a as [|x a IH]; intros [|y b]; simpl; auto.
  destruct (N.ltb_spec x y), (N.ltb_spec y x), (N.eqb_spec x y),
    (N.eqb_spec y x); auto; lia.
Qed.

Lemma str_leb_trans (a b c : str) :
  str_leb a b = true -> str_leb b c = true -> str_leb a c = true.
Proof.
  revert b c.
  induction a as [|x a IH]; intros [|y b] [|z c]; simpl; auto;
    try discriminate.
  destruct (N.ltb_spec x y), (N.ltb_spec y z), (N.ltb_spec x z),
    (N.eqb_spec x y), (N.eqb_spec y z), (N.eqb_spec x z);
    auto; try discriminate; try lia.
  apply IH.
Qed.

Lemma key_leb_total (j k : bool * str) :
  key_leb j k = true \/ key_leb k j = true.
Proof.
  destruct j as [[] a], k as [[] b]; unfold key_leb; simpl; auto;
    apply str_leb_total.
Qed.

Lemma key_leb_trans (i j k : bool * str) :
  key_leb i j = true -> key_leb j k = true -> key_leb i k = true.
Proof.
  destruct i as [[] a], j as [[] b], k as [[] c]; unfold key_leb; simpl;
    auto; try discriminate; apply str_leb_trans.
Qed.

(** ** The stable sort *)

Lemma insert_In (x e : fsnode) (l : list fsnode) :
  In e (insert x l) <-> e = x \/ In e l.
Proof.
  induction l as [|y l IH]; simpl.
  - intuition auto.
  - destruct (key_leb (key x) (key y)); simpl; [intuition auto|].
    rewrite IH. intuition auto.
Qed.

Lemma sorted_In (e : fsnode) (l : list fsnode) :
  In e (sort l) <-> In e l.
Proof.
  induction l as [|x l IH]; simpl; [reflexivity|].
  rewrite insert_In, IH. intuition auto.
Qed.

Lemma insert_sorted (x : fsnode) (l : list fsnode) :
  StronglySorted le l -> StronglySorted le (insert x l).
Proof.
  induction 1 as [|y l Hs IH Hy]; simpl.
  - constructor; constructor.
  - destruct (key_leb (key x) (key y)) eqn:E.
    + constructor; [constructor; assumption|].
      constructor; [exact E|].
      apply Forall_forall. intros z Hz.
      rewrite Forall_forall in Hy.
      exact (key_leb_trans _ _ _ E (Hy z Hz)).
    + constructor; [exact IH|].
      apply Forall_forall. intros z Hz.
      apply insert_In in Hz. destruct Hz as [->|Hz].
      * destruct (key_leb_total (key x) (key y)) as [H|H];
          [congruence | exact H].
      * rewrite Forall_forall in Hy. exact (Hy z Hz).
Qed.

Lemma sorted_sorted (l : list fsnode) : StronglySorted le (sort l).
Proof.
  induction l as [|x l IH]; simpl; [constructor|].
  apply insert_sorted. exact IH.
Qed.

Lemma insert_head (x : fsnode) (l : list fsnode) :
  Forall (le x) l -> insert x l = x :: l.
Proof.
  destruct 1 as [|y l Hy _]; simpl; [reflexivity|].
  now rewrite Hy.
Qed.

Lemma filter_insert (f : fsnode -> bool) (x : fsnode) (l : list fsnode) :
  StronglySorted le l ->
  filter f (insert x l)
  = if f x then insert x (filter f l) else filter f l.
Proof.
  induction 1 as [|y l Hs IH Hy]; simpl.
  - destruct (f x); reflexivity.
  - destruct (key_leb (key x) (key y)) eqn:E; simpl.
    + destruct (f x) eqn:Fx; [|reflexivity].
      destruct (f y) eqn:Fy; simpl.
      * now rewrite E.
      * symmetry. apply insert_head.
        apply Forall_forall. intros z Hz.
        apply filter_In in Hz. destruct Hz as [Hz _].
        rewrite Forall_forall in Hy.
        exact (key_leb_trans _ _ _ E (Hy z Hz)).
    + rewrite IH. destruct (f y) eqn:Fy, (f x) eqn:Fx; simpl;
        try rewrite E; reflexivity.
Qed.

Lemma sorted_filter (f : fsnode -> bool) (l : list fsnode) :
  sort (filter f l) = filter f (sort l).
Proof.
  induction l as [|x l IH]; simpl; [reflexivity|].
  rewrite filter_insert by apply sorted_sorted.
  destruct (f x); simpl; now rewrite IH.
Qed.


(** ** Pruning keeps names, kinds and sort keys *)

Lemma fsnode_induction (P : fsnode -> Prop) :
  (forall name data, P (RegularFile name data)) ->
  (forall name kids, Forall P kids -> P (Dir name kids)) ->
  (forall name, P (Unlistable name)) ->
  (forall name, P (Special name)) ->
  forall n, P n.
Proof.
  intros HF HD HU HS. fix IH 1. intros [name data|name kids|name|name].
  - apply HF.
  - apply HD. induction kids as [|k kids IHk]; constructor.
    + apply IH.
    + exact IHk.
  - apply HU.
  - apply HS.
Qed.

Lemma prune_name (n : fsnode) : node_name (prune_git n) = node_name n.
Proof. destruct n; reflexivity. Qed.

Lemma prune_is_dir (n : fsnode) : is_dir (prune_git n) = is_dir n.
Proof. destruct n; reflexivity. Qed.

Lemma prune_key (n : fsnode) : key (prune_git n) = key n.
Proof. unfold sort_key. now rewrite prune_name, prune_is_dir. Qed.

Lemma insert_prune (x : fsnode) (l : list fsnode) :
  insert (prune_git x) (map prune_git l) = map prune_git (insert x l).
Proof.
  induction l as [|y l IH]; simpl; [reflexivity|].
  rewrite !prune_key.
  destruct (key_leb (key x) (key y)); simpl; [reflexivity|].
  now rewrite IH.
Qed.

Lemma sorted_prune (l : list fsnode) :
  sort (map prune_git l) = map prune_git (sort l).
Proof.
  induction l as [|x l IH]; simpl; [reflexivity|].
  now rewrite IH, insert_prune.
Qed.

Lemma height_kid (name : str) (kids : list fsnode) (k : fsnode) :
  In k kids -> height k < height (Dir name kids).
Proof.
  simpl. induction kids as [|a kids IH]; simpl; [contradiction|].
  intros [->|H]; [lia|]. specialize (IH H). lia.
Qed.

Lemma height_prune (n : fsnode) : height (prune_git n) <= height n.
Proof.
  induction n as [name data|name kids IH|name|name]
    using fsnode_induction; simpl; auto.
  apply le_n_S.
  induction IH as [|k kids Hk _ IHkids]; simpl; [auto|].
  destruct (eqb (node_name (prune_git k)) (u".git")); simpl; lia.
Qed.

(** ** should_skip *)

Lemma eqb_eq (a b : str) : eqb a b = true <-> a = b.
Proof.
  unfold eqb. destruct (list_eq_dec N.eq_dec a b); split; auto.
  discriminate.
Qed.

Lemma path_name_entry (directory : Path) (name : str) :
  path_name (directory ++ [name]) = name.
Proof. unfold path_name. apply last_last. Qed.

Lemma should_skip_git (self : ProjectTreeGenerator) (path : Path) :
  path_name path = u".git" ->
  should_skip fnmatch self path = Returns true.
Proof.
  intros H. unfold should_skip. rewrite H. reflexivity.
Qed.

Lemma relative_to_under (root rel : Path) :
  relative_to (root ++ rel) root = Some rel.
Proof.
  induction root as [|a root IH]; simpl; [reflexivity|].
  rewrite (proj2 (eqb_eq a a) eq_refl). exact IH.
Qed.

Lemma should_skip_returns (self : ProjectTreeGenerator) (rel : Path) :
  exists b, should_skip fnmatch self (root_path self ++ rel) = Returns b.
Proof.
  unfold should_skip.
  destruct (eqb (path_name (root_path self ++ rel)) (u".git")); eauto.
  destruct (gitignore_parser self); eauto.
  rewrite relative_to_under.
  destruct (Gitignore.should_ignore fnmatch g (path_str rel)); eauto.
Qed.

Lemma not_skipped_returns (self : ProjectTreeGenerator) (rel : Path)
      (entries : list fsnode) :
  exists l,
    not_skipped fnmatch self (root_path self ++ rel) entries = Returns l.
Proof.
  induction entries as [|e entries [l IH]]; simpl; eauto.
  rewrite <- app_assoc.
  destruct (should_skip_returns self (rel ++ [node_name e])) as [b ->].
  simpl. rewrite IH. simpl. eauto.
Qed.

Lemma not_skipped_In (self : ProjectTreeGenerator) (directory : Path)
      (entries l : list fsnode) :
  not_skipped fnmatch self directory entries = Returns l ->
  forall e, In e l -> In e entries.
Proof.
  revert l. induction entries as [|x entries IH]; simpl; intros l H e He.
  - inversion H; subst. contradiction.
  - destruct (should_skip fnmatch self (directory ++ [node_name x]))
      as [b|]; simpl in H; [|discriminate].
    destruct (not_skipped fnmatch self directory entries) as [l'|];
      simpl in H; [|discriminate].
    inversion H; subst. destruct b.
    + right. now apply (IH l').
    + destruct He as [->|He]; [now left|]. right. now apply (IH l').
Qed.

(** The entries named [.git] are dropped whatever the parser says, so
    dropping them beforehand changes nothing. *)
Lemma not_skipped_prune (self : ProjectTreeGenerator) (directory : Path)
      (entries : list fsnode) :
  not_skipped fnmatch self directory
              (filter not_git (map prune_git entries))
  = bind (not_skipped fnmatch self directory entries)
         (fun l => Returns (map prune_git l)).
Proof.
  induction entries as [|e entries IH]; simpl; [reflexivity|].
  rewrite prune_name.
  destruct (eqb (node_name e) (u".git")) eqn:G; simpl.
  - rewrite should_skip_git
      by (rewrite path_name_entry; now apply eqb_eq).
    simpl. rewrite IH.
    destruct (not_skipped fnmatch self directory entries); reflexivity.
  - rewrite prune_name, IH.
    destruct (should_skip fnmatch self (directory ++ [node_name e]))
      as [[]|]; simpl; [| |reflexivity];
      destruct (not_skipped fnmatch self directory entries); reflexivity.
Qed.


(** ** The walk *)

Lemma for_entries_prune
      (recur : ProjectTreeGenerator -> Path -> fsnode -> str ->
               outcome ProjectTreeGenerator)
      (directory : Path) (prefix : str) :
  (forall s d n p, recur s d (prune_git n) p = recur s d n p) ->
  forall (entries : list fsnode) (self : ProjectTreeGenerator),
    for_entries recur directory prefix (map prune_git entries) self
    = for_entries recur directory prefix entries self.
Proof.
  intros Hrec. induction entries as [|e rest IH]; intros self;
    [reflexivity|].
  cbn [map for_entries].
  rewrite prune_name, prune_is_dir, Hrec.
  assert (E : match map prune_git rest with [] => true | _ => false end
              = match rest with [] => true | _ => false end)
    by (destruct rest; reflexivity).
  rewrite E.
  destruct e as [name data|name kids|name|name]; cbn [prune_git bind];
    match goal with
    | |- context [bind ?m _] => destruct m; cbn [bind]; auto
    end.
Qed.

(** The walk does not see what lies under an entry named [.git]. *)
Lemma generate_tree_prune (depth : nat) :
  forall (self : ProjectTreeGenerator) (directory : Path) (node : fsnode)
         (prefix : str),
    generate_tree fnmatch str_lower depth self directory
                  (prune_git node) prefix
    = generate_tree fnmatch str_lower depth self directory node prefix.
Proof.
  induction depth as [|depth IH]; intros self directory node prefix;
    [reflexivity|].
  destruct node as [name data|name kids|name|name]; try reflexivity.
  cbn [generate_tree prune_git iterdir].
  rewrite sorted_filter, sorted_prune, not_skipped_prune.
  destruct (not_skipped fnmatch self directory (sort kids)) as [l|e];
    cbn [bind]; [|reflexivity].
  apply for_entries_prune. exact IH.
Qed.

Lemma for_entries_ext
      (recur1 recur2 : ProjectTreeGenerator -> Path -> fsnode -> str ->
                       outcome ProjectTreeGenerator)
      (directory : Path) (prefix : str) (entries : list fsnode) :
  (forall e, In e entries ->
             forall s d p, recur1 s d e p = recur2 s d e p) ->
  forall self : ProjectTreeGenerator,
    for_entries recur1 directory prefix entries self
    = for_entries recur2 directory prefix entries self.
Proof.
  induction entries as [|e rest IH]; intros Hrec self; [reflexivity|].
  cbn [for_entries]. rewrite (Hrec e (or_introl eq_refl)).
  match goal with
  | |- bind ?m _ = bind ?m _ => destruct m; cbn [bind]; [|reflexivity]
  end.
  apply IH. intros e' He'. apply Hrec. now right.
Qed.

(** Any depth above the height of the tree gives the same walk. *)
Lemma generate_tree_depth (d1 : nat) :
  forall (d2 : nat) (node : fsnode),
    height node < d1 -> height node < d2 ->
    forall (self : ProjectTreeGenerator) (directory : Path) (prefix : str),
      generate_tree fnmatch str_lower d1 self directory node prefix
      = generate_tree fnmatch str_lower d2 self directory node prefix.
Proof.
  induction d1 as [|d1 IH]; intros d2 node H1 H2 self directory prefix;
    [lia|].
  destruct d2 as [|d2]; [lia|].
  destruct node as [name data|name kids|name|name]; try reflexivity.
  cbn [generate_tree iterdir].
  destruct (not_skipped fnmatch self directory (sort kids)) as [l|e] eqn:E;
    cbn [bind]; [|reflexivity].
  apply for_entries_ext. intros k Hk s d p.
  assert (Hin : In k kids)
    by (apply (sorted_In k kids); exact (not_skipped_In _ _ _ _ E k Hk)).
  pose proof (height_kid name kids k Hin).
  apply IH; lia.
Qed.

Lemma for_entries_returns
      (recur : ProjectTreeGenerator -> Path -> fsnode -> str ->
               outcome ProjectTreeGenerator)
      (prefix : str) (entries : list fsnode) :
  (forall e, In e entries ->
             forall s rel p,
             exists x, recur s (root_path s ++ rel) e p = Returns x
                       /\ root_path x = root_path s
                       /\ gitignore_parser x = gitignore_parser s) ->
  forall (self : ProjectTreeGenerator) (rel : Path),
  exists x,
    for_entries recur (root_path self ++ rel) prefix entries self
    = Returns x
    /\ root_path x = root_path self
    /\ gitignore_parser x = gitignore_parser self.
Proof.
  induction entries as [|e rest IH]; intros Hrec self rel.
  - exists self. auto.
  - cbn [for_entries].
    set (self1 := set_output self _).
    set (self2 := match e with
                  | RegularFile name data => set_file_contents self1 _
                  | _ => self1
                  end).
    assert (R2 : root_path self2 = root_path self
                 /\ gitignore_parser self2 = gitignore_parser self)
      by (destruct e; auto).
    destruct R2 as [Rr Rp].
    assert (Hcall : exists x,
               (if is_dir e
                then recur self2 (root_path self ++ rel ++ [node_name e]) e
                           (prefix ++ (if match rest with
                                           | [] => true | _ => false end
                                       then indent self2 else pipe self2))
                else Returns self2) = Returns x
               /\ root_path x = root_path self
               /\ gitignore_parser x = gitignore_parser self).
    { destruct (is_dir e).
      - rewrite <- Rr.
        destruct (Hrec e (or_introl eq_refl) self2 (rel ++ [node_name e])
                       (prefix ++ (if match rest with
                                       | [] => true | _ => false end
                                   then indent self2 else pipe self2)))
          as [x [Hx [Hr Hp]]].
        exists x. rewrite Hx. repeat split; congruence.
      - exists self2. auto. }
    destruct Hcall as [x [Hx [Hr Hp]]].
    rewrite <- app_assoc. rewrite Hx. cbn [bind].
    destruct (IH (fun e' He' => Hrec e' (or_intror He')) x rel)
      as [y [Hy [Hyr Hyp]]].
    rewrite Hr in Hy. exists y. rewrite Hy.
    repeat split; congruence.
Qed.

(** With a depth above the height of the tree the walk returns. *)
Lemma generate_tree_returns (depth : nat) :
  forall (node : fsnode), height node < depth ->
  forall (self : ProjectTreeGenerator) (rel : Path) (prefix : str),
  exists x,
    generate_tree fnmatch str_lower depth self (root_path self ++ rel)
                  node prefix = Returns x
    /\ root_path x = root_path self
    /\ gitignore_parser x = gitignore_parser self.
Proof.
  induction depth as [|depth IH]; intros node H self rel prefix; [lia|].
  destruct node as [name data|name kids|name|name];
    try solve [exists self; auto].
  cbn [generate_tree iterdir].
  destruct (not_skipped_returns self rel (sort kids)) as [l E].
  rewrite E. cbn [bind].
  apply for_entries_returns. intros k Hk s rel' p.
  assert (Hin : In k kids)
    by (apply (sorted_In k kids); exact (not_skipped_In _ _ _ _ E k Hk)).
  pose proof (height_kid name kids k Hin).
  apply IH. lia.
Qed.


Lemma get_tree_prune (self : ProjectTreeGenerator) (fs : fsnode) :
  exists self' text,
    get_tree fnmatch str_lower self fs = Returns (self', text)
    /\ get_tree fnmatch str_lower self (prune_git fs)
       = Returns (self', text).
Proof.
  unfold get_tree.
  set (self0 := set_file_contents (set_output self []) []).
  destruct (generate_tree_returns (S (height fs)) fs (Nat.lt_succ_diag_r _)
                                  self0 [] [])
    as [x [Hx _]].
  rewrite app_nil_r in Hx.
  assert (Hp : generate_tree fnmatch str_lower (S (height (prune_git fs)))
                             self0 (root_path self0) (prune_git fs) []
               = Returns x).
  { rewrite (generate_tree_depth (S (height (prune_git fs)))
                                 (S (height fs)) (prune_git fs)).
    - rewrite generate_tree_prune. exact Hx.
    - apply Nat.lt_succ_diag_r.
    - pose proof (height_prune fs). lia. }
  rewrite Hx, Hp. cbn [bind]. eauto.
Qed.

End TreeFacts.

(** C10, as amended.  Whatever the tree under the root and whatever the
    generator was built with (any loaded patterns, or no GitignoreParser
    at all): [should_skip] is true for every path named [.git], and
    [get_tree] returns exactly what it returns for the tree from which
    every entry named [.git] below the root, with all that lies under
    it, has been removed; neither the listing nor the file contents hold
    anything of them.  The root itself is not an entry: it is never
    passed to [should_skip]. *)
Theorem git_entries_never_reach_the_tree :
  forall (fnmatch : Py.str -> Py.str -> bool) (str_lower : Py.str -> Py.str)
         (self : TreeUtils.ProjectTreeGenerator),
    (forall directory : TreeUtils.Path,
        TreeUtils.should_skip fnmatch self (directory ++ [u".git"])
        = Py.Returns true)
    /\ (forall fs : TreeUtils.fsnode,
           exists self' text,
             TreeUtils.get_tree fnmatch str_lower self fs
             = Py.Returns (self', text)
             /\ TreeUtils.get_tree fnmatch str_lower self
                                   (TreeUtils.prune_git fs)
                = Py.Returns (self', text)).
Proof.
  intros fnmatch str_lower self. split.
  - intros directory. apply should_skip_git. apply path_name_entry.
  - intros fs. apply get_tree_prune.
Qed.

(** C10, as stated, fails: with the [.git] directory of a checkout as
    the root ([root_path] is [/repo/.git]), [get_tree] lists what the
    directory holds and adds the contents of its files; removing the
    entries named [.git] below the root changes nothing, for there are
    none. *)
Lemma git_directory_as_root_is_listed :
  TreeUtils.path_name (TreeUtils.root_path git_directory_generator)
  = u".git"
  /\ TreeUtils.prune_git git_directory = git_directory
  /\ match TreeUtils.get_tree Py.eqb Py.lower git_directory_generator
                              git_directory with
     | Py.Returns (g, text) =>
         TreeUtils.output g
         = [ TreeUtils.branch g ++ u"hooks";
             TreeUtils.pipe g ++ TreeUtils.last_branch g ++ u"pre-commit";
             TreeUtils.last_branch g ++ u"HEAD" ]
         /\ TreeUtils.file_contents g
            = [ TreeUtils.format_file_content
                  [u"/"; u"repo"; u".git"; u"hooks"; u"pre-commit"]
                  (TreeUtils.Text (u"#!/bin/sh" ++ [10%N]));
                TreeUtils.format_file_content
                  [u"/"; u"repo"; u".git"; u"HEAD"]
                  (TreeUtils.Text (u"ref: refs/heads/main" ++ [10%N])) ]
         /\ text
            = TreeUtils.nl ++ u"File Tree:" ++ TreeUtils.nl
              ++ Py.join TreeUtils.nl (TreeUtils.output g)
              ++ TreeUtils.nl ++ TreeUtils.nl ++ u"File Contents:"
              ++ TreeUtils.nl
              ++ Py.join [] (TreeUtils.file_contents g)
     | Py.Raises _ => False
     end.
Proof.
  split; [reflexivity|]. split; [reflexivity|].
  vm_compute. repeat split; reflexivity.
Qed.

(** The listing of the sample tree: [.git] is left out at both depths,
    [build] by the pattern [build/]. *)
Example sample_tree_listing :
  match TreeUtils.get_tree Py.eqb Py.lower sample_generator sample_tree with
  | Py.Returns (g, _) =>
      TreeUtils.output g
      = [ TreeUtils.branch g ++ u"src";
          TreeUtils.pipe g ++ TreeUtils.branch g ++ u"vendor";
          TreeUtils.pipe g ++ TreeUtils.last_branch g ++ u"a.py";
          TreeUtils.last_branch g ++ u"README" ]
      /\ length (TreeUtils.file_contents g) = 2
  | Py.Raises _ => False
  end.
Proof. vm_compute. split; reflexivity. Qed.

(* ================================================================== *)
(** * Further properties of GitignoreParser *)
(* ================================================================== *)

Section MoreGitignoreFacts.

Import Py.

(** ** Stripping *)

Lemma lstrip_head (s : str) (c : N) (t : str) :
  lstrip s = c :: t -> isspace c = false.
Proof.
  induction s as [|a s IH]; simpl; [discriminate|].
  destruct (isspace a) eqn:E; [exact IH|].
  intros H. inversion H; subst. exact E.
Qed.

Lemma lstrip_nil (s : str) : lstrip s = [] -> blank s.
Proof.
  induction s as [|a s IH]; simpl; intros H; [constructor|].
  destruct (isspace a) eqn:E; [|discriminate].
  constructor; [exact E | exact (IH H)].
Qed.

Lemma blank_of_rev (s : str) : blank (rev s) -> blank s.
Proof.
  unfold blank. rewrite !Forall_forall. intros H c Hin.
  apply H. apply in_rev. now rewrite rev_involutive.
Qed.

Lemma rstrip_head (c : N) (t : str) :
  isspace c = false -> rstrip (c :: t) = c :: rstrip t.
Proof.
  intros Hc. unfold rstrip. simpl.
  rewrite lstrip_snoc by exact Hc.
  rewrite rev_app_distr. reflexivity.
Qed.

Lemma strip_nil (s : str) : strip s = [] <-> blank s.
Proof.
  split; [|apply strip_blank].
  unfold strip. intros H.
  destruct (lstrip s) as [|c t] eqn:E; [exact (lstrip_nil s E)|].
  rewrite (rstrip_head c t (lstrip_head s c t E)) in H. discriminate H.
Qed.

Lemma strip_head (s : str) (c : N) (t : str) :
  strip s = c :: t -> exists t', lstrip s = c :: t'.
Proof.
  unfold strip. intros H.
  destruct (lstrip s) as [|a t'] eqn:E; [discriminate H|].
  rewrite (rstrip_head a t' (lstrip_head s a t' E)) in H.
  inversion H; subst. eauto.
Qed.

Lemma rstrip_last (s : str) (c : N) (t : str) :
  rstrip s = t ++ [c] -> isspace c = false.
Proof.
  unfold rstrip. intros H.
  apply (f_equal (@rev N)) in H.
  rewrite rev_involutive, rev_app_distr in H. simpl in H.
  exact (lstrip_head _ _ _ H).
Qed.

Lemma strip_hash (line : str) :
  startswith (strip line) (u"#") = startswith (lstrip line) (u"#").
Proof.
  unfold strip. destruct (lstrip line) as [|c t] eqn:E; [reflexivity|].
  rewrite (rstrip_head c t (lstrip_head line c t E)). reflexivity.
Qed.

(** ** Loading *)

(** X1.  [load_patterns] appends to the patterns it is given, in the
    order of the file and with repetitions, the stripped text of every
    line that is neither empty after stripping nor starting with [#];
    a missing file appends nothing. *)
Theorem load_patterns_appends_the_kept_lines :
  forall (f : Gitignore.gitignore_file) (acc : list str),
    Gitignore.load_patterns f acc
    = acc ++ match f with
             | None => []
             | Some text => filter kept (map strip (readlines text))
             end.
Proof.
  intros [text|] acc; simpl.
  - apply load_lines_filter.
  - now rewrite app_nil_r.
Qed.

(** X2.  No loaded pattern begins or ends with white space: the
    indentation and the line end of the file never reach [fnmatch]. *)
Theorem patterns_are_trimmed :
  forall (f : Gitignore.gitignore_file) (p : str),
    In p (Gitignore.patterns (Gitignore.init f)) ->
    (forall c t, p = c :: t -> isspace c = false)
    /\ (forall c t, p = t ++ [c] -> isspace c = false).
Proof.
  intros [text|] p H; simpl in H; [|contradiction].
  rewrite load_lines_filter in H. simpl in H.
  apply filter_In in H. destruct H as [H _].
  apply in_map_iff in H. destruct H as [line [<- _]]. split.
  - intros c t E. destruct (strip_head line c t E) as [t' E'].
    exact (lstrip_head line c t' E').
  - intros c t E. unfold strip in E. exact (rstrip_last _ c t E).
Qed.

Lemma patterns_are_trimmed_witness :
  isspace 98%N = false.
Proof.
  apply (proj1 (patterns_are_trimmed
                  (Some (u"  build/  " ++ [13%N; 10%N])) (u"build/")
                  (or_introl eq_refl))
               98%N (u"uild/") eq_refl).
Defined.

(** X3.  A line is left out exactly when it is blank or its first
    character after the leading white space is [#]: an indented comment
    is a comment too, and every other line gives a pattern. *)
Theorem dropped_lines :
  forall (line : str) (acc : list str),
    Gitignore.load_lines [line] acc = acc
    <-> blank line \/ startswith (lstrip line) (u"#") = true.
Proof.
  intros line acc. rewrite load_lines_filter.
  cbn [map filter]. rewrite <- strip_hash, <- strip_nil.
  unfold kept.
  destruct (strip line) as [|c t] eqn:E.
  - simpl. rewrite app_nil_r. intuition auto.
  - cbn [truthy andb].
    destruct (startswith (c :: t) (u"#")); cbn [negb app].
    + rewrite app_nil_r. intuition auto.
    + split.
      * intros H. apply (f_equal (@length str)) in H.
        rewrite length_app in H. simpl in H. lia.
      * intros [H|H]; discriminate H.
Qed.


(** ** Matching *)

Section Matching.

Variable fnmatch : str -> str -> bool.

Lemma should_ignore_loop_exists (ps : list str) (path : str) :
  Gitignore.should_ignore_loop fnmatch ps path = true
  <-> exists p,
        In p ps
        /\ (fnmatch path (effective p) = true
            \/ fnmatch (Gitignore.basename path) (effective p) = true).
Proof.
  induction ps as [|q ps IH]; cbn [Gitignore.should_ignore_loop].
  - split; [discriminate | intros [p [[] _]]].
  - change (if endswith q (u"/") then removelast q else q)
      with (effective q).
    destruct (fnmatch path (effective q)
              || fnmatch (Gitignore.basename path) (effective q)) eqn:E.
    + split; [|reflexivity]. intros _. exists q.
      split; [left; reflexivity|]. now apply orb_true_iff.
    + rewrite IH. apply orb_false_iff in E. destruct E as [E1 E2].
      split.
      * intros [p [Hin Hm]]. exists p. split; [right; exact Hin | exact Hm].
      * intros [p [[->|Hin] Hm]].
        -- destruct Hm; congruence.
        -- exists p. auto.
Qed.

(** X4.  [should_ignore] is true exactly when some loaded pattern, one
    trailing [/] cut off, matches the path or its last component; so a
    pattern once loaded can only add to what is ignored, and no pattern
    brings a path back. *)
Theorem should_ignore_iff_some_pattern_matches :
  forall (self : Gitignore.GitignoreParser) (path : str),
    Gitignore.should_ignore fnmatch self path = true
    <-> exists p,
          In p (Gitignore.patterns self)
          /\ (fnmatch path (effective p) = true
              \/ fnmatch (Gitignore.basename path) (effective p) = true).
Proof.
  intros self path. apply should_ignore_loop_exists.
Qed.

Lemma endswith_slash (p : str) : endswith (p ++ u"/") (u"/") = true.
Proof.
  unfold endswith. change (u"/") with [47%N].
  rewrite rev_app_distr. reflexivity.
Qed.

(** X5.  A trailing [/] on a pattern changes nothing: [build/] ignores
    what [build] ignores, regular files of that name included. *)
Theorem trailing_slash_changes_nothing :
  forall (p : str) (rest : list str) (path : str),
    endswith p (u"/") = false ->
    Gitignore.should_ignore_loop fnmatch ((p ++ u"/") :: rest) path
    = Gitignore.should_ignore_loop fnmatch (p :: rest) path.
Proof.
  intros p rest path H. cbn [Gitignore.should_ignore_loop].
  rewrite endswith_slash, H.
  change (u"/") with [47%N]. now rewrite removelast_last.
Qed.

End Matching.

Lemma trailing_slash_changes_nothing_witness :
  Gitignore.should_ignore_loop eqb [u"build" ++ u"/"] (u"src/build")
  = Gitignore.should_ignore_loop eqb [u"build"] (u"src/build").
Proof.
  apply (trailing_slash_changes_nothing eqb (u"build") [] (u"src/build")).
  reflexivity.
Defined.

(** ** Last components *)

Lemma basename_from_slash_free (cur name : str) :
  slash_free name ->
  Gitignore.basename_from cur name = rev cur ++ name.
Proof.
  revert cur. induction name as [|c name IH]; intros cur H; simpl.
  - now rewrite app_nil_r.
  - destruct (N.eqb_spec c 47) as [->|Hc].
    + destruct H. left. reflexivity.
    + rewrite IH by (intros Hin; apply H; right; exact Hin).
      simpl. now rewrite <- app_assoc.
Qed.

Lemma basename_from_after_slash (cur before name : str) :
  Gitignore.basename_from cur (before ++ 47%N :: name)
  = Gitignore.basename_from [] name.
Proof.
  revert cur. induction before as [|c before IH]; intros cur; simpl.
  - reflexivity.
  - destruct (c =? 47)%N; apply IH.
Qed.

Lemma join_snoc (sep : str) (xs : list str) (x y : str) :
  join sep ((x :: xs) ++ [y]) = join sep (x :: xs) ++ sep ++ y.
Proof.
  revert x. induction xs as [|z xs IH]; intros x.
  - reflexivity.
  - change (join sep ((x :: z :: xs) ++ [y]))
      with (x ++ sep ++ join sep ((z :: xs) ++ [y])).
    rewrite IH.
    change (join sep (x :: z :: xs)) with (x ++ sep ++ join sep (z :: xs)).
    now rewrite <- !app_assoc.
Qed.

Lemma startswith_slash_free (a : str) :
  slash_free a -> startswith a (u"/") = false.
Proof.
  change (u"/") with [47%N]. destruct a as [|c a]; cbn [startswith].
  - reflexivity.
  - intros H. destruct (N.eqb_spec 47 c) as [<-|Hc]; [|reflexivity].
    destruct H. left. reflexivity.
Qed.

Lemma basename_of_entry (rel : list str) (name : str) :
  Forall slash_free rel -> slash_free name ->
  Gitignore.basename (TreeUtils.path_str (rel ++ [name])) = name.
Proof.
  intros Hrel Hname. unfold Gitignore.basename.
  destruct rel as [|a rel].
  - cbn [app TreeUtils.path_str].
    rewrite (startswith_slash_free name Hname). cbn [join].
    now rewrite basename_from_slash_free.
  - cbn [app TreeUtils.path_str].
    rewrite (startswith_slash_free a (Forall_inv Hrel)).
    change (a :: rel ++ [name]) with ((a :: rel) ++ [name]).
    rewrite join_snoc. change (u"/") with [47%N].
    change ([47%N] ++ name) with (47%N :: name).
    rewrite basename_from_after_slash.
    now rewrite basename_from_slash_free.
Qed.

End MoreGitignoreFacts.

(* ================================================================== *)
(** * Further properties of the command loop *)
(* ================================================================== *)

Section MoreCommandLoop.

Import Py.
Import Cli.

Ltac cli_unfold :=
  unfold iteration, body, Cli.bind, do_call, get, ret, print,
    try_except_Exception, set_last_patch, set_last_rolled_back_patch,
    state_of, log_of, result_of in *.

Ltac cli_step :=
  cbn -[lit str_of_nat app strip classify] in *.

Ltac cli_world :=
  repeat (cli_step;
          match goal with
          | |- context [match input ?w with _ => _ end] =>
              destruct (input w) as [?|[| |? ?]] eqn:?
          | |- context [match classify ?c with _ => _ end] =>
              destruct (classify c) eqn:?
          | |- context [match select_files ?w with _ => _ end] =>
              destruct (select_files w) as [?|[| |? ?]] eqn:?
          | |- context [if truthy_files ?f then _ else _] =>
              destruct (truthy_files f) eqn:?
          | |- context [match set_context_from_selector ?w ?f with
                        | _ => _ end] =>
              destruct (set_context_from_selector w f)
                as [[]|[| |? ?]] eqn:?
          | |- context [match last_patch ?s with _ => _ end] =>
              destruct (last_patch s) eqn:?
          | |- context [match last_rolled_back_patch ?s with _ => _ end] =>
              destruct (last_rolled_back_patch s) eqn:?
          | |- context [if truthy ?p then _ else _] =>
              destruct (truthy p) eqn:?
          | |- context [match rollback ?w ?p with _ => _ end] =>
              destruct (rollback w p) as [[]|[| |? ?]] eqn:?
          | |- context [match get_messages ?w ?c with _ => _ end] =>
              destruct (get_messages w c) as [?|[| |? ?]] eqn:?
          | |- context [match get_system_prompt ?w with _ => _ end] =>
              destruct (get_system_prompt w) as [?|[| |? ?]] eqn:?
          | |- context [match send_prompt ?w ?m ?c ?y with _ => _ end] =>
              destruct (send_prompt w m c y) as [?|[| |? ?]] eqn:?
          | |- context [match generate_patch ?w ?r with _ => _ end] =>
              destruct (generate_patch w r) as [?|[| |? ?]] eqn:?
          | |- context [match apply_patch ?w ?p with _ => _ end] =>
              destruct (apply_patch w p) as [[]|[| |? ?]] eqn:?
          end);
  cli_step.

(** ** Two iterations in a row *)

Lemma loop_two (w1 w2 : world) (self self1 self2 : CLI)
      (log1 log2 : list event) :
  iteration w1 self = (Returns Next, self1, log1) ->
  iteration w2 self1 = (Returns Next, self2, log2) ->
  loop [w1; w2] self = (Returns AwaitingInput, self2, log1 ++ log2).
Proof.
  intros H1 H2. cbn [loop]. unfold Cli.bind, ret. rewrite H1, H2.
  now rewrite app_nil_r.
Qed.

Lemma patch_calls_app (l1 l2 : list event) :
  patch_calls (l1 ++ l2) = patch_calls l1 ++ patch_calls l2.
Proof. unfold patch_calls. apply flat_map_app. Qed.

(** X6.  At most one of [last_patch] and [last_rolled_back_patch] is
    filled, after every sequence of commands: the session never has a
    patch to undo and a patch to redo at the same time. *)
Theorem at_most_one_slot_is_filled :
  forall (sw : startup) (ws : list world),
    one_slot (state_of (run sw ws init)).
Proof.
  intros sw ws. apply (run_preserves one_slot iteration_one_slot).
  left. reflexivity.
Qed.

(** X7.  A line of white space only, the empty line included, is not
    skipped: it is taken for a free-text instruction with the empty
    text, so it clears [last_rolled_back_patch] and asks the context
    manager for the messages of the empty command. *)
Theorem blank_line_is_an_instruction :
  forall (w : world) (self : CLI) (raw : str),
    input w = Returns raw -> blank raw ->
    reads w Prompt []
    /\ last_rolled_back_patch (state_of (iteration w self)) = None
    /\ In (Called (GetMessages [])) (log_of (iteration w self)).
Proof.
  intros w self raw Hin Hb.
  assert (Hs : strip raw = []) by (apply strip_blank; exact Hb).
  assert (Hr : reads w Prompt [])
    by (exists raw; rewrite Hs; repeat split; auto).
  split; [exact Hr|]. split.
  - apply (iteration_prompt_slots w self [] Hr).
  - cli_unfold. rewrite Hin. cli_step. rewrite Hs.
    change (classify []) with Prompt.
    cli_world; cbn; auto.
Qed.

Lemma blank_line_is_an_instruction_witness :
  last_rolled_back_patch
    (state_of (iteration (sample_world (u"   ") (Returns tt) (Returns tt)
                                       (Raises network_down))
                         rolled_back_1)) = None.
Proof.
  apply (blank_line_is_an_instruction
           (sample_world (u"   ") (Returns tt) (Returns tt)
                         (Raises network_down))
           rolled_back_1 (u"   ")).
  - reflexivity.
  - repeat constructor.
Defined.


(** ** When [input()] raises *)

Lemma iteration_input_fails (w : world) (self : CLI) (e : exn) :
  input w = Raises e -> e <> SystemExit ->
  exists text,
    iteration w self = (Returns Next, self, [ask; Printed text]).
Proof.
  intros Hin He. cli_unfold. rewrite Hin.
  destruct e as [| |kind message]; cli_step.
  - eexists. reflexivity.
  - destruct He. reflexivity.
  - eexists. reflexivity.
Qed.

(** X8.  When [input()] raises anything but [SystemExit] - [EOFError] on
    a closed terminal, Ctrl-C at the prompt - the loop prints a line and
    asks again: it never ends on its own, however often that happens,
    and the slots stay as they are. *)
Theorem failing_input_never_ends_the_loop :
  forall (w : world) (self : CLI) (e : exn) (n : nat),
    input w = Raises e -> e <> SystemExit ->
    result_of (loop (repeat w n) self) = Returns AwaitingInput
    /\ state_of (loop (repeat w n) self) = self
    /\ log_of (loop (repeat w n) self)
       = concat (repeat (log_of (iteration w self)) n).
Proof.
  intros w self e n Hin He.
  destruct (iteration_input_fails w self e Hin He) as [text E].
  induction n as [|n [IH1 [IH2 IH3]]]; [repeat split|].
  cbn [repeat concat].
  rewrite (loop_next w self self _ E (repeat w n)).
  unfold result_of, state_of, log_of in *. cbn [fst snd].
  rewrite IH1, IH2, IH3, E. auto.
Qed.

Lemma failing_input_never_ends_the_loop_witness :
  result_of (loop (repeat (failing_input EOFError) 3) applied_1)
  = Returns AwaitingInput
  /\ state_of (loop (repeat (failing_input KeyboardInterrupt) 3) applied_1)
     = applied_1.
Proof.
  split.
  - apply (failing_input_never_ends_the_loop
             (failing_input EOFError) applied_1 EOFError 3);
      [reflexivity | discriminate].
  - apply (failing_input_never_ends_the_loop
             (failing_input KeyboardInterrupt) applied_1
             KeyboardInterrupt 3);
      [reflexivity | discriminate].
Defined.

(** ** Undo and redo, one after the other *)

(** X9.  Undo followed by redo is a round trip on the history: when the
    patch manager carries out both, the slots are what they were before
    the undo, and the patch manager has seen one [rollback] and one
    [apply_patch], both on the tracked patch. *)
Theorem undo_then_redo_restores_the_slots :
  forall (w1 w2 : world) (self : CLI) (c1 c2 p : str),
    reads w1 Undo c1 -> reads w2 Redo c2 ->
    last_patch self = Some p -> truthy p = true ->
    last_rolled_back_patch self = None ->
    rollback w1 p = Returns tt -> apply_patch w2 p = Returns tt ->
    state_of (loop [w1; w2] self) = self
    /\ patch_calls (log_of (loop [w1; w2] self))
       = [Rollback p; ApplyPatch p].
Proof.
  intros w1 w2 self c1 c2 p Hr1 Hr2 Hp Ht Hn Hu Ha.
  assert (E1 := iteration_undo_tracked w1 self c1 p Hr1 Hp Ht).
  rewrite Hu in E1.
  assert (E2 := iteration_redo_tracked
                  w2 {| last_patch := None;
                        last_rolled_back_patch := Some p |}
                  c2 p Hr2 eq_refl Ht).
  rewrite Ha in E2.
  rewrite (loop_two w1 w2 _ _ _ _ _ E1 E2).
  destruct self as [lp lr]. cbn in Hp, Hn. subst lp lr.
  split; reflexivity.
Qed.

Lemma undo_then_redo_restores_the_slots_witness :
  state_of (loop [sample_world (u"undo") (Returns tt) (Returns tt)
                               (Returns (u"diff"));
                  sample_world (u"redo") (Returns tt) (Returns tt)
                               (Returns (u"diff"))] applied_1)
  = applied_1.
Proof.
  apply (undo_then_redo_restores_the_slots
           _ _ applied_1 (u"undo") (u"redo") (u"patch_1.diff")
           (reads_sample (u"undo") Undo _ _ _ eq_refl)
           (reads_sample (u"redo") Redo _ _ _ eq_refl)
           eq_refl eq_refl eq_refl eq_refl eq_refl).
Defined.

(** X10.  The history is one patch deep.  After an undo that went
    through, a second undo finds nothing to undo and calls nothing; and
    after a redo that went through, a second redo finds nothing to
    redo. *)
Theorem second_undo_or_redo_does_nothing :
  forall (w1 w2 : world) (self : CLI) (c1 c2 p : str),
    (reads w1 Undo c1 -> reads w2 Undo c2 ->
     last_patch self = Some p -> truthy p = true ->
     rollback w1 p = Returns tt ->
     loop [w1; w2] self
     = (Returns AwaitingInput,
        {| last_patch := None; last_rolled_back_patch := Some p |},
        [ask; Called (Rollback p);
         Printed (u"Changes rolled back successfully.");
         ask; Printed (u"No changes to undo.")]))
    /\ (reads w1 Redo c1 -> reads w2 Redo c2 ->
        last_rolled_back_patch self = Some p -> truthy p = true ->
        apply_patch w1 p = Returns tt ->
        loop [w1; w2] self
        = (Returns AwaitingInput,
           {| last_patch := Some p; last_rolled_back_patch := None |},
           [ask; Called (ApplyPatch p);
            Printed (u"Changes reapplied successfully.");
            ask; Printed (u"No changes to redo.")])).
Proof.
  intros w1 w2 self c1 c2 p. split; intros Hr1 Hr2 Hp Ht Hok.
  - assert (E1 := iteration_undo_tracked w1 self c1 p Hr1 Hp Ht).
    rewrite Hok in E1.
    exact (loop_two w1 w2 _ _ _ _ _ E1
             (iteration_undo_untracked
                w2 {| last_patch := None; last_rolled_back_patch := Some p |}
                c2 Hr2 eq_refl)).
  - assert (E1 := iteration_redo_tracked w1 self c1 p Hr1 Hp Ht).
    rewrite Hok in E1.
    exact (loop_two w1 w2 _ _ _ _ _ E1
             (iteration_redo_untracked
                w2 {| last_patch := Some p; last_rolled_back_patch := None |}
                c2 Hr2 eq_refl)).
Qed.

Lemma second_undo_or_redo_does_nothing_witness :
  patch_calls
    (log_of (loop [sample_world (u"undo") (Returns tt) (Returns tt)
                                (Returns (u"diff"));
                   sample_world (u"undo") (Returns tt) (Returns tt)
                                (Returns (u"diff"))] applied_1))
  = [Rollback (u"patch_1.diff")]
  /\ patch_calls
       (log_of (loop [sample_world (u"redo") (Returns tt) (Returns tt)
                                   (Returns (u"diff"));
                      sample_world (u"redo") (Returns tt) (Returns tt)
                                   (Returns (u"diff"))] rolled_back_1))
     = [ApplyPatch (u"patch_1.diff")].
Proof.
  split.
  - rewrite (proj1 (second_undo_or_redo_does_nothing
                      _ _ applied_1 (u"undo") (u"undo") (u"patch_1.diff"))
                   (reads_sample (u"undo") Undo _ _ _ eq_refl)
                   (reads_sample (u"undo") Undo _ _ _ eq_refl)
                   eq_refl eq_refl eq_refl).
    reflexivity.
  - rewrite (proj2 (second_undo_or_redo_does_nothing
                      _ _ rolled_back_1 (u"redo") (u"redo")
                      (u"patch_1.diff"))
                   (reads_sample (u"redo") Redo _ _ _ eq_refl)
                   (reads_sample (u"redo") Redo _ _ _ eq_refl)
                   eq_refl eq_refl eq_refl).
    reflexivity.
Defined.

(** X11.  An undo whose [rollback] raises an [Exception] can be tried
    again: the patch is still in [last_patch], and the next undo calls
    [rollback] on it once more. *)
Theorem failed_undo_can_be_retried :
  forall (w1 w2 : world) (self : CLI) (c1 c2 p : str)
         (kind : error_kind) (message : str),
    reads w1 Undo c1 -> reads w2 Undo c2 ->
    last_patch self = Some p -> truthy p = true ->
    rollback w1 p = Raises (Exception kind message) ->
    rollback w2 p = Returns tt ->
    state_of (loop [w1; w2] self)
    = {| last_patch := None; last_rolled_back_patch := Some p |}
    /\ patch_calls (log_of (loop [w1; w2] self))
       = [Rollback p; Rollback p].
Proof.
  intros w1 w2 self c1 c2 p kind message Hr1 Hr2 Hp Ht Hfail Hok.
  assert (E1 := iteration_undo_tracked w1 self c1 p Hr1 Hp Ht).
  rewrite Hfail in E1.
  assert (E2 := iteration_undo_tracked w2 self c2 p Hr2 Hp Ht).
  rewrite Hok in E2.
  rewrite (loop_two w1 w2 _ _ _ _ _ E1 E2). split; reflexivity.
Qed.

Lemma failed_undo_can_be_retried_witness :
  state_of (loop [sample_world (u"undo") (Raises backup_missing)
                               (Returns tt) (Returns (u"diff"));
                  sample_world (u"undo") (Returns tt) (Returns tt)
                               (Returns (u"diff"))] applied_1)
  = rolled_back_1.
Proof.
  apply (failed_undo_can_be_retried
           _ _ applied_1 (u"undo") (u"undo") (u"patch_1.diff")
           BackupMissing (u"no backup for a.py")
           (reads_sample (u"undo") Undo _ _ _ eq_refl)
           (reads_sample (u"undo") Undo _ _ _ eq_refl)
           eq_refl eq_refl eq_refl eq_refl).
Defined.


(** ** What reaches the patch manager *)

(** X12.  [apply_patch] is only ever called on the patch in
    [last_rolled_back_patch] (a redo) or on a handle that
    [generate_patch] has just returned (a new instruction). *)
Theorem apply_patch_only_on_rolled_back_or_new_patch :
  forall (w : world) (self : CLI) (p : str),
    In (Called (ApplyPatch p)) (log_of (iteration w self)) ->
    (last_rolled_back_patch self = Some p /\ truthy p = true)
    \/ (exists response,
           generate_patch w response = Returns p
           /\ In (Called (GeneratePatch response))
                 (log_of (iteration w self))).
Proof.
  intros w self p. cli_unfold. cli_world; intros H; cbn in H;
    repeat (destruct H as [H|H]; try discriminate H; try contradiction);
    inversion H; subst; auto;
    right; eexists; (split; [eassumption|]); cbn; auto 10.
Qed.

Lemma apply_patch_only_on_rolled_back_or_new_patch_witness :
  (last_rolled_back_patch rolled_back_1 = Some (u"patch_1.diff")
   /\ truthy (u"patch_1.diff") = true)
  \/ (exists response,
         generate_patch (sample_world (u"redo") (Returns tt) (Returns tt)
                                      (Returns (u"diff"))) response
         = Returns (u"patch_1.diff")
         /\ In (Called (GeneratePatch response))
               (log_of (iteration (sample_world (u"redo") (Returns tt)
                                                (Returns tt)
                                                (Returns (u"diff")))
                                  rolled_back_1))).
Proof.
  apply (apply_patch_only_on_rolled_back_or_new_patch
           (sample_world (u"redo") (Returns tt) (Returns tt)
                         (Returns (u"diff")))
           rolled_back_1 (u"patch_1.diff")).
  right. left. reflexivity.
Defined.

Lemma iteration_tracks (w : world) (self : CLI) (p : str) :
  tracks (state_of (iteration w self)) p ->
  tracks self p
  \/ exists response,
       generate_patch w response = Returns p
       /\ In (Called (GeneratePatch response)) (log_of (iteration w self)).
Proof.
  unfold tracks. cli_unfold.
  cli_world; intros [H|H]; try discriminate H;
    try (inversion H; subst);
    try (left; left; congruence); try (left; right; congruence);
    right; eexists; (split; [eassumption|]);
    repeat (rewrite in_app_iff; cbn [In]); tauto.
Qed.

Lemma loop_stops (w : world) (self self1 : CLI) (log1 : list event)
      (rest : list world) :
  (iteration w self = (Returns Break, self1, log1) ->
   loop (w :: rest) self = (Returns Returned, self1, log1))
  /\ (forall e, iteration w self = (Raises e, self1, log1) ->
                loop (w :: rest) self = (Raises e, self1, log1)).
Proof.
  split; [intros H | intros e H]; cbn [loop]; unfold Cli.bind at 1;
    rewrite H; cbn; rewrite ?app_nil_r; reflexivity.
Qed.

(** A handle tracked after [loop] was tracked before it or comes from an
    iteration the loop got to, which called [generate_patch] and was
    answered with it. *)
Lemma loop_tracks (ws : list world) :
  forall (self : CLI) (p : str),
    tracks (state_of (loop ws self)) p ->
    tracks self p
    \/ exists before w after response,
         ws = before ++ w :: after
         /\ result_of (loop before self) = Returns AwaitingInput
         /\ generate_patch w response = Returns p
         /\ In (Called (GeneratePatch response))
               (log_of (iteration w (state_of (loop before self))))
         /\ In (Called (GeneratePatch response)) (log_of (loop ws self)).
Proof.
  induction ws as [|w ws IH]; intros self p H; [left; exact H|].
  pose proof (iteration_tracks w self p) as Hit.
  pose proof (loop_next w self) as Hnext.
  pose proof (loop_stops w self) as Hstop.
  destruct (iteration w self) as [[[s|e] self1] log1] eqn:Hi.
  - destruct s.
    + rewrite (proj1 (Hstop self1 log1 ws) eq_refl) in H |- *.
      destruct (Hit H) as [Hs|[r [Hg Hl]]]; [left; exact Hs|].
      right. exists [], w, ws, r.
      change (state_of (loop [] self)) with self. rewrite Hi.
      repeat split; assumption.
    + rewrite (Hnext self1 log1 eq_refl ws) in H |- *.
      unfold state_of, log_of in H |- *; cbn [fst snd] in H |- *.
      destruct (IH self1 p H)
        as [Hs|[before [w' [after [r [E [Hr [Hg [Hl Hll]]]]]]]]].
      * destruct (Hit Hs) as [Hs0|[r [Hg Hl]]]; [left; exact Hs0|].
        right. exists [], w, ws, r.
        change (snd (fst (loop [] self))) with self. rewrite Hi.
        cbn [snd].
        repeat split; try assumption.
        apply in_or_app. left. exact Hl.
      * right. exists (w :: before), w', after, r.
        rewrite (Hnext self1 log1 eq_refl before).
        unfold state_of, result_of; cbn [fst snd].
        repeat split; try assumption.
        -- rewrite E. reflexivity.
        -- apply in_or_app. right. exact Hll.
  - rewrite (proj2 (Hstop self1 log1 ws) e eq_refl) in H |- *.
    destruct (Hit H) as [Hs|[r [Hg Hl]]]; [left; exact Hs|].
    right. exists [], w, ws, r.
    change (state_of (loop [] self)) with self. rewrite Hi.
    repeat split; assumption.
Qed.

(** Where [run] changes the slots it has entered the loop, whose events
    end its log. *)
Lemma run_log (sw : startup) (ws : list world) (self : CLI) :
  state_of (run sw ws self) = self
  \/ (state_of (run sw ws self) = state_of (loop ws self)
      /\ exists before,
           log_of (run sw ws self) = before ++ log_of (loop ws self)).
Proof.
  unfold run, Cli.bind, do_call, ret, print, try_except_Exception,
    state_of, log_of.
  cli_step.
  destruct (new_selector sw) as [[]|e0]; cli_step; [|now left].
  destruct (pick_files sw) as [files|e1]; cli_step.
  2:{ destruct e1; cli_step; now left. }
  destruct (truthy_files files); cli_step; [|now left].
  destruct (set_initial_context sw (files_of files)) as [[]|e2]; cli_step.
  2:{ destruct e2; cli_step; now left. }
  right. destruct (loop ws self) as [[r self2] log2]. cli_step.
  split; [reflexivity|].
  eexists. rewrite !app_assoc. reflexivity.
Qed.

(** X13.  The session only ever tracks patches it has generated: a handle
    found in [last_patch] or [last_rolled_back_patch] after any sequence
    of commands was returned by [generate_patch] during one of them.
    The commands split into those [before] one, which the loop all
    carried out and went on from, that one, and those [after]; carried
    out on the slots the earlier ones left, that command called
    [generate_patch] on a [response] of the model, as its events and
    those of the session show, and was answered with the handle. *)
Theorem tracked_handles_come_from_generate_patch :
  forall (sw : startup) (ws : list world) (p : str),
    tracks (state_of (run sw ws init)) p ->
    exists before w after response,
      ws = before ++ w :: after
      /\ result_of (loop before init) = Returns AwaitingInput
      /\ generate_patch w response = Returns p
      /\ In (Called (GeneratePatch response))
            (log_of (iteration w (state_of (loop before init))))
      /\ In (Called (GeneratePatch response)) (log_of (run sw ws init)).
Proof.
  intros sw ws p H.
  destruct (run_log sw ws init) as [E|[E [pre El]]]; rewrite E in H.
  - destruct H as [H|H]; discriminate H.
  - destruct (loop_tracks ws init p H)
      as [[H0|H0]|[before [w [after [r [Ews [Hr [Hg [Hl Hll]]]]]]]]];
      [discriminate H0 | discriminate H0 |].
    exists before, w, after, r. repeat split; try assumption.
    rewrite El. apply in_or_app. right. exact Hll.
Qed.

Lemma tracked_handles_come_from_generate_patch_witness :
  exists before w after response,
    [sample_world (u"add a test") (Returns tt) (Returns tt)
                  (Returns (u"diff"));
     sample_world (u"undo") (Returns tt) (Returns tt) (Returns (u"diff"))]
    = before ++ w :: after
    /\ result_of (loop before init) = Returns AwaitingInput
    /\ generate_patch w response = Returns (u"patch_2.diff")
    /\ In (Called (GeneratePatch response))
          (log_of (iteration w (state_of (loop before init))))
    /\ In (Called (GeneratePatch response))
          (log_of (run sample_startup
                       [sample_world (u"add a test") (Returns tt)
                                     (Returns tt) (Returns (u"diff"));
                        sample_world (u"undo") (Returns tt) (Returns tt)
                                     (Returns (u"diff"))]
                       init)).
Proof.
  apply (tracked_handles_come_from_generate_patch sample_startup).
  right. reflexivity.
Defined.

(** ** Leaving and not entering the loop *)

(** X14.  Without a selection there is no session: when the file picker
    returns nothing, or it or the context manager raises an [Exception],
    [run] returns without reading a single command and with the slots
    untouched.  [FileSelector()] itself is built outside the [try]: what
    it raises leaves [run]. *)
Theorem no_selection_no_session :
  forall (sw : startup) (ws : list world) (self : CLI),
    (new_selector sw = Returns tt ->
     ((exists files,
          pick_files sw = Returns files /\ truthy_files files = false)
      \/ (exists kind message,
             pick_files sw = Raises (Exception kind message))
      \/ (exists files kind message,
             pick_files sw = Returns files
             /\ set_initial_context sw (files_of files)
                = Raises (Exception kind message))) ->
     result_of (run sw ws self) = Returns Returned
     /\ state_of (run sw ws self) = self
     /\ forall prompt,
          ~ In (Called (Input prompt)) (log_of (run sw ws self)))
    /\ (forall e : exn,
           new_selector sw = Raises e ->
           result_of (run sw ws self) = Raises e
           /\ state_of (run sw ws self) = self).
Proof.
  intros sw ws self. split.
  - intros Hn H.
    unfold run, Cli.bind, do_call, ret, print, try_except_Exception,
      result_of, state_of, log_of.
    cli_step. rewrite Hn. cli_step.
    destruct H as [[files [Hp Ht]]|[[kind [message Hp]]
                                   |[files [kind [message [Hp Hs]]]]]];
      rewrite Hp; cli_step.
    + rewrite Ht. cli_step. repeat split.
      intros prompt Hin. cbn in Hin.
      repeat (destruct Hin as [Hin|Hin]; try discriminate Hin);
        contradiction.
    + repeat split. intros prompt Hin. cbn in Hin.
      repeat (destruct Hin as [Hin|Hin]; try discriminate Hin);
        contradiction.
    + destruct (truthy_files files); cli_step.
      * rewrite Hs. cli_step. repeat split.
        intros prompt Hin. cbn in Hin.
        repeat (destruct Hin as [Hin|Hin]; try discriminate Hin);
          contradiction.
      * repeat split. intros prompt Hin. cbn in Hin.
        repeat (destruct Hin as [Hin|Hin]; try discriminate Hin);
          contradiction.
  - intros e Hn.
    unfold run, Cli.bind, do_call, ret, print, try_except_Exception,
      result_of, state_of.
    cli_step. rewrite Hn. cli_step. split; reflexivity.
Qed.

Lemma no_selection_no_session_witness :
  result_of (run cancelled_startup
                 [sample_world (u"undo") (Returns tt) (Returns tt)
                               (Returns (u"diff"))] applied_1)
  = Returns Returned.
Proof.
  apply (proj1 (no_selection_no_session cancelled_startup _ applied_1)).
  - reflexivity.
  - left. exists (Some []). split; reflexivity.
Defined.

(** X15.  [exit] ends the loop at once, whatever would follow, and
    [select] goes on with the next command; neither changes a slot nor
    calls the patch manager, whatever the context manager does. *)
Theorem exit_and_select_leave_the_history_alone :
  forall (w : world) (self : CLI) (command : str),
    (reads w Exit command ->
     forall rest : list world,
       loop (w :: rest) self = (Returns Returned, self, [ask]))
    /\ (reads w Select command ->
        state_of (iteration w self) = self
        /\ patch_calls (log_of (iteration w self)) = []
        /\ result_of (iteration w self) <> Returns Break).
Proof.
  intros w self command. split.
  - intros Hr rest. cbn [loop]. unfold Cli.bind at 1.
    rewrite (iteration_exit w self command Hr). reflexivity.
  - intros Hr.
    destruct (iteration_select_slots w self command Hr) as [Hs Hc].
    split; [exact Hs|]. split; [exact Hc|].
    destruct Hr as [raw [Hin [-> Hk]]]. cli_unfold.
    rewrite Hin. cli_step. rewrite Hk.
    cli_world; discriminate.
Qed.

Lemma exit_and_select_leave_the_history_alone_witness :
  loop [sample_world (u"EXIT") (Returns tt) (Returns tt) (Returns (u"diff"));
        sample_world (u"undo") (Returns tt) (Returns tt) (Returns (u"diff"))]
       applied_1
  = (Returns Returned, applied_1, [ask])
  /\ state_of (iteration (sample_world (u"select") (Returns tt) (Returns tt)
                                       (Returns (u"diff"))) applied_1)
     = applied_1.
Proof.
  split.
  - apply (proj1 (exit_and_select_leave_the_history_alone
                    _ applied_1 (u"EXIT"))).
    apply (reads_sample (u"EXIT")). reflexivity.
  - apply (proj2 (exit_and_select_leave_the_history_alone
                    _ applied_1 (u"select"))).
    apply (reads_sample (u"select")). reflexivity.
Defined.

End MoreCommandLoop.

(* ================================================================== *)
(** * Further properties of ProjectTreeGenerator *)
(* ================================================================== *)

Section MoreTreeFacts.

Import Py.
Import TreeUtils.

Variable fnmatch : str -> str -> bool.
Variable str_lower : str -> str.

Local Abbreviation key := (sort_key str_lower).
Local Abbreviation le :=
  (fun x y : fsnode => key_leb (key x) (key y) = true).
Local Abbreviation insert := (insert_by_key str_lower).
Local Abbreviation sort := (sorted str_lower).

(** ** Names that match a pattern *)

Lemma entry_skipped_by_name (self : ProjectTreeGenerator)
      (parser : Gitignore.GitignoreParser) (rel : Path) (name p : str) :
  gitignore_parser self = Some parser ->
  In p (Gitignore.patterns parser) ->
  fnmatch name (effective p) = true ->
  Forall slash_free rel -> slash_free name ->
  should_skip fnmatch self (root_path self ++ rel ++ [name]) = Returns true.
Proof.
  intros Hparser Hin Hm Hrel Hname. unfold should_skip.
  destruct (eqb (path_name (root_path self ++ rel ++ [name])) (u".git"));
    [reflexivity|].
  rewrite Hparser, relative_to_under.
  assert (E : Gitignore.should_ignore fnmatch parser
                                      (path_str (rel ++ [name])) = true).
  { apply should_ignore_loop_exists. exists p. split; [exact Hin|].
    right. now rewrite basename_of_entry. }
  now rewrite E.
Qed.

(** ** A root that cannot be listed *)

Lemma get_tree_unlistable (self : ProjectTreeGenerator) (fs : fsnode) :
  iterdir fs = None ->
  exists g,
    get_tree fnmatch str_lower self fs = Returns (g, empty_report)
    /\ output g = [] /\ file_contents g = [] /\ same_settings g self.
Proof.
  intros H. unfold get_tree. cbn [generate_tree]. rewrite H.
  cbn [bind]. eexists. split; [reflexivity|].
  repeat split.
Qed.

End MoreTreeFacts.

(** X16.  A pattern that matches the name of an entry leaves the entry
    out wherever it lies under the root: [should_skip] is true for it at
    every depth, since [should_ignore] tries the last component of the
    relative path as well as the whole of it. *)
Theorem entry_named_like_a_pattern_is_skipped :
  forall (fnmatch : Py.str -> Py.str -> bool)
         (self : TreeUtils.ProjectTreeGenerator)
         (parser : Gitignore.GitignoreParser)
         (rel : TreeUtils.Path) (name p : Py.str),
    TreeUtils.gitignore_parser self = Some parser ->
    In p (Gitignore.patterns parser) ->
    fnmatch name (effective p) = true ->
    Forall slash_free rel -> slash_free name ->
    TreeUtils.should_skip fnmatch self
                          (TreeUtils.root_path self ++ rel ++ [name])
    = Py.Returns true.
Proof. exact entry_skipped_by_name. Qed.

Lemma entry_named_like_a_pattern_is_skipped_witness :
  TreeUtils.should_skip Py.eqb sample_generator
                        ([u"/"; u"repo"] ++ [u"src"; u"lib"] ++ [u"build"])
  = Py.Returns true.
Proof.
  apply (entry_named_like_a_pattern_is_skipped
           Py.eqb sample_generator (Gitignore.init (Some sample_gitignore))
           [u"src"; u"lib"] (u"build") (u"build/")).
  - reflexivity.
  - left. reflexivity.
  - reflexivity.
  - repeat constructor; intros H; cbn in H;
      repeat (destruct H as [H|H]; try discriminate H); contradiction.
  - intros H; cbn in H;
      repeat (destruct H as [H|H]; try discriminate H); contradiction.
Defined.

(** X17.  A root that cannot be listed - permission denied, not a
    directory, gone - gives no error: [get_tree] returns the report of an
    empty directory, with no line and no file in it. *)
Theorem unlistable_root_gives_the_empty_report :
  forall (fnmatch : Py.str -> Py.str -> bool) (str_lower : Py.str -> Py.str)
         (self : TreeUtils.ProjectTreeGenerator) (fs : TreeUtils.fsnode),
    TreeUtils.iterdir fs = None ->
    exists g,
      TreeUtils.get_tree fnmatch str_lower self fs
      = Py.Returns (g, empty_report)
      /\ TreeUtils.get_tree fnmatch str_lower self
                            (TreeUtils.Dir (TreeUtils.node_name fs) [])
         = Py.Returns (g, empty_report)
      /\ TreeUtils.output g = [] /\ TreeUtils.file_contents g = [].
Proof.
  intros fnmatch str_lower self fs H.
  destruct (get_tree_unlistable fnmatch str_lower self fs H)
    as [g [E [Ho [Hf _]]]].
  exists g. repeat split; try assumption.
  unfold TreeUtils.get_tree in *. cbn in *. rewrite H in E.
  exact E.
Qed.

Lemma unlistable_root_gives_the_empty_report_witness :
  exists g,
    TreeUtils.get_tree Py.eqb Py.lower sample_generator
                       (TreeUtils.Unlistable (u"repo"))
    = Py.Returns (g, empty_report).
Proof.
  destruct (unlistable_root_gives_the_empty_report
              Py.eqb Py.lower sample_generator
              (TreeUtils.Unlistable (u"repo")) eq_refl)
    as [g [E _]].
  exists g. exact E.
Defined.

Section MoreTreeWalk.

Import Py.
Import TreeUtils.

Variable fnmatch : str -> str -> bool.
Variable str_lower : str -> str.

Local Abbreviation key := (sort_key str_lower).
Local Abbreviation insert := (insert_by_key str_lower).
Local Abbreviation sort := (sorted str_lower).

(** ** The settings are kept *)

Lemma same_settings_refl (a : ProjectTreeGenerator) : same_settings a a.
Proof. repeat split. Qed.

Lemma same_settings_trans (a b c : ProjectTreeGenerator) :
  same_settings a b -> same_settings b c -> same_settings a c.
Proof.
  unfold same_settings. intros H1 H2.
  decompose [and] H1. decompose [and] H2. repeat split; congruence.
Qed.

Lemma reset_same_settings (a b : ProjectTreeGenerator) :
  same_settings a b ->
  set_file_contents (set_output a []) []
  = set_file_contents (set_output b []) [].
Proof.
  destruct a, b. unfold same_settings, set_output, set_file_contents.
  cbn. intros H. decompose [and] H. subst. reflexivity.
Qed.

Lemma for_entries_settings
      (recur : ProjectTreeGenerator -> Path -> fsnode -> str ->
               outcome ProjectTreeGenerator)
      (directory : Path) (prefix : str) (entries : list fsnode) :
  (forall e, In e entries ->
             forall s d p x, recur s d e p = Returns x -> same_settings x s) ->
  forall self x : ProjectTreeGenerator,
    for_entries recur directory prefix entries self = Returns x ->
    same_settings x self.
Proof.
  induction entries as [|e rest IH]; intros Hrec self x H.
  - inversion H; subst. apply same_settings_refl.
  - cbn [for_entries] in H.
    match type of H with
    | bind (if is_dir e then recur ?s2 _ _ _ else _) _ = _ =>
        set (self2 := s2) in H;
        assert (H2 : same_settings self2 self)
          by (subst self2; destruct e; repeat split)
    end.
    clearbody self2.
    assert (Hy : exists y,
               (if is_dir e
                then recur self2 (directory ++ [node_name e]) e
                           (prefix ++ (if match rest with
                                           | [] => true | _ => false end
                                       then indent self2 else pipe self2))
                else Returns self2) = Returns y
               /\ for_entries recur directory prefix rest y = Returns x).
    { match type of H with
      | bind ?m _ = _ => destruct m as [y|]; cbn [bind] in H;
                         [exists y; auto | discriminate H]
      end. }
    destruct Hy as [y [E Hrest]].
    apply (same_settings_trans x y self).
    + apply IH; [|exact Hrest]. intros e' He'. apply Hrec. now right.
    + apply (same_settings_trans y self2 self); [|exact H2].
      destruct (is_dir e).
      * exact (Hrec e (or_introl eq_refl) _ _ _ _ E).
      * inversion E; subst. apply same_settings_refl.
Qed.

Lemma generate_tree_settings (depth : nat) :
  forall (self : ProjectTreeGenerator) (directory : Path) (node : fsnode)
         (prefix : str) (x : ProjectTreeGenerator),
    generate_tree fnmatch str_lower depth self directory node prefix
    = Returns x ->
    same_settings x self.
Proof.
  induction depth as [|depth IH]; intros self directory node prefix x H;
    [discriminate H|].
  cbn [generate_tree] in H.
  destruct (iterdir node) as [kids|].
  - destruct (not_skipped fnmatch self directory (sort kids)) as [l|];
      cbn [bind] in H; [|discriminate H].
    apply (for_entries_settings _ _ _ _
             (fun e _ s d p y => IH s d e p y) _ _ H).
  - inversion H; subst. apply same_settings_refl.
Qed.

(** X18.  [get_tree] starts from scratch every time: called again on the
    generator it has returned, for the same tree, it gives the same
    report and leaves the generator as it is; what an earlier call has
    collected does not show up twice. *)
Theorem get_tree_can_be_repeated :
  forall (self self' : ProjectTreeGenerator) (fs : fsnode) (text : str),
    get_tree fnmatch str_lower self fs = Returns (self', text) ->
    get_tree fnmatch str_lower self' fs = Returns (self', text).
Proof.
  intros self self' fs text H. unfold get_tree in *.
  destruct (generate_tree fnmatch str_lower (S (height fs))
              (set_file_contents (set_output self []) [])
              (root_path (set_file_contents (set_output self []) []))
              fs []) as [x|] eqn:E; cbn [bind] in H; [|discriminate H].
  inversion H; subst x. clear H.
  pose proof (generate_tree_settings _ _ _ _ _ _ E) as Hs.
  assert (Hs' : same_settings self' self).
  { apply (same_settings_trans _ _ _ Hs). repeat split. }
  rewrite (reset_same_settings self' self Hs'), E. reflexivity.
Qed.

End MoreTreeWalk.

Lemma get_tree_can_be_repeated_witness :
  exists g text,
    TreeUtils.get_tree Py.eqb Py.lower sample_generator sample_tree
    = Py.Returns (g, text)
    /\ TreeUtils.get_tree Py.eqb Py.lower g sample_tree
       = Py.Returns (g, text).
Proof.
  destruct (TreeUtils.get_tree Py.eqb Py.lower sample_generator sample_tree)
    as [[g text]|e] eqn:E.
  - exists g, text. split; [reflexivity|].
    exact (get_tree_can_be_repeated Py.eqb Py.lower sample_generator g
                                    sample_tree text E).
  - vm_compute in E. discriminate E.
Defined.

Section MoreTreeSkip.

Import Py.
Import TreeUtils.

Variable fnmatch : str -> str -> bool.
Variable str_lower : str -> str.

Local Abbreviation key := (sort_key str_lower).
Local Abbreviation insert := (insert_by_key str_lower).
Local Abbreviation sort := (sorted str_lower).

(** ** What is skipped is never walked *)

Lemma should_skip_settings (a b : ProjectTreeGenerator) (path : Path) :
  same_settings a b ->
  should_skip fnmatch a path = should_skip fnmatch b path.
Proof.
  intros [Hr [Hp _]]. unfold should_skip. now rewrite Hr, Hp.
Qed.

Lemma visible_name (skip : Path -> bool) (d : Path) (n : fsnode) :
  node_name (visible skip d n) = node_name n.
Proof. destruct n; reflexivity. Qed.

Lemma visible_is_dir (skip : Path -> bool) (d : Path) (n : fsnode) :
  is_dir (visible skip d n) = is_dir n.
Proof. destruct n; reflexivity. Qed.

Lemma insert_map (g : fsnode -> fsnode) (x : fsnode) (l : list fsnode) :
  (forall n, key (g n) = key n) ->
  insert (g x) (map g l) = map g (insert x l).
Proof.
  intros Hg. induction l as [|y l IH]; simpl; [reflexivity|].
  rewrite !Hg.
  destruct (key_leb (key x) (key y)); simpl; [reflexivity|].
  now rewrite IH.
Qed.

Lemma sorted_map (g : fsnode -> fsnode) (l : list fsnode) :
  (forall n, key (g n) = key n) ->
  sort (map g l) = map g (sort l).
Proof.
  intros Hg. induction l as [|x l IH]; simpl; [reflexivity|].
  now rewrite IH, insert_map.
Qed.

Lemma height_visible (skip : Path -> bool) (n : fsnode) :
  forall d : Path, height (visible skip d n) <= height n.
Proof.
  induction n as [name data|name kids IH|name|name]
    using fsnode_induction; intros d; simpl; auto.
  apply le_n_S.
  induction IH as [|k kids Hk _ IHkids]; simpl; [auto|].
  specialize (Hk (d ++ [node_name k])).
  destruct (skip (d ++ [node_name (visible skip (d ++ [node_name k]) k)]));
    simpl; lia.
Qed.

Section FixedSettings.

Variable self0 : ProjectTreeGenerator.

Local Abbreviation sk := (skipped fnmatch self0).

Lemma not_skipped_visible (self : ProjectTreeGenerator) (directory : Path)
      (entries : list fsnode) :
  same_settings self self0 ->
  not_skipped fnmatch self directory
    (filter (fun k => negb (sk (directory ++ [node_name k])))
            (map (fun k => visible sk (directory ++ [node_name k]) k)
                 entries))
  = bind (not_skipped fnmatch self directory entries)
         (fun l =>
            Returns (map (fun k => visible sk (directory ++ [node_name k]) k)
                         l)).
Proof.
  intros Hs. induction entries as [|e entries IH]; [reflexivity|].
  cbn [map filter not_skipped]. rewrite visible_name.
  unfold skipped at 1.
  rewrite <- (should_skip_settings self self0 _ Hs).
  destruct (should_skip fnmatch self (directory ++ [node_name e]))
    as [[]|err] eqn:E; cbn [negb bind].
  - rewrite IH.
    destruct (not_skipped fnmatch self directory entries); reflexivity.
  - cbn [not_skipped]. rewrite visible_name, E. cbn [bind]. rewrite IH.
    destruct (not_skipped fnmatch self directory entries); reflexivity.
  - cbn [not_skipped]. rewrite visible_name, E. reflexivity.
Qed.

Lemma for_entries_visible
      (recur : ProjectTreeGenerator -> Path -> fsnode -> str ->
               outcome ProjectTreeGenerator)
      (directory : Path) (prefix : str) :
  (forall e s p,
      same_settings s self0 ->
      recur s (directory ++ [node_name e])
            (visible sk (directory ++ [node_name e]) e) p
      = recur s (directory ++ [node_name e]) e p) ->
  (forall s d e p x, recur s d e p = Returns x -> same_settings x s) ->
  forall (entries : list fsnode) (self : ProjectTreeGenerator),
    same_settings self self0 ->
    for_entries recur directory prefix
      (map (fun k => visible sk (directory ++ [node_name k]) k) entries) self
    = for_entries recur directory prefix entries self.
Proof.
  intros Hrec Hset. induction entries as [|e rest IH]; intros self Hs;
    [reflexivity|].
  cbn [map for_entries].
  rewrite visible_name, visible_is_dir.
  assert (E : match map (fun k => visible sk (directory ++ [node_name k]) k)
                        rest with [] => true | _ => false end
              = match rest with [] => true | _ => false end)
    by (destruct rest; reflexivity).
  rewrite E.
  assert (F : forall (A : Type) (f : str -> file_read -> A) (a : A),
             match visible sk (directory ++ [node_name e]) e with
             | RegularFile name data => f name data
             | _ => a
             end
             = match e with
               | RegularFile name data => f name data
               | _ => a
               end)
    by (intros; destruct e; reflexivity).
  rewrite F.
  match goal with
  | |- bind (if is_dir e then recur ?s2 _ _ _ else _) _ = _ =>
      set (self2 := s2);
      assert (H2 : same_settings self2 self0)
        by (apply (same_settings_trans self2 self self0);
            [subst self2; destruct e; repeat split | exact Hs])
  end.
  clearbody self2.
  destruct (is_dir e).
  - rewrite (Hrec e self2 _ H2).
    destruct (recur self2 (directory ++ [node_name e]) e
                    (prefix ++ (if match rest with
                                    | [] => true | _ => false end
                                then indent self2 else pipe self2)))
      as [y|] eqn:R; cbn [bind]; [|reflexivity].
    apply IH. apply (same_settings_trans y self2 self0); [|exact H2].
    exact (Hset _ _ _ _ _ R).
  - cbn [bind]. apply IH. exact H2.
Qed.

Lemma generate_tree_visible (depth : nat) :
  forall (self : ProjectTreeGenerator) (directory : Path) (node : fsnode)
         (prefix : str),
    same_settings self self0 ->
    generate_tree fnmatch str_lower depth self directory
                  (visible sk directory node) prefix
    = generate_tree fnmatch str_lower depth self directory node prefix.
Proof.
  induction depth as [|depth IH]; intros self directory node prefix Hs;
    [reflexivity|].
  destruct node as [name data|name kids|name|name]; try reflexivity.
  cbn [generate_tree visible iterdir].
  rewrite sorted_filter.
  rewrite (sorted_map
             (fun k => visible sk (directory ++ [node_name k]) k) kids)
    by (intros n; unfold sort_key;
        now rewrite visible_name, visible_is_dir).
  rewrite (not_skipped_visible self directory (sort kids) Hs).
  destruct (not_skipped fnmatch self directory (sort kids)) as [l|e];
    cbn [bind]; [|reflexivity].
  apply for_entries_visible.
  - intros e s p Hs'. apply IH. exact Hs'.
  - intros s d e p x. apply generate_tree_settings.
  - exact Hs.
Qed.

End FixedSettings.

Lemma get_tree_visible (self : ProjectTreeGenerator) (fs : fsnode) :
  exists self' text,
    get_tree fnmatch str_lower self fs = Returns (self', text)
    /\ get_tree fnmatch str_lower self
                (visible (skipped fnmatch self) (root_path self) fs)
       = Returns (self', text).
Proof.
  unfold get_tree.
  set (self1 := set_file_contents (set_output self []) []).
  assert (Hs : same_settings self1 self) by repeat split.
  destruct (generate_tree_returns fnmatch str_lower (S (height fs)) fs
              (Nat.lt_succ_diag_r _) self1 [] [])
    as [x [Hx _]].
  rewrite app_nil_r in Hx.
  set (fs' := visible (skipped fnmatch self) (root_path self) fs).
  assert (Hp : generate_tree fnmatch str_lower (S (height fs'))
                             self1 (root_path self1) fs' []
               = Returns x).
  { rewrite (generate_tree_depth fnmatch str_lower (S (height fs'))
                                 (S (height fs)) fs').
    - subst fs'. change (root_path self1) with (root_path self).
      rewrite (generate_tree_visible self (S (height fs)) self1
                                     (root_path self) fs [] Hs).
      exact Hx.
    - apply Nat.lt_succ_diag_r.
    - subst fs'.
      pose proof (height_visible (skipped fnmatch self) fs (root_path self)).
      lia. }
  rewrite Hx, Hp. cbn [bind]. eauto.
Qed.

(** X19.  What [should_skip] marks is never walked: [get_tree] returns
    exactly what it returns for the tree from which every skipped entry -
    named [.git] or matched by a pattern - has been removed together
    with all that lies under it.  Nothing under an ignored directory is
    listed or read, whatever it is named. *)
Theorem skipped_entries_never_reach_the_tree :
  forall (self : ProjectTreeGenerator) (fs : fsnode),
  exists self' text,
    get_tree fnmatch str_lower self fs = Returns (self', text)
    /\ get_tree fnmatch str_lower self
                (visible (skipped fnmatch self) (root_path self) fs)
       = Returns (self', text).
Proof. exact get_tree_visible. Qed.

End MoreTreeSkip.

(** In the sample tree [build] goes by the pattern [build/] and both
    [.git] entries by their name. *)
Example sample_tree_visible :
  visible (skipped Py.eqb sample_generator) [u"/"; u"repo"] sample_tree
  = TreeUtils.Dir (u"repo")
      [ TreeUtils.RegularFile (u"README")
                              (TreeUtils.Text (u"diffdev" ++ [10%N]));
        TreeUtils.Dir (u"src")
          [ TreeUtils.RegularFile (u"a.py")
                                  (TreeUtils.Text (u"x = 1" ++ [10%N]));
            TreeUtils.Dir (u"vendor") [] ] ].
Proof. reflexivity. Qed.

Section MoreTreeOrder.

Import Py.
Import TreeUtils.

Variable str_lower : str -> str.

Local Abbreviation key := (sort_key str_lower).
Local Abbreviation le :=
  (fun x y : fsnode => key_leb (key x) (key y) = true).
Local Abbreviation insert := (insert_by_key str_lower).
Local Abbreviation sort := (sorted str_lower).

(** ** The order of the listing *)

Lemma insert_perm (x : fsnode) (l : list fsnode) :
  Permutation (insert x l) (x :: l).
Proof.
  induction l as [|y l IH]; simpl; [reflexivity|].
  destruct (key_leb (key x) (key y)); [reflexivity|].
  rewrite IH. apply perm_swap.
Qed.

Lemma sorted_perm (l : list fsnode) : Permutation (sort l) l.
Proof.
  induction l as [|x l IH]; simpl; [constructor|].
  rewrite insert_perm. now constructor.
Qed.

Lemma directories_first (l : list fsnode) :
  StronglySorted le l ->
  exists ds fs,
    l = ds ++ fs
    /\ Forall (fun n => is_dir n = true) ds
    /\ Forall (fun n => is_dir n = false) fs.
Proof.
  induction 1 as [|x l Hs [ds [fs [E [Hd Hf]]]] Hx].
  - exists [], []. repeat split; constructor.
  - destruct (is_dir x) eqn:Dx.
    + exists (x :: ds), fs. subst l. repeat split; auto.
    + exists [], (x :: l). repeat split; [constructor|].
      constructor; [exact Dx|].
      apply Forall_forall. intros y Hy.
      rewrite Forall_forall in Hx. specialize (Hx y Hy).
      unfold key_leb, sort_key in Hx. cbn [fst snd] in Hx.
      rewrite Dx in Hx. cbn [negb] in Hx.
      destruct (is_dir y); [discriminate Hx | reflexivity].
Qed.

End MoreTreeOrder.

Section MoreFormatting.

Import Py.
Import TreeUtils.

(** ** The column of line numbers *)

Lemma length_lit (s : string) : length (lit s) = String.length s.
Proof.
  unfold lit. rewrite length_map.
  induction s as [|a s IH]; simpl; [reflexivity | now rewrite IH].
Qed.

Lemma length_NilEmpty (d : Decimal.uint) :
  String.length (NilEmpty.string_of_uint d) = Decimal.nb_digits d.
Proof. induction d; simpl; auto. Qed.

Lemma to_lu_nonnil (n : nat) : DecimalNat.Unsigned.to_lu n <> Decimal.Nil.
Proof.
  induction n as [|n IH]; simpl; [discriminate|].
  destruct (DecimalNat.Unsigned.to_lu n); simpl; discriminate.
Qed.

Lemma nb_digits_succ (d : Decimal.uint) :
  Decimal.nb_digits d <= Decimal.nb_digits (Decimal.Little.succ d).
Proof. induction d; simpl; lia. Qed.

Lemma digits_to_lu (n : nat) :
  length (str_of_nat n) = Decimal.nb_digits (DecimalNat.Unsigned.to_lu n).
Proof.
  unfold str_of_nat. rewrite length_lit, DecimalNat.Unsigned.to_uint_alt.
  pose proof (to_lu_nonnil n) as H.
  assert (Hr : Decimal.rev (DecimalNat.Unsigned.to_lu n) <> Decimal.Nil)
    by (intros E; apply DecimalFacts.rev_nil_inv in E; contradiction).
  rewrite <- (DecimalFacts.nb_digits_rev (DecimalNat.Unsigned.to_lu n)).
  destruct (Decimal.rev (DecimalNat.Unsigned.to_lu n)); try contradiction;
    unfold NilZero.string_of_uint; apply length_NilEmpty.
Qed.

Lemma digits_mono (i n : nat) :
  i <= n -> length (str_of_nat i) <= length (str_of_nat n).
Proof.
  induction 1 as [|n Hle IH]; [auto|].
  rewrite (digits_to_lu i) in *. rewrite (digits_to_lu n) in IH.
  rewrite (digits_to_lu (S n)).
  change (DecimalNat.Unsigned.to_lu (S n))
    with (Decimal.Little.succ (DecimalNat.Unsigned.to_lu n)).
  pose proof (nb_digits_succ (DecimalNat.Unsigned.to_lu n)). lia.
Qed.

Lemma length_rjust (s : str) (width : nat) :
  length (rjust s width) = Nat.max width (length s).
Proof.
  unfold rjust. rewrite length_app, repeat_length. lia.
Qed.

Lemma number_lines_fields (padding : nat) (lines : list str) :
  forall i : nat,
    number_lines padding i lines
    = map (fun fl => fst fl ++ u" | " ++ snd fl)
          (combine (map (fun k => rjust (str_of_nat (k + 1)) padding)
                        (seq i (length lines)))
                   lines).
Proof.
  induction lines as [|l lines IH]; intros i; [reflexivity|].
  cbn [number_lines length seq map combine fst snd].
  now rewrite (IH (S i)).
Qed.

Lemma nth_error_fields (f : nat -> str) (n : nat) :
  forall (i k : nat) (field : str),
    nth_error (map f (seq i n)) k = Some field ->
    k < n /\ field = f (i + k).
Proof.
  induction n as [|n IH]; intros i [|k] field H;
    cbn [seq map nth_error] in H; try discriminate H.
  - inversion H. rewrite Nat.add_0_r. split; [lia | reflexivity].
  - destruct (IH (S i) k field H) as [Hk E]. split; [lia|].
    rewrite E. f_equal. lia.
Qed.

(** X21.  In the block [format_file_content] makes of a text file the
    line numbers form a column of one width, the number of digits of the
    last line number: between the header and the closing separator the
    block holds, for line [k+1] of the file, its number padded on the
    left with spaces to that width, then [ | ] and the line itself. *)
Theorem line_numbers_are_aligned :
  forall (file_path : Path) (text : str),
  exists fields : list str,
    format_file_content file_path (Text text)
    = TreeUtils.nl ++ path_str file_path ++ u":" ++ TreeUtils.nl
        ++ repeat 45%N 80 ++ TreeUtils.nl
        ++ join [] (map (fun fl => fst fl ++ u" | " ++ snd fl)
                        (combine fields (readlines text)))
        ++ TreeUtils.nl ++ repeat 45%N 80 ++ TreeUtils.nl
    /\ length fields = length (readlines text)
    /\ forall (k : nat) (field : str),
         nth_error fields k = Some field ->
         length field = length (str_of_nat (length (readlines text)))
         /\ exists n, field = repeat 32%N n ++ str_of_nat (k + 1).
Proof.
  intros file_path text.
  exists (map (fun k => rjust (str_of_nat (k + 1))
                              (length (str_of_nat
                                         (length (readlines text)))))
              (seq 0 (length (readlines text)))).
  split; [|split].
  - unfold format_file_content.
    now rewrite (number_lines_fields _ (readlines text) 0).
  - now rewrite length_map, length_seq.
  - intros k field H.
    destruct (nth_error_fields _ _ 0 k field H) as [Hk E].
    rewrite E. cbn [Nat.add]. split.
    + rewrite length_rjust.
      pose proof (digits_mono (k + 1) (length (readlines text))). lia.
    + eexists. reflexivity.
Qed.

End MoreFormatting.

(** A file of twelve lines: the numbers take two columns. *)
Example sample_block :
  TreeUtils.format_file_content
    [u"/"; u"repo"; u"a.py"]
    (TreeUtils.Text
       (Py.join [10%N] (repeat (u"x") 9 ++ [u"y"; u"z"; u"w"])))
  = TreeUtils.nl ++ u"/repo/a.py:" ++ TreeUtils.nl
      ++ repeat 45%N 80 ++ TreeUtils.nl
      ++ u" 1 | x" ++ TreeUtils.nl ++ u" 2 | x" ++ TreeUtils.nl
      ++ u" 3 | x" ++ TreeUtils.nl ++ u" 4 | x" ++ TreeUtils.nl
      ++ u" 5 | x" ++ TreeUtils.nl ++ u" 6 | x" ++ TreeUtils.nl
      ++ u" 7 | x" ++ TreeUtils.nl ++ u" 8 | x" ++ TreeUtils.nl
      ++ u" 9 | x" ++ TreeUtils.nl ++ u"10 | y" ++ TreeUtils.nl
      ++ u"11 | z" ++ TreeUtils.nl ++ u"12 | w"
      ++ TreeUtils.nl ++ repeat 45%N 80 ++ TreeUtils.nl.
Proof. vm_compute. reflexivity. Qed.

Section MoreTreeParser.

Import Py.
Import TreeUtils.

Variable fnmatch : str -> str -> bool.
Variable str_lower : str -> str.

Local Abbreviation sort := (sorted str_lower).

(** ** The parser only matters through what it ignores *)

Lemma should_skip_alike (a b : ProjectTreeGenerator) (rel : Path) :
  alike fnmatch a b ->
  should_skip fnmatch a (root_path a ++ rel)
  = should_skip fnmatch b (root_path b ++ rel).
Proof.
  intros H. destruct H as [Hr [_ [_ [_ [_ [_ [_ Hi]]]]]]].
  specialize (Hi (path_str rel)). unfold ignores in Hi.
  unfold should_skip. rewrite !relative_to_under, <- Hr.
  destruct (eqb (path_name (root_path a ++ rel)) (u".git")); [reflexivity|].
  destruct (gitignore_parser a), (gitignore_parser b);
    try rewrite Hi; try rewrite <- Hi; reflexivity.
Qed.

Lemma not_skipped_alike (a b : ProjectTreeGenerator) (rel : Path)
      (entries : list fsnode) :
  alike fnmatch a b ->
  not_skipped fnmatch a (root_path a ++ rel) entries
  = not_skipped fnmatch b (root_path b ++ rel) entries.
Proof.
  intros H. induction entries as [|e entries IH]; [reflexivity|].
  cbn [not_skipped]. rewrite <- !app_assoc.
  now rewrite (should_skip_alike a b _ H), IH.
Qed.

Lemma for_entries_alike (root : Path)
      (recur : ProjectTreeGenerator -> Path -> fsnode -> str ->
               outcome ProjectTreeGenerator)
      (prefix : str) (entries : list fsnode) :
  (forall e, In e entries ->
             forall s t rel p,
               alike fnmatch s t -> root_path s = root ->
               exists x y,
                 recur s (root ++ rel) e p = Returns x
                 /\ recur t (root ++ rel) e p = Returns y
                 /\ alike fnmatch x y /\ root_path x = root) ->
  forall (a b : ProjectTreeGenerator) (rel : Path),
    alike fnmatch a b -> root_path a = root ->
    exists x y,
      for_entries recur (root ++ rel) prefix entries a = Returns x
      /\ for_entries recur (root ++ rel) prefix entries b = Returns y
      /\ alike fnmatch x y /\ root_path x = root.
Proof.
  induction entries as [|e rest IH]; intros Hrec a b rel H Hroot.
  - exists a, b. auto.
  - specialize (IH (fun e' He' => Hrec e' (or_intror He'))).
    pose proof (Hrec e (or_introl eq_refl)) as He. clear Hrec.
    destruct a as [ra pa oa fa ia ba la pia].
    destruct b as [rb pb ob fb ib bb lb pib].
    unfold alike in H. cbn in H, Hroot.
    destruct H as [E1 [E2 [E3 [E4 [E5 [E6 [E7 Hg]]]]]]]. subst.
    unfold ignores in Hg. cbn in Hg.
    assert (Hal : forall r o f i b l p,
               alike fnmatch
                 {| root_path := r; gitignore_parser := pa; output := o;
                    file_contents := f; indent := i; branch := b;
                    last_branch := l; pipe := p |}
                 {| root_path := r; gitignore_parser := pb; output := o;
                    file_contents := f; indent := i; branch := b;
                    last_branch := l; pipe := p |})
      by (intros; repeat split; intros path; unfold ignores; cbn;
          apply Hg).
    destruct e as [name data|name kids|name|name];
      cbn [for_entries is_dir node_name set_output set_file_contents
             root_path gitignore_parser output file_contents indent branch
             last_branch pipe bind].
    + apply IH; [apply Hal | reflexivity].
    + rewrite <- !(app_assoc root rel [name]).
      match goal with
      | |- exists x y, bind (recur ?s _ _ ?p) _ = _
                       /\ bind (recur ?t _ _ _) _ = _ /\ _ =>
          destruct (He s t (rel ++ [name]) p (Hal _ _ _ _ _ _ _) eq_refl)
            as [x [y [Hx [Hy [Hxy Hrx]]]]]
      end.
      rewrite Hx, Hy. cbn [bind]. apply IH; assumption.
    + rewrite <- !(app_assoc root rel [name]).
      match goal with
      | |- exists x y, bind (recur ?s _ _ ?p) _ = _
                       /\ bind (recur ?t _ _ _) _ = _ /\ _ =>
          destruct (He s t (rel ++ [name]) p (Hal _ _ _ _ _ _ _) eq_refl)
            as [x [y [Hx [Hy [Hxy Hrx]]]]]
      end.
      rewrite Hx, Hy. cbn [bind]. apply IH; assumption.
    + apply IH; [apply Hal | reflexivity].
Qed.

Lemma generate_tree_alike (depth : nat) :
  forall (node : fsnode), height node < depth ->
  forall (a b : ProjectTreeGenerator) (rel : Path) (prefix : str),
    alike fnmatch a b ->
    exists x y,
      generate_tree fnmatch str_lower depth a (root_path a ++ rel)
                    node prefix = Returns x
      /\ generate_tree fnmatch str_lower depth b (root_path a ++ rel)
                       node prefix = Returns y
      /\ alike fnmatch x y /\ root_path x = root_path a.
Proof.
  induction depth as [|depth IH]; intros node Hh a b rel prefix H; [lia|].
  destruct node as [name data|name kids|name|name];
    try solve [exists a, b; auto].
  cbn [generate_tree iterdir].
  assert (Hr : root_path a = root_path b) by apply H.
  pose proof (not_skipped_alike a b rel (sort kids) H) as Hn.
  rewrite <- Hr in Hn. rewrite <- Hn.
  destruct (not_skipped_returns fnmatch a rel (sort kids)) as [l E].
  rewrite E. cbn [bind].
  apply for_entries_alike; [|exact H | reflexivity].
  intros k Hk s t rel' p Hst Hs.
  assert (Hin : In k kids).
  { apply (sorted_In str_lower k kids).
    exact (not_skipped_In fnmatch _ _ _ _ E k Hk). }
  pose proof (height_kid name kids k Hin).
  rewrite <- Hs. apply IH; [lia | exact Hst].
Qed.

(** X22.  The report depends on the parser only through the paths it
    ignores: two generators with the same root whose parsers ignore the
    same relative paths give the same report.  In particular a parser
    that has loaded no pattern - no .gitignore file - gives the report of
    a generator built without a parser. *)
Theorem report_depends_on_what_is_ignored :
  forall (a b : ProjectTreeGenerator) (fs : fsnode),
    root_path a = root_path b ->
    indent a = indent b -> branch a = branch b ->
    last_branch a = last_branch b -> pipe a = pipe b ->
    (forall path, ignores fnmatch a path = ignores fnmatch b path) ->
    exists ga gb text,
      get_tree fnmatch str_lower a fs = Returns (ga, text)
      /\ get_tree fnmatch str_lower b fs = Returns (gb, text).
Proof.
  intros a b fs Hr Hi Hb Hl Hp Hg. unfold get_tree.
  set (a0 := set_file_contents (set_output a []) []).
  set (b0 := set_file_contents (set_output b []) []).
  assert (H0 : alike fnmatch a0 b0) by (repeat split; assumption).
  destruct (generate_tree_alike (S (height fs)) fs (Nat.lt_succ_diag_r _)
                                a0 b0 [] [] H0)
    as [x [y [Hx [Hy [Hxy _]]]]].
  rewrite app_nil_r in Hx, Hy.
  change (root_path b0) with (root_path b). rewrite <- Hr.
  change (root_path a) with (root_path a0).
  rewrite Hx, Hy. cbn [bind].
  destruct Hxy as [_ [Ho [Hf _]]]. rewrite Ho, Hf. eauto.
Qed.

End MoreTreeParser.

Lemma report_depends_on_what_is_ignored_witness :
  exists ga gb text,
    TreeUtils.get_tree Py.eqb Py.lower
      (TreeUtils.init [u"/"; u"repo"] (Some (Gitignore.init None)))
      sample_tree = Py.Returns (ga, text)
    /\ TreeUtils.get_tree Py.eqb Py.lower
         (TreeUtils.init [u"/"; u"repo"] None) sample_tree
       = Py.Returns (gb, text).
Proof.
  apply (report_depends_on_what_is_ignored
           Py.eqb Py.lower
           (TreeUtils.init [u"/"; u"repo"] (Some (Gitignore.init None)))
           (TreeUtils.init [u"/"; u"repo"] None) sample_tree);
    reflexivity.
Defined.

Section MoreTreeCount.

Import Py.
Import TreeUtils.

Variable fnmatch : str -> str -> bool.
Variable str_lower : str -> str.

Local Abbreviation sort := (sorted str_lower).

(** ** Nothing that is let through is left out *)

Variable self0 : ProjectTreeGenerator.

Local Abbreviation sk := (skipped fnmatch self0).
Local Abbreviation root := (root_path self0).

Lemma not_skipped_filter (self : ProjectTreeGenerator) (rel : Path)
      (entries : list fsnode) :
  same_settings self self0 ->
  not_skipped fnmatch self (root ++ rel) entries
  = Returns (filter (fun k => negb (sk ((root ++ rel) ++ [node_name k])))
                    entries).
Proof.
  intros Hs. induction entries as [|e entries IH]; [reflexivity|].
  cbn [not_skipped filter]. rewrite IH.
  rewrite (should_skip_settings fnmatch self self0 _ Hs).
  destruct (should_skip_returns fnmatch self0 (rel ++ [node_name e]))
    as [b E].
  rewrite app_assoc in E.
  assert (Eb : sk ((root ++ rel) ++ [node_name e]) = b)
    by (unfold skipped; rewrite E; destruct b; reflexivity).
  rewrite E, Eb. destruct b; reflexivity.
Qed.

Lemma list_sum_filter (f : fsnode -> bool) (g : fsnode -> nat)
      (l : list fsnode) :
  list_sum (map g (filter f l))
  = list_sum (map (fun k => if f k then g k else 0) l).
Proof.
  induction l as [|x l IH]; [reflexivity|].
  cbn [filter map]. destruct (f x); cbn [map];
    unfold list_sum in *; cbn [fold_right]; lia.
Qed.

Lemma list_sum_perm (g : fsnode -> nat) (l l' : list fsnode) :
  Permutation l l' -> list_sum (map g l) = list_sum (map g l').
Proof.
  unfold list_sum. induction 1; cbn [map fold_right]; lia.
Qed.

Lemma listed_entries_dir (d : Path) (name : str) (kids : list fsnode) :
  listed_entries sk d (Dir name kids)
  = list_sum (map (fun k => if negb (sk (d ++ [node_name k]))
                            then S (listed_entries sk (d ++ [node_name k]) k)
                            else 0) kids).
Proof.
  cbn [listed_entries].
  unfold list_sum.
  induction kids as [|k kids IH]; [reflexivity|].
  cbn [fold_right map]. rewrite IH.
  destruct (sk (d ++ [node_name k])); reflexivity.
Qed.

Lemma listed_files_dir (d : Path) (name : str) (kids : list fsnode) :
  listed_files sk d (Dir name kids)
  = list_sum (map (fun k => if negb (sk (d ++ [node_name k]))
                            then (match k with
                                  | RegularFile _ _ => 1 | _ => 0 end)
                                 + listed_files sk (d ++ [node_name k]) k
                            else 0) kids).
Proof.
  cbn [listed_files].
  unfold list_sum.
  induction kids as [|k kids IH]; [reflexivity|].
  cbn [fold_right map]. rewrite IH.
  destruct (sk (d ++ [node_name k])); reflexivity.
Qed.

Lemma for_entries_count
      (recur : ProjectTreeGenerator -> Path -> fsnode -> str ->
               outcome ProjectTreeGenerator)
      (directory : Path) (prefix : str) (entries : list fsnode) :
  (forall e, In e entries ->
             forall s p x,
               same_settings s self0 ->
               recur s (directory ++ [node_name e]) e p = Returns x ->
               same_settings x s
               /\ length (output x)
                  = length (output s)
                    + listed_entries sk (directory ++ [node_name e]) e
               /\ length (file_contents x)
                  = length (file_contents s)
                    + listed_files sk (directory ++ [node_name e]) e) ->
  forall self x : ProjectTreeGenerator,
    same_settings self self0 ->
    for_entries recur directory prefix entries self = Returns x ->
    length (output x)
    = length (output self)
      + list_sum
          (map (fun e => S (listed_entries sk (directory ++ [node_name e]) e))
               entries)
    /\ length (file_contents x)
       = length (file_contents self)
         + list_sum
             (map (fun e =>
                     (match e with RegularFile _ _ => 1 | _ => 0 end)
                     + listed_files sk (directory ++ [node_name e]) e)
                  entries).
Proof.
  induction entries as [|e rest IH]; intros Hrec self x Hs H.
  - inversion H; subst. cbn [map]. unfold list_sum. cbn [fold_right]. lia.
  - specialize (IH (fun e' He' => Hrec e' (or_intror He'))).
    pose proof (Hrec e (or_introl eq_refl)) as He. clear Hrec.
    cbn [for_entries] in H. cbn [map].
    unfold list_sum in *. cbn [fold_right].
    assert (Hset : forall o, same_settings (set_output self o) self0)
      by (intros o; apply (same_settings_trans _ self self0);
          [repeat split | exact Hs]).
    assert (Hsetf : forall o f,
               same_settings (set_file_contents (set_output self o) f) self0)
      by (intros o f; apply (same_settings_trans _ self self0);
          [repeat split | exact Hs]).
    destruct e as [name data|name kids|name|name];
      cbn [is_dir node_name bind] in H.
    + destruct (IH _ _ (Hsetf _ _) H) as [Ho Hf]. rewrite Ho, Hf.
      cbn [output file_contents set_output set_file_contents
             listed_entries listed_files].
      rewrite !length_app. cbn [length]. lia.
    + match type of H with
      | bind ?m _ = _ => destruct m as [y|] eqn:R; cbn [bind] in H;
                         [|discriminate H]
      end.
      destruct (He _ _ _ (Hset _) R) as [Hy [Hyo Hyf]].
      assert (Hy0 : same_settings y self0)
        by (apply (same_settings_trans _ _ _ Hy); apply Hset).
      destruct (IH _ _ Hy0 H) as [Ho Hf]. rewrite Ho, Hf, Hyo, Hyf.
      cbn [output file_contents set_output node_name].
      rewrite !length_app. cbn [length]. lia.
    + match type of H with
      | bind ?m _ = _ => destruct m as [y|] eqn:R; cbn [bind] in H;
                         [|discriminate H]
      end.
      destruct (He _ _ _ (Hset _) R) as [Hy [Hyo Hyf]].
      assert (Hy0 : same_settings y self0)
        by (apply (same_settings_trans _ _ _ Hy); apply Hset).
      destruct (IH _ _ Hy0 H) as [Ho Hf]. rewrite Ho, Hf, Hyo, Hyf.
      cbn [output file_contents set_output node_name].
      rewrite !length_app. cbn [length]. lia.
    + destruct (IH _ _ (Hset _) H) as [Ho Hf]. rewrite Ho, Hf.
      cbn [output file_contents set_output listed_entries listed_files].
      rewrite !length_app. cbn [length]. lia.
Qed.

Lemma generate_tree_count (depth : nat) :
  forall (self : ProjectTreeGenerator) (rel : Path) (node : fsnode)
         (prefix : str) (x : ProjectTreeGenerator),
    same_settings self self0 ->
    generate_tree fnmatch str_lower depth self (root ++ rel) node prefix
    = Returns x ->
    length (output x)
    = length (output self) + listed_entries sk (root ++ rel) node
    /\ length (file_contents x)
       = length (file_contents self) + listed_files sk (root ++ rel) node.
Proof.
  induction depth as [|depth IH]; intros self rel node prefix x Hs H;
    [discriminate H|].
  destruct node as [name data|name kids|name|name];
    try (inversion H; subst; cbn [listed_entries listed_files]; lia).
  cbn [generate_tree iterdir] in H.
  rewrite (not_skipped_filter self rel (sort kids) Hs) in H.
  cbn [bind] in H.
  apply for_entries_count in H; [| |exact Hs].
  - destruct H as [Ho Hf]. rewrite Ho, Hf.
    rewrite listed_entries_dir, listed_files_dir.
    rewrite !list_sum_filter.
    rewrite (list_sum_perm _ _ _ (sorted_perm str_lower kids)).
    rewrite (list_sum_perm
               (fun k => if negb (sk ((root ++ rel) ++ [node_name k]))
                         then (match k with
                               | RegularFile _ _ => 1 | _ => 0 end)
                              + listed_files
                                  sk ((root ++ rel) ++ [node_name k]) k
                         else 0)
               _ _ (sorted_perm str_lower kids)).
    split; reflexivity.
  - intros e _ s p y Hs' R. split.
    + exact (generate_tree_settings fnmatch str_lower _ _ _ _ _ _ R).
    + rewrite <- app_assoc in *.
      exact (IH s (rel ++ [node_name e]) e p y Hs' R).
Qed.

End MoreTreeCount.

Section MoreTreeShape.

Import Py.
Import TreeUtils.

Variable fnmatch : str -> str -> bool.
Variable str_lower : str -> str.

Local Abbreviation key := (sort_key str_lower).
Local Abbreviation sort := (sorted str_lower).

(** ** The listing, line by line *)

Lemma in_order_key (n : fsnode) : key (in_order str_lower n) = key n.
Proof. destruct n; reflexivity. Qed.

Lemma ordered_in_order (n : fsnode) :
  ordered str_lower (in_order str_lower n).
Proof.
  induction n as [name data|name kids IH|name|name] using fsnode_induction;
    try (apply ordered_leaf; reflexivity).
  cbn [in_order]. apply ordered_dir.
  - apply (sorted_sorted str_lower).
  - apply (directories_first str_lower). apply (sorted_sorted str_lower).
  - apply Forall_forall. intros x Hx.
    apply (proj1 (sorted_In str_lower x _)) in Hx.
    apply in_map_iff in Hx.
    destruct Hx as [k [E Hk]]. subst x.
    rewrite Forall_forall in IH. exact (IH k Hk).
Qed.

Lemma draw_entries_cons (self : ProjectTreeGenerator)
      (draw : fsnode -> str -> list str) (prefix : str)
      (k : fsnode) (rest : list fsnode) :
  draw_entries self draw prefix (k :: rest)
  = ((prefix ++ (if match rest with [] => true | _ => false end
                 then last_branch self else branch self))
       ++ node_name k)
      :: draw k (prefix ++ (if match rest with [] => true | _ => false end
                            then indent self else pipe self))
      ++ draw_entries self draw prefix rest.
Proof. reflexivity. Qed.

Lemma draw_entries_In (self : ProjectTreeGenerator)
      (draw : fsnode -> str -> list str) (prefix : str)
      (ks : list fsnode) (k : fsnode) :
  In k ks ->
  exists last : bool,
    In ((prefix ++ (if last then last_branch self else branch self))
          ++ node_name k)
       (draw_entries self draw prefix ks)
    /\ incl (draw k (prefix ++ (if last then indent self else pipe self)))
            (draw_entries self draw prefix ks).
Proof.
  induction ks as [|k0 rest IH]; intros H; [destruct H|].
  rewrite draw_entries_cons. destruct H as [E|H].
  - subst k0. exists (match rest with [] => true | _ => false end).
    split; [left; reflexivity|].
    intros line Hl. right. apply in_or_app. left. exact Hl.
  - destruct (IH H) as [last [Hline Hincl]]. exists last. split.
    + right. apply in_or_app. right. exact Hline.
    + intros line Hl. right. apply in_or_app. right. exact (Hincl line Hl).
Qed.

Section FixedGenerator.

Variable self0 : ProjectTreeGenerator.

Local Abbreviation sk := (skipped fnmatch self0).
Local Abbreviation root := (root_path self0).
Local Abbreviation arr := (arranged str_lower sk).

Lemma arranged_name (d : Path) (n : fsnode) :
  node_name (arr d n) = node_name n.
Proof. destruct n; reflexivity. Qed.

Lemma arranged_key (d : Path) (n : fsnode) : key (arr d n) = key n.
Proof. destruct n; reflexivity. Qed.

Lemma arranged_dir (d : Path) (name : str) (kids : list fsnode) :
  arr d (Dir name kids)
  = Dir name
        (map (fun k => arr (d ++ [node_name k]) k)
             (filter (fun k => negb (sk (d ++ [node_name k])))
                     (sort kids))).
Proof.
  unfold arranged. cbn [visible in_order]. f_equal.
  rewrite <- (sorted_filter str_lower).
  rewrite <- (sorted_map str_lower
                (fun k => in_order str_lower
                            (visible sk (d ++ [node_name k]) k)))
    by (intros n; apply arranged_key).
  f_equal.
  induction kids as [|k kids IH]; [reflexivity|].
  cbn [map filter]. rewrite visible_name.
  destruct (sk (d ++ [node_name k])); cbn [negb map]; now rewrite IH.
Qed.

Lemma for_entries_shape
      (recur : ProjectTreeGenerator -> Path -> fsnode -> str ->
               outcome ProjectTreeGenerator)
      (directory : Path) (prefix : str) (entries : list fsnode) :
  (forall e, In e entries ->
             forall s p x,
               same_settings s self0 ->
               recur s (directory ++ [node_name e]) e p = Returns x ->
               same_settings x s
               /\ output x
                  = output s
                      ++ drawing self0 (arr (directory ++ [node_name e]) e) p
               /\ file_contents x
                  = file_contents s
                      ++ blocks (directory ++ [node_name e])
                                (arr (directory ++ [node_name e]) e)) ->
  forall self x : ProjectTreeGenerator,
    same_settings self self0 ->
    for_entries recur directory prefix entries self = Returns x ->
    output x
    = output self
        ++ draw_entries self0 (drawing self0) prefix
             (map (fun k => arr (directory ++ [node_name k]) k) entries)
    /\ file_contents x
       = file_contents self
           ++ flat_map
                (fun k =>
                   (match k with
                    | RegularFile name data =>
                        [format_file_content (directory ++ [name]) data]
                    | _ => []
                    end)
                     ++ blocks (directory ++ [node_name k]) k)
                (map (fun k => arr (directory ++ [node_name k]) k) entries).
Proof.
  induction entries as [|e rest IH]; intros Hrec self x Hs H.
  - inversion H; subst. cbn. now rewrite !app_nil_r.
  - specialize (IH (fun e' He' => Hrec e' (or_intror He'))).
    pose proof (Hrec e (or_introl eq_refl)) as He. clear Hrec.
    cbn [map flat_map]. rewrite draw_entries_cons.
    assert (Elast : forall (A : Type) (a b : A),
               match map (fun k => arr (directory ++ [node_name k]) k) rest
               with [] => a | _ :: _ => b end
               = match rest with [] => a | _ :: _ => b end)
      by (intros A a b; destruct rest; reflexivity).
    rewrite !Elast. clear Elast.
    rewrite !arranged_name.
    cbn [for_entries] in H.
    assert (Hset : forall o, same_settings (set_output self o) self0)
      by (intros o; apply (same_settings_trans _ self self0);
          [repeat split | exact Hs]).
    assert (Hsetf : forall o f,
               same_settings (set_file_contents (set_output self o) f) self0)
      by (intros o f; apply (same_settings_trans _ self self0);
          [repeat split | exact Hs]).
    destruct Hs as (_ & _ & Hi & Hb & Hl & Hp).
    destruct e as [name data|name kids|name|name];
      cbn [is_dir node_name bind set_output set_file_contents
             indent branch last_branch pipe output file_contents] in H;
      rewrite ?Hi, ?Hb, ?Hl, ?Hp in H.
    + destruct (IH _ _ (Hsetf _ _) H) as [Ho Hf]. rewrite Ho, Hf.
      cbn [output file_contents set_output set_file_contents node_name].
      rewrite <- !app_assoc. split; reflexivity.
    + match type of H with
      | bind ?m _ = _ => destruct m as [y|] eqn:R; cbn [bind] in H;
                         [|discriminate H]
      end.
      destruct (He _ _ _ (Hset _) R) as [Hy [Hyo Hyf]].
      assert (Hy0 : same_settings y self0)
        by (apply (same_settings_trans _ _ _ Hy); apply Hset).
      destruct (IH _ _ Hy0 H) as [Ho Hf]. rewrite Ho, Hf, Hyo, Hyf.
      cbn [output file_contents set_output node_name].
      rewrite arranged_dir. cbn [app].
      rewrite <- !app_assoc. split; reflexivity.
    + match type of H with
      | bind ?m _ = _ => destruct m as [y|] eqn:R; cbn [bind] in H;
                         [|discriminate H]
      end.
      destruct (He _ _ _ (Hset _) R) as [Hy [Hyo Hyf]].
      assert (Hy0 : same_settings y self0)
        by (apply (same_settings_trans _ _ _ Hy); apply Hset).
      destruct (IH _ _ Hy0 H) as [Ho Hf]. rewrite Ho, Hf, Hyo, Hyf.
      cbn [output file_contents set_output node_name].
      rewrite <- !app_assoc. split; reflexivity.
    + destruct (IH _ _ (Hset _) H) as [Ho Hf]. rewrite Ho, Hf.
      cbn [output file_contents set_output node_name].
      rewrite <- !app_assoc. split; reflexivity.
Qed.

Lemma generate_tree_shape (depth : nat) :
  forall (self : ProjectTreeGenerator) (rel : Path) (node : fsnode)
         (prefix : str) (x : ProjectTreeGenerator),
    same_settings self self0 ->
    generate_tree fnmatch str_lower depth self (root ++ rel) node prefix
    = Returns x ->
    output x = output self ++ drawing self0 (arr (root ++ rel) node) prefix
    /\ file_contents x
       = file_contents self ++ blocks (root ++ rel) (arr (root ++ rel) node).
Proof.
  induction depth as [|depth IH]; intros self rel node prefix x Hs H;
    [discriminate H|].
  destruct node as [name data|name kids|name|name];
    try (inversion H; subst; cbn; now rewrite !app_nil_r).
  cbn [generate_tree iterdir] in H.
  rewrite (not_skipped_filter fnmatch self0 self rel (sort kids) Hs) in H.
  cbn [bind] in H.
  apply for_entries_shape in H; [| |exact Hs].
  - rewrite arranged_dir. cbn [drawing blocks]. exact H.
  - intros e _ s p y Hs' R. split.
    + exact (generate_tree_settings fnmatch str_lower _ _ _ _ _ _ R).
    + rewrite <- app_assoc in *.
      exact (IH s (rel ++ [node_name e]) e p y Hs' R).
Qed.

Lemma drawing_reaches (d : Path) (n : fsnode) (path : Path) (e : fsnode) :
  reaches sk d n path e ->
  forall prefix : str,
  exists parts,
    drawn self0 parts
    /\ length d + length parts = length path
    /\ In ((prefix ++ concat parts) ++ node_name e)
          (drawing self0 (arr d n) prefix)
    /\ forall name data,
         e = RegularFile name data ->
         In (format_file_content path data) (blocks d (arr d n)).
Proof.
  induction 1 as [d name kids k Hin Hsk
                 |d name kids k path e Hin Hsk Hr IH];
    intros prefix; rewrite arranged_dir; cbn [drawing blocks].
  - assert (HkL : In k (filter (fun k => negb (sk (d ++ [node_name k])))
                               (sort kids)))
      by (apply filter_In; split;
          [apply (sorted_In str_lower); exact Hin | now rewrite Hsk]).
    apply (in_map (fun k => arr (d ++ [node_name k]) k)) in HkL.
    destruct (draw_entries_In self0 (drawing self0) prefix _ _ HkL)
      as [last [Hline _]].
    rewrite arranged_name in Hline.
    exists [if last then last_branch self0 else branch self0].
    split; [|split; [|split]].
    + constructor; [|constructor]. destruct last; cbn; tauto.
    + rewrite length_app. cbn. lia.
    + cbn [concat]. rewrite app_nil_r. exact Hline.
    + intros name0 data ->. apply in_flat_map.
      exists (RegularFile name0 data). split; [exact HkL|].
      left. reflexivity.
  - assert (HkL : In k (filter (fun k => negb (sk (d ++ [node_name k])))
                               (sort kids)))
      by (apply filter_In; split;
          [apply (sorted_In str_lower); exact Hin | now rewrite Hsk]).
    apply (in_map (fun k => arr (d ++ [node_name k]) k)) in HkL.
    destruct (draw_entries_In self0 (drawing self0) prefix _ _ HkL)
      as [last [_ Hincl]].
    destruct (IH (prefix ++ (if last then indent self0 else pipe self0)))
      as [parts [Hd [Hlen [Hline Hblock]]]].
    exists ((if last then indent self0 else pipe self0) :: parts).
    split; [|split; [|split]].
    + constructor; [|exact Hd]. destruct last; cbn; tauto.
    + rewrite length_app in Hlen. cbn [length] in *. lia.
    + cbn [concat]. rewrite app_assoc. exact (Hincl _ Hline).
    + intros name0 data E. apply in_flat_map.
      exists (arr (d ++ [node_name k]) k). split; [exact HkL|].
      apply in_or_app. right. rewrite arranged_name.
      exact (Hblock name0 data E).
Qed.

End FixedGenerator.

Lemma get_tree_shape (self : ProjectTreeGenerator) (fs : fsnode) :
  exists g text,
    get_tree fnmatch str_lower self fs = Returns (g, text)
    /\ output g
       = drawing self
                 (arranged str_lower (skipped fnmatch self)
                           (root_path self) fs) []
    /\ file_contents g
       = blocks (root_path self)
                (arranged str_lower (skipped fnmatch self)
                          (root_path self) fs).
Proof.
  destruct (get_tree_prune fnmatch str_lower self fs) as [g [text [E _]]].
  exists g, text. split; [exact E|].
  unfold get_tree in E.
  set (self1 := set_file_contents (set_output self []) []) in E.
  assert (Hs : same_settings self1 self) by repeat split.
  destruct (generate_tree fnmatch str_lower (S (height fs)) self1
                          (root_path self1) fs []) as [x|] eqn:R;
    cbn [bind] in E; [|discriminate E].
  inversion E; subst x. clear E.
  pose proof (generate_tree_shape self (S (height fs)) self1 [] fs [] g Hs)
    as Hc.
  rewrite app_nil_r in Hc. exact (Hc R).
Qed.

Lemma get_tree_count (self : ProjectTreeGenerator) (fs : fsnode) :
  forall g text,
    get_tree fnmatch str_lower self fs = Returns (g, text) ->
    length (output g)
    = listed_entries (skipped fnmatch self) (root_path self) fs
    /\ length (file_contents g)
       = listed_files (skipped fnmatch self) (root_path self) fs.
Proof.
  intros g text E. unfold get_tree in E.
  set (self1 := set_file_contents (set_output self []) []) in E.
  assert (Hs : same_settings self1 self) by repeat split.
  destruct (generate_tree fnmatch str_lower (S (height fs)) self1
                          (root_path self1) fs []) as [x|] eqn:R;
    cbn [bind] in E; [|discriminate E].
  inversion E; subst x. clear E.
  pose proof (generate_tree_count fnmatch str_lower self (S (height fs))
                                  self1 [] fs [] g Hs) as Hc.
  rewrite app_nil_r in Hc. exact (Hc R).
Qed.

(** X20.  [get_tree] lists the entries of every directory in the order
    of the key [(not is_dir, name.lower())], the sub-directories before
    the others, however [iterdir] gives them: its listing and its file
    contents are, line for line and block for block, those of the tree
    as arranged, that is, without the entries [should_skip] marks and
    with what is left of every directory sorted by the key. *)
Theorem directories_are_listed_first :
  forall (self : ProjectTreeGenerator) (fs : fsnode),
  exists g text,
    get_tree fnmatch str_lower self fs = Returns (g, text)
    /\ output g
       = drawing self
                 (arranged str_lower (skipped fnmatch self)
                           (root_path self) fs) []
    /\ file_contents g
       = blocks (root_path self)
                (arranged str_lower (skipped fnmatch self)
                          (root_path self) fs)
    /\ ordered str_lower
               (arranged str_lower (skipped fnmatch self)
                         (root_path self) fs).
Proof.
  intros self fs.
  destruct (get_tree_shape self fs) as [g [text [E [Ho Hf]]]].
  exists g, text. repeat split; try assumption.
  apply ordered_in_order.
Qed.

(** X23.  Nothing that is let through is left out: every entry under the
    root that [should_skip] does not mark and that does not lie under a
    marked one has its line in the listing of [get_tree], one drawing
    string for each level and then its name, and every regular file
    among them, readable or not, has its block in the file contents,
    under its full path.  There are no other lines and no other blocks:
    the listing has as many lines as there are such entries, the
    contents as many blocks as there are such files. *)
Theorem every_visible_entry_is_listed :
  forall (self : ProjectTreeGenerator) (fs : fsnode),
  exists g text,
    get_tree fnmatch str_lower self fs = Returns (g, text)
    /\ (forall (path : Path) (e : fsnode),
           reaches (skipped fnmatch self) (root_path self) fs path e ->
           (exists parts,
               drawn self parts
               /\ length (root_path self) + length parts = length path
               /\ In (concat parts ++ node_name e) (output g))
           /\ (forall name data,
                  e = RegularFile name data ->
                  In (format_file_content path data) (file_contents g)))
    /\ length (output g)
       = listed_entries (skipped fnmatch self) (root_path self) fs
    /\ length (file_contents g)
       = listed_files (skipped fnmatch self) (root_path self) fs.
Proof.
  intros self fs.
  destruct (get_tree_shape self fs) as [g [text [E [Ho Hf]]]].
  exists g, text. split; [exact E|]. split.
  - intros path e Hr.
    destruct (drawing_reaches self _ _ _ _ Hr [])
      as [parts [Hd [Hlen [Hline Hblock]]]].
    split.
    + exists parts. rewrite Ho. repeat split; assumption.
    + intros name data Ee. rewrite Hf. exact (Hblock name data Ee).
  - exact (get_tree_count self fs g text E).
Qed.

End MoreTreeShape.

(** The sample tree as arranged: [src] before [README], and in [src]
    the directory [vendor] before [a.py]; each let-through entry has its
    line. *)
Example sample_tree_arranged :
  arranged Py.lower (skipped Py.eqb sample_generator) [u"/"; u"repo"]
           sample_tree
  = TreeUtils.Dir
      (u"repo")
      [ TreeUtils.Dir
          (u"src")
          [ TreeUtils.Dir (u"vendor") [];
            TreeUtils.RegularFile (u"a.py")
                                  (TreeUtils.Text (u"x = 1" ++ [10%N])) ];
        TreeUtils.RegularFile (u"README")
                              (TreeUtils.Text (u"diffdev" ++ [10%N])) ]
  /\ reaches (skipped Py.eqb sample_generator) [u"/"; u"repo"] sample_tree
             [u"/"; u"repo"; u"src"; u"a.py"]
             (TreeUtils.RegularFile (u"a.py")
                                    (TreeUtils.Text (u"x = 1" ++ [10%N]))).
Proof.
  split; [vm_compute; reflexivity|].
  apply (reaches_below
           (skipped Py.eqb sample_generator) [u"/"; u"repo"] (u"repo") _
           (TreeUtils.Dir
              (u"src")
              [ TreeUtils.RegularFile (u"a.py")
                                      (TreeUtils.Text (u"x = 1" ++ [10%N]));
                TreeUtils.Dir
                  (u"vendor")
                  [TreeUtils.RegularFile (u".git")
                                         (TreeUtils.Text (u"gitdir"))] ])).
  - cbn. tauto.
  - vm_compute. reflexivity.
  - exact (reaches_entry
             (skipped Py.eqb sample_generator)
             [u"/"; u"repo"; u"src"] (u"src")
             [ TreeUtils.RegularFile (u"a.py")
                                     (TreeUtils.Text (u"x = 1" ++ [10%N]));
               TreeUtils.Dir
                 (u"vendor")
                 [TreeUtils.RegularFile (u".git")
                                        (TreeUtils.Text (u"gitdir"))] ]
             (TreeUtils.RegularFile (u"a.py")
                                    (TreeUtils.Text (u"x = 1" ++ [10%N])))
             (or_introl eq_refl) eq_refl).
Qed.

(** In the sample tree four entries are let through, two of them
    regular files. *)
Example sample_tree_counts :
  listed_entries (skipped Py.eqb sample_generator) [u"/"; u"repo"]
                 sample_tree = 4
  /\ listed_files (skipped Py.eqb sample_generator) [u"/"; u"repo"]
                  sample_tree = 2.
Proof. split; reflexivity. Qed.

(* ================================================================== *)
(** * Properties of copy_directory_contents *)
(* ================================================================== *)

Section RootSearch.

Import Py.
Import TreeUtils.
Import Clipboard.

Variable fs : files.

Lemma path_eqb_eq (p q : Path) : path_eqb p q = true <-> p = q.
Proof.
  unfold path_eqb.
  destruct (list_eq_dec (list_eq_dec N.eq_dec) p q); split; auto.
  discriminate.
Qed.

Lemma parent_step (p : Path) :
  p = parent p \/ exists name, p = parent p ++ [name].
Proof.
  destruct p as [|a [|b p]]; cbn [parent].
  - now left.
  - destruct (startswith a (u"/")); [now left|]. right. now exists a.
  - right. exists (last (a :: b :: p) []).
    apply app_removelast_last. discriminate.
Qed.

Lemma climb_spec (steps : nat) :
  forall current : Path,
    length current < steps ->
    (exists below, current = climb fs steps current ++ below)
    /\ (marked fs (climb fs steps current) = true
        \/ climb fs steps current = parent (climb fs steps current))
    /\ (forall b1 b2,
           b1 <> [] -> current = climb fs steps current ++ b1 ++ b2 ->
           marked fs (climb fs steps current ++ b1) = false).
Proof.
  induction steps as [|steps IH]; intros current Hlen; [lia|].
  cbn [climb].
  assert (Hself : forall b1 b2 : Path,
             b1 <> [] -> current = current ++ b1 ++ b2 -> False).
  { intros b1 b2 Hb E. apply (f_equal (@length str)) in E.
    rewrite !length_app in E. destruct b1; [now apply Hb | simpl in E; lia]. }
  destruct (path_eqb current (parent current)) eqn:Etop.
  { apply path_eqb_eq in Etop. split; [exists []; now rewrite app_nil_r|].
    split; [now right|]. intros b1 b2 Hb E. destruct (Hself b1 b2 Hb E). }
  destruct (marked fs current) eqn:Em.
  { split; [exists []; now rewrite app_nil_r|].
    split; [now left|]. intros b1 b2 Hb E. destruct (Hself b1 b2 Hb E). }
  destruct (parent_step current) as [E|[name E]].
  { apply path_eqb_eq in E. congruence. }
  assert (Hp : length (parent current) < steps).
  { apply (f_equal (@length str)) in E. rewrite length_app in E.
    simpl in E. lia. }
  destruct (IH (parent current) Hp) as [[below Ha] [Hb Hc]].
  set (r := climb fs steps (parent current)) in *.
  split; [|split].
  - exists (below ++ [name]). rewrite app_assoc, <- Ha. exact E.
  - exact Hb.
  - intros b1 b2 Hb1 Eq.
    destruct b2 as [|y b2].
    { rewrite app_nil_r in Eq. now rewrite <- Eq. }
    destruct (@exists_last _ (y :: b2)) as [b2' [x Eb2]]; [discriminate|].
    rewrite Eb2, E in Eq. rewrite !app_assoc in Eq.
    apply app_inj_tail in Eq. destruct Eq as [Eq _].
    rewrite <- app_assoc in Eq. exact (Hc b1 b2' Hb1 Eq).
Qed.

(** X24.  The search for the project root stops at the nearest
    directory, from the target upwards, that holds a [.git] or a
    [.gitignore]: what it returns is the target or one of its ancestors,
    it is marked unless the top of the file system was reached, and no
    directory strictly between it and the target, the target included,
    is marked.  A [.gitignore] further up is never the one that is
    read. *)
Theorem find_root_is_the_nearest_marked_ancestor :
  forall target_path : Path,
    (exists below, target_path = find_root fs target_path ++ below)
    /\ (marked fs (find_root fs target_path) = true
        \/ find_root fs target_path = parent (find_root fs target_path))
    /\ (forall b1 b2,
           b1 <> [] ->
           target_path = find_root fs target_path ++ b1 ++ b2 ->
           marked fs (find_root fs target_path ++ b1) = false).
Proof.
  intros target_path. apply climb_spec. lia.
Qed.

End RootSearch.

Lemma find_root_is_the_nearest_marked_ancestor_witness :
  Clipboard.find_root sample_files [u"/"; u"repo"; u"src"; u"lib"]
  = [u"/"; u"repo"]
  /\ Clipboard.marked sample_files ([u"/"; u"repo"] ++ [u"src"]) = false.
Proof.
  split; [reflexivity|].
  apply (proj2 (proj2 (find_root_is_the_nearest_marked_ancestor
                         sample_files [u"/"; u"repo"; u"src"; u"lib"]))
               [u"src"] [u"lib"]).
  - discriminate.
  - reflexivity.
Defined.

Section Copying.

Import Py.
Import TreeUtils.
Import Clipboard.

Variable fnmatch : str -> str -> bool.
Variable str_lower : str -> str.
Variable copy : str -> outcome unit.



(** X26.  Nothing under a skipped entry reaches the clipboard by way of
    the tree: on two states of the file system that agree on whether the
    target is there, on the patterns that get loaded, and on the tree
    under the target once every entry that [should_skip] marks is
    removed with all that lies under it, the function does the same.
    What the root search looks at, the [.git] and [.gitignore] of the
    directories above, counts through the patterns that get loaded. *)
Theorem skipped_entries_never_reach_the_clipboard :
  forall (fs fs' : files) (target_path : Path)
         (parser : Gitignore.GitignoreParser),
    exists_ fs' target_path = exists_ fs target_path ->
    new_parser fs (find_root fs target_path ++ [u".gitignore"])
    = Returns parser ->
    new_parser fs' (find_root fs' target_path ++ [u".gitignore"])
    = Returns parser ->
    visible (skipped fnmatch (TreeUtils.init target_path (Some parser)))
            target_path (tree_at fs' target_path)
    = visible (skipped fnmatch (TreeUtils.init target_path (Some parser)))
              target_path (tree_at fs target_path) ->
    copy_directory_contents fnmatch str_lower copy fs' target_path
    = copy_directory_contents fnmatch str_lower copy fs target_path.
Proof.
  intros fs fs' target_path parser He Hp Hp' Hv.
  unfold copy_directory_contents, copy_body.
  rewrite He, Hp, Hp'.
  destruct (exists_ fs target_path); cbn [negb]; [|reflexivity].
  destruct (get_tree_visible fnmatch str_lower
              (TreeUtils.init target_path (Some parser))
              (tree_at fs target_path)) as [g [text [Hg Hgv]]].
  destruct (get_tree_visible fnmatch str_lower
              (TreeUtils.init target_path (Some parser))
              (tree_at fs' target_path)) as [g' [text' [Hg' Hgv']]].
  change (root_path (TreeUtils.init target_path (Some parser)))
    with target_path in Hgv, Hgv'.
  rewrite Hv, Hgv in Hgv'. inversion Hgv'; subst g' text'.
  rewrite Hg, Hg'. reflexivity.
Qed.

(** X27.  The copy of the function in cli.py never raises an
    [Exception]: a missing target and every error on the way end in
    [sys.exit(1)], where the one in clipboard.py raises; when one of
    the two returns, so does the other, having done the same. *)
Theorem cli_copy_exits_where_clipboard_raises :
  forall (fs : files) (target_path : Path),
    (forall e,
        fst (copy_directory_contents_cli fnmatch str_lower copy fs
                                         target_path) = Raises e ->
        is_Exception e = false)
    /\ (forall events,
           copy_directory_contents fnmatch str_lower copy fs target_path
           = (Returns tt, events)
           <-> copy_directory_contents_cli fnmatch str_lower copy fs
                                           target_path
               = (Returns tt, events))
    /\ (exists_ fs target_path = false ->
        copy_directory_contents fnmatch str_lower copy fs target_path
        = (Raises (Directory_not_found target_path), [])
        /\ copy_directory_contents_cli fnmatch str_lower copy fs target_path
           = (Raises SystemExit, [])).
Proof.
  intros fs target_path.
  unfold copy_directory_contents, copy_directory_contents_cli, copy_body.
  destruct (exists_ fs target_path); cbn [negb].
  - destruct (new_parser fs (find_root fs target_path ++ [u".gitignore"]))
      as [parser|e1].
    + destruct (get_tree fnmatch str_lower
                  (TreeUtils.init target_path (Some parser))
                  (tree_at fs target_path)) as [[g text]|e2].
      * destruct (copy text) as [[]|[| |kind message]]; cbn.
        all: repeat split; try discriminate; auto;
          try (intros e H; inversion H; reflexivity).
      * destruct e2; cbn; repeat split; try discriminate; auto;
          try (intros e H; inversion H; reflexivity).
    + destruct e1; cbn; repeat split; try discriminate; auto;
        try (intros e H; inversion H; reflexivity).
  - cbn. repeat split; try discriminate; auto.
    intros e H; inversion H; reflexivity.
Qed.

End Copying.


Lemma skipped_entries_never_reach_the_clipboard_witness :
  Clipboard.copy_directory_contents
    Py.eqb Py.lower no_clipboard
    (on_disk [u"/"; u"repo"]
             (checkout
                [ TreeUtils.RegularFile (u"out.bin") TreeUtils.NotUtf8;
                  TreeUtils.Dir
                    (u"cache")
                    [TreeUtils.RegularFile (u"log.txt")
                                           (TreeUtils.Text (u"built"))] ]))
    [u"/"; u"repo"]
  = Clipboard.copy_directory_contents
      Py.eqb Py.lower no_clipboard
      (on_disk [u"/"; u"repo"]
               (checkout
                  [TreeUtils.RegularFile (u"out.bin") TreeUtils.NotUtf8]))
      [u"/"; u"repo"].
Proof.
  apply (skipped_entries_never_reach_the_clipboard
           Py.eqb Py.lower no_clipboard
           (on_disk [u"/"; u"repo"]
                    (checkout
                       [TreeUtils.RegularFile (u"out.bin")
                                              TreeUtils.NotUtf8]))
           (on_disk [u"/"; u"repo"]
                    (checkout
                       [ TreeUtils.RegularFile (u"out.bin")
                                               TreeUtils.NotUtf8;
                         TreeUtils.Dir
                           (u"cache")
                           [TreeUtils.RegularFile
                              (u"log.txt")
                              (TreeUtils.Text (u"built"))] ]))
           [u"/"; u"repo"]
           (Gitignore.init (Some sample_gitignore))).
  - reflexivity.
  - reflexivity.
  - reflexivity.
  - vm_compute. reflexivity.
Defined.

(** On that checkout the text that is printed lists [a.py] and the
    [.gitignore], and nothing of [.git] or [build]. *)
Example sample_checkout_copy :
  exists text,
    Clipboard.copy_directory_contents
      Py.eqb Py.lower no_clipboard
      (on_disk [u"/"; u"repo"]
               (checkout
                  [TreeUtils.RegularFile (u"out.bin") TreeUtils.NotUtf8]))
      [u"/"; u"repo"]
    = (Py.Returns tt, [Clipboard.Printed text])
    /\ exists contents,
         text
         = TreeUtils.nl ++ u"File Tree:" ++ TreeUtils.nl
             ++ [9500; 9472; 9472; 32]%N ++ u".gitignore" ++ TreeUtils.nl
             ++ [9492; 9472; 9472; 32]%N ++ u"a.py" ++ TreeUtils.nl
             ++ TreeUtils.nl ++ u"File Contents:" ++ TreeUtils.nl
             ++ contents.
Proof.
  eexists. split; [vm_compute; reflexivity|].
  eexists. vm_compute. reflexivity.
Qed.

Lemma cli_copy_exits_where_clipboard_raises_witness :
  Clipboard.copy_directory_contents_cli
    Py.eqb Py.lower no_clipboard sample_files [u"/"; u"nowhere"]
  = (Py.Raises Py.SystemExit, []).
Proof.
  apply (proj2 (proj2 (cli_copy_exits_where_clipboard_raises
                         Py.eqb Py.lower no_clipboard sample_files
                         [u"/"; u"nowhere"]))).
  reflexivity.
Defined.
